(** * Time-bounded reconciliation core of the moderation bot

    A shallow embedding of the expiry loops of [scheduler.py], of the vote
    store of [votemute_db.py] and of the vote handlers of [bot.py].

    Conventions used throughout:
    - a [datetime] (and the float of [time.time()]) is a [Z] counting
      microseconds; ISO-8601 texts produced by [isoformat()] compare like the
      instants they denote, so the SQL comparisons on TEXT columns are
      comparisons on [Z];
    - a coroutine is cut at its [await]s; the code between two suspension
      points is one atomic computation in the state monad [M];
    - calls to the chat platform are recorded in a trace of attempted calls;
      whether a call raises is decided by an oracle of the world. *)

From stdpp Require Import base decidable option numbers strings gmap list sorting.

Open Scope Z_scope.

(** One second and one minute, in clock units. *)
Definition second : Z := 1000000.
Definition seconds (n : Z) : Z := n * second.
Definition minutes (n : Z) : Z := n * 60 * second.

(** ** The punishment store ([moderation_db]) *)

Module Moderation.

Inductive kind := warn | mute | ban.

#[global] Instance kind_eq_dec : EqDecision kind.
Proof. solve_decision. Defined.

(** A row as the loops and handlers read it: the keys ['id'], ['user_id'],
    ['expiry_date'] of the dictionaries returned by [get_active_punishments]
    and the keyword arguments given to [add_punishment]. *)
Record punishment := Punishment {
  punishment_id : Z;
  chat_id : Z;
  user_id : Z;
  moderator_id : Z;
  punishment_type : kind;
  duration_seconds : option Z;
  (* NULL and the empty text are both falsy for the loops: [None] *)
  expiry_date : option Z;
  active : bool
}.

Record db := Db {
  punishments : gmap Z punishment;
  next_id : Z
}.

Definition retire (p : punishment) : punishment :=
  Punishment (punishment_id p) (chat_id p) (user_id p) (moderator_id p)
             (punishment_type p) (duration_seconds p) (expiry_date p) false.

(** Modelled from the spec: [moderation_db.add_punishment] is not part of
    the sources at hand.  Section 4.1 and section 6 give it as
    [addPunishment(chat, subject, issuer, kind, reason?, durationSeconds?) -> id]:
    it records a new active punishment under a fresh id and returns the id. *)
Definition add_punishment (chat user moderator : Z) (k : kind)
    (duration expiry : option Z) (d : db) : Z * db :=
  let i := next_id d in
  (i, Db (<[i := Punishment i chat user moderator k duration expiry true]>
            (punishments d))
         (i + 1)).

(** Modelled from the spec: [moderation_db.get_active_punishments] is not part
    of the sources at hand.  Section 4.1: [getActivePunishments(chatId, kind)]
    returns the punishments of the chat and kind whose active flag is set. *)
Definition is_active_of (chat : Z) (k : kind) (p : punishment) : bool :=
  active p && bool_decide (chat_id p = chat) && bool_decide (punishment_type p = k).

Definition get_active_punishments (chat : Z) (k : kind) (d : db) : list punishment :=
  List.filter (is_active_of chat k) (map snd (map_to_list (punishments d))).

(** Modelled from the spec: [moderation_db.deactivate_punishment] is not part
    of the sources at hand.  Section 4.1: an atomic compare-and-set that
    flips [active] from true to false and returns whether this call
    performed the flip (false if another caller already did). *)
Definition deactivate_punishment (i : Z) (d : db) : bool * db :=
  match punishments d !! i with
  | Some p =>
      if active p
      then (true, Db (<[i := retire p]> (punishments d)) (next_id d))
      else (false, d)
  | None => (false, d)
  end.

Definition is_active (i : Z) (d : db) : bool :=
  match punishments d !! i with
  | Some p => active p
  | None => false
  end.

End Moderation.

(** ** The vote store ([votemute_db.VoteMuteDatabase]) *)

Module VoteMute.

(** The texts ["yes"] and ["no"] of column [vote_type]. *)
Inductive choice := yes | no.

#[global] Instance choice_eq_dec : EqDecision choice.
Proof. solve_decision. Defined.

(** The reasons handed to [finish_vote]; the source passes fixed texts. *)
Inductive reason :=
| majority_for            (* "Большинство голосов за мут" *)
| majority_against        (* "Большинство голосов против мута" *)
| expired_majority_for    (* "Время истекло - большинство за мут" *)
| expired_majority_against (* "Время истекло - большинство против мута" *)
| time_expired.           (* "Время истекло" *)

(** A row of [active_votes], without the six name columns (they are copied
    around unchanged and decide nothing). *)
Record active_vote := ActiveVote {
  vote_id : Z;
  chat_id : Z;
  target_user_id : Z;
  creator_id : Z;
  mute_duration : Z;      (* seconds *)
  required_votes : Z;
  vote_duration : Z;      (* minutes *)
  created_at : Z;
  expires_at : Z;
  is_pinned : bool;
  message_id : option Z
}.

(** A row of [vote_results]; its key [(vote_id, user_id)] is the map key. *)
Record ballot := Ballot {
  vote_type : choice;
  voted_at : Z;
  last_change_at : Z
}.

(** A row of [vote_history] (again without the name columns). *)
Record history := History {
  h_vote_id : Z;
  h_chat_id : Z;
  h_target_user_id : Z;
  h_creator_id : Z;
  h_mute_duration : Z;
  h_required_votes : Z;
  h_vote_duration : Z;
  h_created_at : Z;
  h_finished_at : Z;
  h_result : string;
  h_reason : reason;
  h_votes_yes : Z;
  h_votes_no : Z
}.

(** The dictionary [{"yes": _, "no": _}] returned by [get_vote_results]. *)
Record results := Results { votes_yes : Z; votes_no : Z }.

Record db := Db {
  active_votes : list active_vote;          (* in rowid order *)
  next_vote_id : Z;                         (* AUTOINCREMENT *)
  vote_results : gmap (Z * Z) ballot;
  vote_cooldowns : gmap Z Z;
  vote_history : list history
}.

Definition set_active_votes (l : list active_vote) (d : db) : db :=
  Db l (next_vote_id d) (vote_results d) (vote_cooldowns d) (vote_history d).

Definition set_vote_results (r : gmap (Z * Z) ballot) (d : db) : db :=
  Db (active_votes d) (next_vote_id d) r (vote_cooldowns d) (vote_history d).

(** [create_vote]: [expires_at = now + timedelta(minutes=vote_duration)]. *)
Definition create_vote (now chat target creator duration required window : Z)
    (pinned : bool) (d : db) : Z * db :=
  let i := next_vote_id d in
  (i, Db (active_votes d ++
            [ActiveVote i chat target creator duration required window
                        now (now + minutes window) pinned None])
         (i + 1) (vote_results d) (vote_cooldowns d) (vote_history d)).

(** [get_active_vote]: the rows of the chat with [expires_at > now], the one
    created last first; among rows created at the same time the one with
    the smaller rowid. *)
Definition is_live (now chat : Z) (v : active_vote) : bool :=
  bool_decide (chat_id v = chat) && bool_decide (now < expires_at v).

Definition latest (v : active_vote) (best : option active_vote) : option active_vote :=
  match best with
  | Some b => if bool_decide (created_at b <= created_at v) then Some v else Some b
  | None => Some v
  end.

Definition live_votes (now chat : Z) (d : db) : list active_vote :=
  List.filter (is_live now chat) (active_votes d).

Definition get_active_vote (now chat : Z) (d : db) : option active_vote :=
  fold_right latest None (live_votes now chat d).

(** [get_vote_by_id] *)
Definition get_vote_by_id (i : Z) (d : db) : option active_vote :=
  List.find (fun v => bool_decide (vote_id v = i)) (active_votes d).

(** [add_vote]: insert, or update once 30 seconds have passed since
    [last_change_at]. *)
Definition add_vote (now i user : Z) (c : choice) (d : db) : bool * db :=
  match vote_results d !! (i, user) with
  | Some existing =>
      if bool_decide (now - last_change_at existing < seconds 30)
      then (false, d)
      else (true, set_vote_results (<[(i, user) := Ballot c now now]> (vote_results d)) d)
  | None =>
      (true, set_vote_results (<[(i, user) := Ballot c now now]> (vote_results d)) d)
  end.

(** [get_vote_results]: [COUNT( * ) ... GROUP BY vote_type] over the ballots
    of the vote, written into [{"yes": 0, "no": 0}]. *)
Definition ballots_of (i : Z) (d : db) : list ballot :=
  map snd (List.filter (fun kb => bool_decide (fst (fst kb) = i))
                       (map_to_list (vote_results d))).

Definition count_choice (c : choice) (l : list ballot) : Z :=
  Z.of_nat (length (List.filter (fun b => bool_decide (vote_type b = c)) l)).

Definition get_vote_results (i : Z) (d : db) : results :=
  Results (count_choice yes (ballots_of i d)) (count_choice no (ballots_of i d)).

(** The INSERT into [vote_history] shared by [finish_vote] and
    [cleanup_expired_votes].  The row comes from [SELECT *], so [vote_data[0]]
    is [vote_id] and every listed column receives its left neighbour. *)
Definition to_history (i : Z) (v : active_vote) (finished : Z) (result : string)
    (why : reason) (r : results) : history :=
  History i (vote_id v) (chat_id v) (target_user_id v) (creator_id v)
          (mute_duration v) (required_votes v) (vote_duration v)
          finished result why (votes_yes r) (votes_no r).

Definition delete_vote (i : Z) (d : db) : db :=
  Db (List.filter (fun v => negb (bool_decide (vote_id v = i))) (active_votes d))
     (next_vote_id d)
     (filter (fun kb => fst (fst kb) ≠ i) (vote_results d))
     (vote_cooldowns d)
     (vote_history d).

Definition add_history (h : history) (d : db) : db :=
  Db (active_votes d) (next_vote_id d) (vote_results d) (vote_cooldowns d)
     (vote_history d ++ [h]).

(** [finish_vote]: [None] when the vote is not in [active_votes] any more. *)
Definition finish_vote (now i : Z) (result : string) (why : reason) (d : db)
    : option active_vote * db :=
  match get_vote_by_id i d with
  | None => (None, d)
  | Some v =>
      (Some v,
       delete_vote i (add_history (to_history i v now result why (get_vote_results i d)) d))
  end.

(** [_finish_sync] is not one transaction from its first statement: the
    SELECTs run outside of any, and the connection takes the write lock only
    at the INSERT.  [finish_vote] above is a call that no statement of
    another thread falls into; its two halves are what the SELECTs read, and
    the INSERT and DELETEs done with what was read. *)
Definition finish_vote_read (i : Z) (d : db) : option (active_vote * results) :=
  match get_vote_by_id i d with
  | None => None
  | Some v => Some (v, get_vote_results i d)
  end.

Definition finish_vote_write (now i : Z) (result : string) (why : reason)
    (read : active_vote * results) (d : db) : option active_vote * db :=
  (Some read.1,
   delete_vote i (add_history (to_history i read.1 now result why read.2) d)).

(** Two calls for the same vote whose SELECTs both run before the INSERT of
    either: the second INSERT waits for the commit of the first. *)
Definition finish_vote_overlapping (now now' i : Z) (result result' : string)
    (why why' : reason) (d : db) : option active_vote * option active_vote * db :=
  match finish_vote_read i d, finish_vote_read i d with
  | Some first, Some second =>
      let (v, d1) := finish_vote_write now i result why first d in
      let (v', d2) := finish_vote_write now' i result' why' second d1 in
      (v, v', d2)
  | _, _ => (None, None, d)
  end.

(** [check_cooldown] and [set_cooldown] (3 minutes per chat). *)
Definition check_cooldown (now chat : Z) (d : db) : bool :=
  match vote_cooldowns d !! chat with
  | None => true
  | Some last => bool_decide (seconds 180 <= now - last)
  end.

Definition set_cooldown (now chat : Z) (d : db) : db :=
  Db (active_votes d) (next_vote_id d) (vote_results d)
     (<[chat := now]> (vote_cooldowns d)) (vote_history d).

(** [cleanup_expired_votes]: every vote with [expires_at <= now] goes to the
    history as ["failed"], whatever its tally. *)
Definition cleanup_one (now : Z) (d : db) (i : Z) : db :=
  match get_vote_by_id i d with
  | Some v =>
      delete_vote i
        (add_history (to_history i v now "failed" time_expired (get_vote_results i d)) d)
  | None => d
  end.

Definition expired_votes (now : Z) (d : db) : list Z :=
  map vote_id (List.filter (fun v => bool_decide (expires_at v <= now)) (active_votes d)).

Definition cleanup_expired_votes (now : Z) (d : db) : Z * db :=
  (Z.of_nat (length (expired_votes now d)),
   fold_left (cleanup_one now) (expired_votes now d) d).

(** [update_vote_message_id] *)
Definition with_message_id (i m : Z) (v : active_vote) : active_vote :=
  if bool_decide (vote_id v = i)
  then ActiveVote (vote_id v) (chat_id v) (target_user_id v) (creator_id v)
                  (mute_duration v) (required_votes v) (vote_duration v)
                  (created_at v) (expires_at v) (is_pinned v) (Some m)
  else v.

Definition update_vote_message_id (i m : Z) (d : db) : db :=
  set_active_votes (map (with_message_id i m) (active_votes d)) d.

(** A history row written by the cleanup. *)
Definition timed_out (h : history) : Prop :=
  h_result h = "failed" ∧ h_reason h = time_expired.

End VoteMute.

(** ** The world: stores, chat platform, clock *)

(** The texts the bot sends or shows; only their kind matters here. *)
Inductive text :=
| text_unmuted              (* "... освобожден(а) от тайм-аута" *)
| text_unbanned             (* "... был(а) автоматически разбанен(а)" *)
| text_unbanned_private     (* "Вы были автоматически разбанены ..." *)
| text_vote_open (r : VoteMute.results)
| text_vote_muted           (* "Голосование завершено - пользователь замучен" *)
| text_vote_mute_error      (* "... ошибка при применении мута" *)
| text_vote_against         (* "... большинство против мута" *)
| text_vote_not_applied     (* "... мут не применен" *)
| text_vote_exists          (* "В чате уже есть активное голосование..." *)
| text_vote_cooldown        (* "Голосование можно создать раз в 3 минуты..." *)
| text_vote_refused         (* the other refusals of /votemute *)
| text_vote_create_error    (* "Ошибка при создании голосования" *)
| answer_not_found          (* "Голосование не найдено" *)
| answer_finished           (* "Голосование завершено" *)
| answer_creator            (* "Создатель не может голосовать" *)
| answer_target             (* "Цель мута не может голосовать" *)
| answer_moderator          (* "Модераторы не участвуют в голосовании" *)
| answer_cooldown           (* "Можно менять голос раз в 30 секунд" *)
| answer_counted (c : VoteMute.choice).

(** Calls to the chat platform.  [restrict_chat_member c u false until] mutes,
    [restrict_chat_member c u true None] lifts the restriction. *)
Inductive call :=
| restrict_chat_member (chat user : Z) (can_send : bool) (until_date : option Z)
| unban_chat_member (chat user : Z)
| send_message (chat : Z) (t : text)
| edit_message_text (chat : Z) (message : option Z) (t : text)
| pin_chat_message (chat : Z) (message : Z)
| unpin_chat_message (chat : Z) (message : option Z)
| get_chat (chat : Z)
| answer_callback (t : text).

(** The two classes of exception the loops tell apart by the error text. *)
Inductive platform_error := chat_not_found | other_error.

(** An attempted call, who issued it (a task or request number) and, in the
    expiry loops, the punishment it was issued for. *)
Record event := Event {
  issuer : nat;
  subject : option Z;
  what : call
}.

Record world := World {
  moderation : Moderation.db;
  votemute : VoteMute.db;
  recently_processed_mutes : gmap Z Z;     (* [_recently_processed_mutes] *)
  vote_cache : gmap (Z * option Z) VoteMute.results;  (* [_vote_cache] *)
  inactive_chats : list Z;                 (* chats given to [db.deactivate_chat] *)
  trace : list event;                      (* oldest call first *)
  clock : nat -> Z;                        (* successive readings of the clock *)
  ticks : nat;
  raises : call -> option platform_error;  (* outcome of a platform call *)
  effective_rank : Z -> Z -> Z             (* [get_effective_rank chat user] *)
}.

Definition M (A : Type) : Type := world -> A * world.

Definition ret {A} (a : A) : M A := fun w => (a, w).

Definition bind {A B} (m : M A) (k : A -> M B) : M B :=
  fun w => let (a, w') := m w in k a w'.

Notation "x <- m ;; k" := (bind m (fun x => k))
  (at level 100, m at next level, right associativity).
Notation "m ;;; k" := (bind m (fun _ => k))
  (at level 100, right associativity).

(** [datetime.now()] / [time.time()] *)
Definition now : M Z := fun w =>
  (clock w (ticks w),
   World (moderation w) (votemute w) (recently_processed_mutes w) (vote_cache w)
         (inactive_chats w) (trace w) (clock w) (S (ticks w)) (raises w)
         (effective_rank w)).

Definition on_moderation {A} (f : Moderation.db -> A * Moderation.db) : M A := fun w =>
  let (a, d) := f (moderation w) in
  (a, World d (votemute w) (recently_processed_mutes w) (vote_cache w)
            (inactive_chats w) (trace w) (clock w) (ticks w) (raises w)
            (effective_rank w)).

Definition on_votemute {A} (f : VoteMute.db -> A * VoteMute.db) : M A := fun w =>
  let (a, d) := f (votemute w) in
  (a, World (moderation w) d (recently_processed_mutes w) (vote_cache w)
            (inactive_chats w) (trace w) (clock w) (ticks w) (raises w)
            (effective_rank w)).

Definition read_moderation {A} (f : Moderation.db -> A) : M A :=
  on_moderation (fun d => (f d, d)).

Definition read_votemute {A} (f : VoteMute.db -> A) : M A :=
  on_votemute (fun d => (f d, d)).

Definition write_votemute (f : VoteMute.db -> VoteMute.db) : M unit :=
  on_votemute (fun d => (tt, f d)).

Definition recently_processed : M (gmap Z Z) := fun w => (recently_processed_mutes w, w).

Definition set_recently_processed (i ts : Z) : M unit := fun w =>
  (tt, World (moderation w) (votemute w) (<[i := ts]> (recently_processed_mutes w))
             (vote_cache w) (inactive_chats w) (trace w) (clock w) (ticks w)
             (raises w) (effective_rank w)).

Definition cached_results (key : Z * option Z) : M (option VoteMute.results) :=
  fun w => (vote_cache w !! key, w).

Definition set_cached_results (key : Z * option Z) (r : VoteMute.results) : M unit :=
  fun w =>
  (tt, World (moderation w) (votemute w) (recently_processed_mutes w)
             (<[key := r]> (vote_cache w)) (inactive_chats w) (trace w) (clock w)
             (ticks w) (raises w) (effective_rank w)).

(** [db.deactivate_chat] *)
Definition deactivate_chat (chat : Z) : M unit := fun w =>
  (tt, World (moderation w) (votemute w) (recently_processed_mutes w) (vote_cache w)
             (chat :: inactive_chats w) (trace w) (clock w) (ticks w) (raises w)
             (effective_rank w)).

(** Attempt a platform call: it is appended to the trace, and the oracle says
    whether it raised. *)
Definition perform (who : nat) (about : option Z) (c : call) : M (option platform_error) :=
  fun w =>
  (raises w c,
   World (moderation w) (votemute w) (recently_processed_mutes w) (vote_cache w)
         (inactive_chats w) (trace w ++ [Event who about c]) (clock w) (ticks w)
         (raises w) (effective_rank w)).

Definition get_effective_rank (chat user : Z) : M Z := fun w =>
  (effective_rank w chat user, w).

Definition RANK_OWNER : Z := 1.
Definition RANK_ADMIN : Z := 2.
Definition RANK_SENIOR_MOD : Z := 3.
Definition RANK_JUNIOR_MOD : Z := 4.
Definition RANK_USER : Z := 5.

(** ** The expiry loops ([TaskScheduler.mute_expiry_task], [ban_expiry_task]) *)

Module Scheduler.

Import Moderation.

Inductive loop := mute_expiry_task | ban_expiry_task.

(** Where one iteration of the [for mute in active_mutes] body stands.  The
    body is suspended at [await deactivate_punishment] and at each platform
    call; [Owned rest] holds the calls it still has to make. *)
Inductive pc :=
| Pending
| Skipped                        (* [continue] before any call to the store *)
| Returned (deactivated : bool)  (* [deactivate_punishment] has answered *)
| Lost                           (* [if not deactivated: ... continue] *)
| Owned (rest : list call).

Record task := Task {
  of_loop : loop;
  row : punishment;        (* the dictionary [mute] / [ban] of the snapshot *)
  current_time : Z;        (* [current_time_ref], read when the scan started *)
  state : pc
}.

Definition with_state (s : pc) (t : task) : task :=
  Task (of_loop t) (row t) (current_time t) s.

Definition subject_of (t : task) : option Z := Some (punishment_id (row t)).

(** [if mute_id in recently_processed_ref: ... if time_since_processed < 30] *)
Definition processed_recently (t : task) (recent : gmap Z Z) : bool :=
  match recent !! punishment_id (row t) with
  | Some ts => bool_decide (current_time t - ts < seconds 30)
  | None => false
  end.

(** The mute body up to the answer of the store.  [now] is read in the time
    zone of the expiry date, so both are instants on one clock. *)
Definition mute_check (t : task) : M pc :=
  recent <- recently_processed ;;
  if processed_recently t recent then ret Skipped
  else
    match expiry_date (row t) with
    | None => ret Skipped
    | Some expiry =>
        n <- now ;;
        let time_diff := n - expiry in
        if bool_decide (time_diff < 0) then ret Skipped
        else if bool_decide (0 <= time_diff) then
          deactivated <- on_moderation (deactivate_punishment (punishment_id (row t))) ;;
          ret (Returned deactivated)
        else ret Skipped
    end.

(** The ban body up to the answer of the store. *)
Definition ban_check (t : task) : M pc :=
  match expiry_date (row t) with
  | None => ret Skipped
  | Some expiry =>
      n <- now ;;
      if bool_decide (expiry <= n) then
        deactivated <- on_moderation (deactivate_punishment (punishment_id (row t))) ;;
        ret (Returned deactivated)
      else ret Skipped
  end.

(** The calls made by the owner of an expired punishment, in source order.
    The rows come from [get_active_punishments(chat['chat_id'], _)], so the
    chat of the row is the chat being scanned. *)
Definition mute_script (t : task) : list call :=
  [ restrict_chat_member (chat_id (row t)) (user_id (row t)) true None;
    send_message (chat_id (row t)) text_unmuted ].

Definition ban_script (t : task) : list call :=
  [ unban_chat_member (chat_id (row t)) (user_id (row t));
    send_message (chat_id (row t)) text_unbanned;
    get_chat (chat_id (row t));
    send_message (user_id (row t)) text_unbanned_private ].

Definition script (t : task) : list call :=
  match of_loop t with
  | mute_expiry_task => mute_script t
  | ban_expiry_task => ban_script t
  end.

(** After the store has answered: the mute loop notes the id in the dedup
    cache on both branches, the ban loop keeps no cache. *)
Definition returned (t : task) (deactivated : bool) : M pc :=
  match of_loop t with
  | mute_expiry_task =>
      set_recently_processed (punishment_id (row t)) (current_time t) ;;;
      ret (if deactivated then Owned (mute_script t) else Lost)
  | ban_expiry_task =>
      ret (if deactivated then Owned (ban_script t) else Lost)
  end.

(** One platform call of the owner and its [except] clause: "chat not found"
    marks the chat inactive and goes on; [get_chat] failing otherwise is
    re-raised and drops the private notice; a failed private notice is only
    logged. *)
Definition owned_step (i : nat) (t : task) (c : call) (rest : list call) : M pc :=
  err <- perform i (subject_of t) c ;;
  match c, err with
  | get_chat _, Some other_error => ret (Owned [])
  | get_chat _, _ => ret (Owned rest)
  | send_message _ text_unbanned_private, _ => ret (Owned rest)
  | _, Some chat_not_found => deactivate_chat (chat_id (row t)) ;;; ret (Owned rest)
  | _, _ => ret (Owned rest)
  end.

Definition step_task (i : nat) (t : task) : M pc :=
  match state t with
  | Pending =>
      match of_loop t with
      | mute_expiry_task => mute_check t
      | ban_expiry_task => ban_check t
      end
  | Returned deactivated => returned t deactivated
  | Owned (c :: rest) => owned_step i t c rest
  | Owned [] => ret (Owned [])
  | Skipped => ret Skipped
  | Lost => ret Lost
  end.

(** Loop bodies in flight, and the world they share.  A schedule names, step
    by step, the body that runs next up to its next suspension point. *)
Definition config : Type := list task * world.

Definition step (cfg : config) (i : nat) : config :=
  match cfg.1 !! i with
  | Some t =>
      let (s, w) := step_task i t cfg.2 in
      (<[i := with_state s t]> cfg.1, w)
  | None => cfg
  end.

Definition run (schedule : list nat) (cfg : config) : config :=
  fold_left step schedule cfg.

(** The bodies one pass over a chat starts: one per active punishment of the
    loop's kind.  The mute loop looks at a chat only when the bot is its
    administrator or creator ([administers]); the ban loop does not ask. *)
Definition kind_of (l : loop) : kind :=
  match l with
  | mute_expiry_task => mute
  | ban_expiry_task => ban
  end.

Definition process_chat (l : loop) (administers : bool) (chat started : Z) (d : db)
    : list task :=
  match l, administers with
  | mute_expiry_task, false => []
  | _, _ => map (fun p => Task l p started Pending)
                (get_active_punishments chat (kind_of l) d)
  end.

(** Every row of the store sits under its own id. *)
Definition keyed (d : db) : Prop :=
  ∀ i p, punishments d !! i = Some p → punishment_id p = i.

(** What the store answered to a body, if it has. *)
Definition deactivated_of (s : pc) : option bool :=
  match s with
  | Returned b => Some b
  | Lost => Some false
  | Owned _ => Some true
  | Pending | Skipped => None
  end.

(** The side effects of a reversal. *)
Inductive side_effect := reversal | chat_notice | private_notice.

#[global] Instance side_effect_eq_dec : EqDecision side_effect.
Proof. solve_decision. Defined.

Definition classify (c : call) : option side_effect :=
  match c with
  | restrict_chat_member _ _ true _ => Some reversal
  | unban_chat_member _ _ => Some reversal
  | send_message _ text_unmuted => Some chat_notice
  | send_message _ text_unbanned => Some chat_notice
  | send_message _ text_unbanned_private => Some private_notice
  | _ => None
  end.

Definition is_effect (k : side_effect) (c : call) : bool :=
  bool_decide (classify c = Some k).

Definition about (k : side_effect) (i : Z) (e : event) : bool :=
  bool_decide (subject e = Some i) && is_effect k (what e).

Definition occurrences (k : side_effect) (i : Z) (tr : list event) : nat :=
  length (List.filter (about k i) tr).

Definition mentions (i : Z) (tr : list event) : bool :=
  existsb (fun e => bool_decide (subject e = Some i)) tr.

End Scheduler.

(** ** The vote handlers of [bot.py] and the cleanup task *)

Module Bot.

Import VoteMute.

Section Handlers.

(** [bot.id], the bot's own user id. *)
Variable bot_id : Z.

(** The number of the request or task that runs; it only labels the trace. *)
Variable me : nat.

Definition answer (t : text) : M unit :=
  perform me None (answer_callback t) ;;; ret tt.

Definition reply (chat : Z) (t : text) : M unit :=
  perform me None (send_message chat t) ;;; ret tt.

(** [update_vote_message]: the prompt is edited unless the cached tally is
    the same. *)
Definition refresh_vote_message (chat : Z) (message : option Z) (r : results) : M unit :=
  set_cached_results (chat, message) r ;;;
  perform me None (edit_message_text chat message (text_vote_open r)) ;;;
  ret tt.

Definition update_vote_message (chat : Z) (message : option Z) (r : results) : M unit :=
  cached <- cached_results (chat, message) ;;
  match cached with
  | Some c =>
      if bool_decide (votes_yes c = votes_yes r) && bool_decide (votes_no c = votes_no r)
      then ret tt
      else refresh_vote_message chat message r
  | None => refresh_vote_message chat message r
  end.

(** [finish_votemute], the branch [result == "success"]: restrict the target
    and, if that did not raise, record the mute.  (The reputation penalty that
    follows lives in a store of its own and is left out.) *)
Definition apply_mute (v : active_vote) : M text :=
  n <- now ;;
  let mute_until := n + seconds (mute_duration v) in
  err <- perform me None
           (restrict_chat_member (chat_id v) (target_user_id v) false (Some mute_until)) ;;
  match err with
  | Some _ => ret text_vote_mute_error
  | None =>
      on_moderation (Moderation.add_punishment (chat_id v) (target_user_id v) bot_id
                       Moderation.mute (Some (mute_duration v)) (Some mute_until)) ;;;
      ret text_vote_muted
  end.

(** [finish_votemute] up to its first suspension: [get_vote_by_id]. *)
Definition finish_votemute_lookup (i : Z) : M (option active_vote) :=
  read_votemute (get_vote_by_id i).

(** [finish_votemute] from there on, [vote_data] in hand: tally, move to the
    history (the answer of [finish_vote] is dropped), mute, unpin, edit. *)
Definition finish_votemute_resolve (i : Z) (result : string) (why : reason)
    (vote_data : active_vote) : M unit :=
  r <- read_votemute (get_vote_results i) ;;
  n <- now ;;
  on_votemute (finish_vote n i result why) ;;;
  t <- (if bool_decide (result = "success") then apply_mute vote_data
        else if bool_decide (result = "failed") then ret text_vote_against
        else ret text_vote_not_applied) ;;
  (if is_pinned vote_data
   then perform me None (unpin_chat_message (chat_id vote_data) (message_id vote_data)) ;;;
        ret tt
   else ret tt) ;;;
  perform me None (edit_message_text (chat_id vote_data) (message_id vote_data) t) ;;;
  ret tt.

Definition finish_votemute (i : Z) (result : string) (why : reason) : M unit :=
  vote_data <- finish_votemute_lookup i ;;
  match vote_data with
  | None => ret tt
  | Some v => finish_votemute_resolve i result why v
  end.

(** [vote_callback_handler] on callback data [vote_yes_<i>] / [vote_no_<i>]. *)
Definition vote_callback_handler (user : Z) (c : choice) (i : Z) : M unit :=
  vote_data <- read_votemute (get_vote_by_id i) ;;
  match vote_data with
  | None => answer answer_not_found
  | Some v =>
      n <- now ;;
      if bool_decide (expires_at v <= n) then answer answer_finished
      else if bool_decide (user = creator_id v) then answer answer_creator
      else if bool_decide (user = target_user_id v) then answer answer_target
      else
        user_rank <- get_effective_rank (chat_id v) user ;;
        if bool_decide (user_rank ≠ RANK_USER) then answer answer_moderator
        else
          n' <- now ;;
          success <- on_votemute (add_vote n' i user c) ;;
          if negb success then answer answer_cooldown
          else
            r <- read_votemute (get_vote_results i) ;;
            update_vote_message (chat_id v) (message_id v) r ;;;
            (if bool_decide (required_votes v <= votes_yes r + votes_no r) then
               if bool_decide (votes_no r < votes_yes r)
               then finish_votemute i "success" majority_for
               else finish_votemute i "failed" majority_against
             else ret tt) ;;;
            answer (answer_counted c)
  end.

(** [votemute_timer], once its sleep is over. *)
Definition votemute_timer (i : Z) : M unit :=
  vote_data <- read_votemute (get_vote_by_id i) ;;
  match vote_data with
  | Some _ =>
      r <- read_votemute (get_vote_results i) ;;
      if bool_decide (votes_no r < votes_yes r)
      then finish_votemute i "success" expired_majority_for
      else finish_votemute i "failed" expired_majority_against
  | None => ret tt
  end.

(** One round of [TaskScheduler.cleanup_expired_votes_task]. *)
Definition cleanup_expired_votes_task : M Z :=
  n <- now ;;
  on_votemute (cleanup_expired_votes n).

(** [votemute_command], first part: the cooldown and the live-vote check.
    [true] when the command may go on. *)
Definition votemute_command_admit (chat : Z) : M bool :=
  n <- now ;;
  can_create <- read_votemute (check_cooldown n chat) ;;
  if negb can_create then reply chat text_vote_cooldown ;;; ret false
  else
    n' <- now ;;
    active_vote <- read_votemute (get_active_vote n' chat) ;;
    match active_vote with
    | Some _ => reply chat text_vote_exists ;;; ret false
    | None => ret true
    end.

(** Posting the prompt and storing its message id; [posted] is the id the
    platform gives the new message.  [false] when sending raised. *)
Definition send_votemute_message (chat i posted : Z) : M bool :=
  err <- perform me None (send_message chat (text_vote_open (Results 0 0))) ;;
  match err with
  | Some _ => ret false
  | None => write_votemute (update_vote_message_id i posted) ;;; ret true
  end.

(** [votemute_command], last part: the vote with the standard settings.
    Returns the vote whose timer was started, if any. *)
Definition votemute_command_create (chat user target posted : Z) : M (option Z) :=
  n <- now ;;
  write_votemute (set_cooldown n chat) ;;;
  n' <- now ;;
  i <- on_votemute (create_vote n' chat target user (30 * 60) 5 5 false) ;;
  sent <- send_votemute_message chat i posted ;;
  if sent then ret (Some i)
  else reply chat text_vote_create_error ;;; ret None.

(** The target named by the command, as the handler resolved it. *)
Record target_user := TargetUser { target_id : Z; is_bot : bool }.

(** [votemute_command] after the two checks: resolving and vetting the
    target, then creating the vote.  [target] is [None] when the command is
    malformed or names nobody known. *)
Definition votemute_command_proceed (chat user : Z) (target : option target_user)
    (posted : Z) : M (option Z) :=
  match target with
  | None => reply chat text_vote_refused ;;; ret None
  | Some t =>
      if bool_decide (target_id t = user) then reply chat text_vote_refused ;;; ret None
      else if is_bot t then reply chat text_vote_refused ;;; ret None
      else
        target_rank <- get_effective_rank chat (target_id t) ;;
        if bool_decide (target_rank ≠ RANK_USER)
        then reply chat text_vote_refused ;;; ret None
        else votemute_command_create chat user (target_id t) posted
  end.

(** [votemute_command] in a group chat. *)
Definition votemute_command (chat user : Z) (target : option target_user)
    (posted : Z) : M (option Z) :=
  ok <- votemute_command_admit chat ;;
  if negb ok then ret None
  else votemute_command_proceed chat user target posted.

(** The settings kept in the FSM state of the configuration panel. *)
Record settings := Settings {
  s_target_user_id : Z;
  s_mute_duration : Z;      (* minutes *)
  s_required_votes : Z;
  s_vote_duration : Z;      (* minutes *)
  s_pin_message : bool
}.

(** [create_votemute_vote] (callback [votemute_start]); [data] is [None] when
    a key is missing from the FSM state. *)
Definition create_votemute_vote (chat user : Z) (data : option settings)
    (posted : Z) : M (option Z) :=
  n <- now ;;
  write_votemute (set_cooldown n chat) ;;;
  match data with
  | None => answer text_vote_create_error ;;; ret None
  | Some s =>
      n' <- now ;;
      i <- on_votemute (create_vote n' chat (s_target_user_id s) user
                          (s_mute_duration s * 60) (s_required_votes s)
                          (s_vote_duration s) (s_pin_message s)) ;;
      sent <- send_votemute_message chat i posted ;;
      if sent then
        (if s_pin_message s
         then perform me None (pin_chat_message chat posted) ;;; ret tt
         else ret tt) ;;;
        ret (Some i)
      else answer text_vote_create_error ;;; ret None
  end.

(** [mute_command] once the caller's rights are settled: restrict, overwrite
    the active mutes of the target, record the new one.  [false] when the
    platform call raised (nothing is recorded then). *)
Fixpoint deactivate_mutes_of (target : Z) (active_mutes : list Moderation.punishment)
    : M unit :=
  match active_mutes with
  | [] => ret tt
  | mute :: more =>
      (if bool_decide (Moderation.user_id mute = target)
       then on_moderation (Moderation.deactivate_punishment (Moderation.punishment_id mute)) ;;;
            ret tt
       else ret tt) ;;;
      deactivate_mutes_of target more
  end.

Definition mute_command_apply (chat target moderator duration : Z) : M bool :=
  n <- now ;;
  let mute_until := n + seconds duration in
  err <- perform me None (restrict_chat_member chat target false (Some mute_until)) ;;
  match err with
  | Some _ => ret false
  | None =>
      active_mutes <- read_moderation (Moderation.get_active_punishments chat Moderation.mute) ;;
      deactivate_mutes_of target active_mutes ;;;
      on_moderation (Moderation.add_punishment chat target moderator Moderation.mute
                       (Some duration) (Some mute_until)) ;;;
      ret true
  end.

End Handlers.

(** Two runs of [finish_votemute] on one vote, by tasks [a] and [b], both
    suspended at [await get_vote_by_id] before either goes on. *)
Definition finish_votemute_raced (bot_id : Z) (a b : nat) (i : Z)
    (result_a result_b : string) (why_a why_b : reason) : M unit :=
  seen_a <- finish_votemute_lookup i ;;
  seen_b <- finish_votemute_lookup i ;;
  match seen_a with
  | None => ret tt
  | Some v => finish_votemute_resolve bot_id a i result_a why_a v
  end ;;;
  match seen_b with
  | None => ret tt
  | Some v => finish_votemute_resolve bot_id b i result_b why_b v
  end.

(** Two [/votemute] commands in one chat, requests [a] and [b], both past
    their checks before either creates its vote. *)
Definition votemute_command_raced (a b : nat) (chat user_a user_b : Z)
    (target_a target_b : option target_user) (posted_a posted_b : Z)
    : M (option Z * option Z) :=
  ok_a <- votemute_command_admit a chat ;;
  ok_b <- votemute_command_admit b chat ;;
  vote_a <- (if negb ok_a then ret None
             else votemute_command_proceed a chat user_a target_a posted_a) ;;
  vote_b <- (if negb ok_b then ret None
             else votemute_command_proceed b chat user_b target_b posted_b) ;;
  ret (vote_a, vote_b).

(** The calls in a trace that mute somebody. *)
Definition is_mute_call (c : call) : bool :=
  match c with
  | restrict_chat_member _ _ false _ => true
  | _ => false
  end.

Definition mute_calls (tr : list event) : list call :=
  List.filter is_mute_call (map what tr).

(** The call by which [finish_votemute] mutes the target of vote [v] when
    the clock reads [n]. *)
Definition vote_mute_call (v : active_vote) (n : Z) : call :=
  restrict_chat_member (chat_id v) (target_user_id v) false
                       (Some (n + seconds (mute_duration v))).

(** The store after the mute of vote [v] was recorded at clock reading [n]. *)
Definition vote_mute_recorded (bot_id : Z) (v : active_vote) (n : Z)
    (d : Moderation.db) : Moderation.db :=
  (Moderation.add_punishment (chat_id v) (target_user_id v) bot_id Moderation.mute
     (Some (mute_duration v)) (Some (n + seconds (mute_duration v))) d).2.

(** The active mutes visible for a (chat, subject) pair. *)
Definition active_mutes_of (chat user : Z) (d : Moderation.db) : list Moderation.punishment :=
  List.filter (fun p => bool_decide (Moderation.user_id p = user))
              (Moderation.get_active_punishments chat Moderation.mute d).

End Bot.

(** ** Measures used by the proofs about the expiry loops *)

Module Owed.

Import Moderation Scheduler.

Definition count_effect (k : side_effect) (l : list call) : nat :=
  length (List.filter (is_effect k) l).

(** The side effects of class [k] a body still owes to punishment [i]. *)
Definition owed (k : side_effect) (i : Z) (t : task) : nat :=
  if bool_decide (punishment_id (row t) = i) then
    match state t with
    | Returned true => count_effect k (script t)
    | Owned rest => count_effect k rest
    | _ => 0%nat
    end
  else 0%nat.

Definition owed_total (k : side_effect) (i : Z) (ts : list task) : nat :=
  sum_list (map (owed k i) ts).

(** One when the punishment can still be won. *)
Definition standing (i : Z) (d : db) : nat :=
  if is_active i d then 1%nat else 0%nat.

Definition potential (k : side_effect) (i : Z) (cfg : config) : nat :=
  (occurrences k i (trace cfg.2) + owed_total k i cfg.1 + standing i (moderation cfg.2))%nat.

(** Every call in the trace was issued by a body that owns its punishment. *)
Definition issued_by_owners (cfg : config) : Prop :=
  ∀ e, e ∈ trace cfg.2 →
    ∃ t rest, cfg.1 !! issuer e = Some t
              ∧ subject e = Some (punishment_id (row t))
              ∧ state t = Owned rest.

(** Punishment [p] is untouched: still in the store as it was, no body for
    it got past its expiry check, no call was made for it. *)
Definition untouched (p : punishment) (cfg : config) : Prop :=
  punishments (moderation cfg.2) !! punishment_id p = Some p
  ∧ (∀ j t, cfg.1 !! j = Some t → punishment_id (row t) = punishment_id p →
       row t = p ∧ (state t = Pending ∨ state t = Skipped))
  ∧ mentions (punishment_id p) (trace cfg.2) = false.

End Owed.

(** ** Sample data *)

Module Samples.

Import Moderation Scheduler.

(** A world with the given stores and clock in which no platform call raises
    and everybody holds the baseline rank. *)
Definition quiet_world (d : Moderation.db) (v : VoteMute.db) (clk : nat → Z) : world :=
  World d v ∅ ∅ [] [] clk 0 (fun _ => None) (fun _ _ => RANK_USER).

Definition no_votes : VoteMute.db := VoteMute.Db [] 1 ∅ ∅ [].

(** A mute that expired at 900 s and one that runs until 5000 s. *)
Definition expired_mute : punishment :=
  Punishment 1 10 7 99 mute (Some 60) (Some (seconds 900)) true.

Definition running_mute : punishment :=
  Punishment 2 10 8 99 mute (Some 3600) (Some (seconds 5000)) true.

Definition permanent_ban : punishment :=
  Punishment 3 10 9 99 ban None None true.

Definition two_mutes : Moderation.db :=
  Moderation.Db (<[1 := expired_mute]> (<[2 := running_mute]> (<[3 := permanent_ban]> ∅))) 4.

Definition at_1000s : nat → Z := fun _ => seconds 1000.

Definition scan_world : world := quiet_world two_mutes no_votes at_1000s.

(** Two bodies racing on the expired mute, one on the running mute, and a
    body of the ban loop on the permanent ban. *)
Definition racing : list task :=
  [ Task mute_expiry_task expired_mute (seconds 1000) Pending;
    Task mute_expiry_task expired_mute (seconds 1000) Pending;
    Task mute_expiry_task running_mute (seconds 1000) Pending;
    Task ban_expiry_task permanent_ban (seconds 1000) Pending ].

Definition round_robin : list nat :=
  [0; 1; 2; 3; 0; 1; 2; 3; 0; 1; 2; 3; 0; 1; 2; 3; 0; 1; 2; 3]%nat.

(** A vote in chat 10 against user 8, opened by user 50 at 800 s for five
    minutes, five ballots required; its prompt is message 77 and is pinned. *)
Definition open_vote : VoteMute.active_vote :=
  VoteMute.ActiveVote 1 10 8 50 1800 5 5 (seconds 800) (seconds 1100) true (Some 77).

Definition cast (c : VoteMute.choice) : VoteMute.ballot :=
  VoteMute.Ballot c (seconds 990) (seconds 990).

Definition four_ballots : gmap (Z * Z) VoteMute.ballot :=
  <[(1, 21) := cast VoteMute.yes]> (<[(1, 22) := cast VoteMute.yes]>
  (<[(1, 23) := cast VoteMute.no]> (<[(1, 24) := cast VoteMute.no]> ∅))).

Definition five_ballots : gmap (Z * Z) VoteMute.ballot :=
  <[(1, 25) := cast VoteMute.yes]> four_ballots.

Definition tied : VoteMute.db := VoteMute.Db [open_vote] 2 four_ballots ∅ [].

Definition carried : VoteMute.db := VoteMute.Db [open_vote] 2 five_ballots ∅ [].

Definition at_1200s : nat → Z := fun _ => seconds 1200.

(** A vote in chat 11 that needs two ballots and has one "yes". *)
Definition small_vote : VoteMute.active_vote :=
  VoteMute.ActiveVote 1 11 8 50 600 2 5 (seconds 800) (seconds 1100) false (Some 78).

Definition one_yes : VoteMute.db :=
  VoteMute.Db [small_vote] 2 (<[(1, 21) := cast VoteMute.yes]> ∅) ∅ [].

Definition no_mutes : Moderation.db := Moderation.Db ∅ 1.

(** The sample vote with two "yes" and one "no", and a clock that reads
    1099 s first and 1101 s from then on: the deadline of the vote, 1100 s,
    passes between the first reading and the second. *)
Definition three_ballots : gmap (Z * Z) VoteMute.ballot :=
  <[(1, 21) := cast VoteMute.yes]> (<[(1, 22) := cast VoteMute.yes]>
  (<[(1, 23) := cast VoteMute.no]> ∅)).

Definition undecided : VoteMute.db := VoteMute.Db [open_vote] 2 three_ballots ∅ [].

Definition crossing_1100s : nat → Z :=
  fun n => match n with O => seconds 1099 | _ => seconds 1101 end.

(** The tied sample vote next to a vote in chat 11 that runs until 1500 s
    and has one "yes". *)
Definition second_vote : VoteMute.active_vote :=
  VoteMute.ActiveVote 2 11 9 51 600 3 10 (seconds 900) (seconds 1500) false (Some 79).

Definition two_votes : VoteMute.db :=
  VoteMute.Db [open_vote; second_vote] 3
    (<[(2, 31) := cast VoteMute.yes]> four_ballots) ∅ [].

End Samples.

(** ** Well-formedness of the vote store *)

Module VoteStore.

Import VoteMute.

(** [vote_id] is the AUTOINCREMENT primary key of [active_votes]: the ids in
    the table are pairwise different and smaller than the next one handed
    out. *)
Definition well_numbered (d : db) : Prop :=
  Forall (λ v, vote_id v < next_vote_id d) (active_votes d).

Definition unique_ids (d : db) : Prop :=
  NoDup (map vote_id (active_votes d)).

(** The tally of choice [c] on vote [i], read off the ballot table alone. *)
Definition tally (c : choice) (i : Z) (m : gmap (Z * Z) ballot) : Z :=
  count_choice c (map snd (List.filter (λ kb, bool_decide (kb.1.1 = i)) (map_to_list m))).

(** One if the choices agree, zero otherwise. *)
Definition one_if (a b : choice) : Z :=
  if bool_decide (a = b) then 1 else 0.

End VoteStore.

(** ** Well-formedness of the punishment store *)

Module PunishmentStore.

Import Moderation.

(** Every id in use is below the next id handed out. *)
Definition below_next (d : db) : Prop :=
  ∀ i p, punishments d !! i = Some p → i < next_id d.

(** The row [p] after the ids in [ids] were deactivated. *)
Definition retire_in (ids : list Z) (p : punishment) : punishment :=
  if bool_decide (punishment_id p ∈ ids) then retire p else p.

(** The ids [mute_command] deactivates: those of the rows of its snapshot
    that belong to the target. *)
Definition ids_of (target : Z) (rows : list punishment) : list Z :=
  map punishment_id (List.filter (λ p, bool_decide (user_id p = target)) rows).

End PunishmentStore.

(** ** The prologue of an iteration of the mute loop *)

Module MuteLoop.

(** [mute_expiry_task] before it looks at the chats: entries of the dedup
    cache that are 60 seconds old or older are dropped. *)
Definition prune_recently_processed (current_time : Z) (recent : gmap Z Z) : gmap Z Z :=
  filter (λ kv, current_time - kv.2 < seconds 60) recent.

(** [current_time = time.time()] followed by the pruning. *)
Definition iteration_start : M Z := fun w =>
  let current_time := clock w (ticks w) in
  (current_time,
   World (moderation w) (votemute w)
         (prune_recently_processed current_time (recently_processed_mutes w))
         (vote_cache w) (inactive_chats w) (trace w) (clock w) (S (ticks w))
         (raises w) (effective_rank w)).

End MuteLoop.

(** ** The friends store ([friends_db.FriendsDatabase]) and [/addfriend] *)

Module Friends.

(** A row of [friendships]. *)
Record friendship := Friendship {
  user_id_1 : Z;
  user_id_2 : Z;
  since : Z                 (* column [created_at] *)
}.

(** A row of [friend_codes]; [user_id] is its INTEGER primary key, so the
    table is scanned in the order of the user ids. *)
Record friend_code := FriendCode {
  user_id : Z;
  code : string;
  expires_at : Z;
  created_at : Z
}.

Record db := Db {
  friend_codes : list friend_code;     (* ascending [user_id] *)
  friendships : list friendship        (* in rowid order *)
}.

(** The row goes where its key puts it. *)
Fixpoint insert_code (r : friend_code) (l : list friend_code) : list friend_code :=
  match l with
  | [] => [r]
  | x :: l' => if bool_decide (user_id r < user_id x) then r :: l else x :: insert_code r l'
  end.

(** [generate_friend_code]: expired codes go, the user's old code goes, the
    new code is valid for ten minutes.  [fresh] is the six digits drawn by
    [random.choices]; the three arguments before it are the three readings
    of the clock the function takes. *)
Definition generate_friend_code (now now' now'' : Z) (fresh : string) (user : Z) (d : db)
    : string * db :=
  let kept :=
    List.filter (λ r, negb (bool_decide (user_id r = user)))
      (List.filter (λ r, negb (bool_decide (expires_at r < now))) (friend_codes d)) in
  (fresh, Db (insert_code (FriendCode user fresh (now' + minutes 10) now'') kept)
             (friendships d)).

(** The pair is stored, in this order. *)
Definition stored (a b : Z) (f : friendship) : bool :=
  bool_decide (user_id_1 f = a) && bool_decide (user_id_2 f = b).

(** [are_friends] *)
Definition are_friends (a b : Z) (d : db) : bool :=
  existsb (λ f, stored a b f || stored b a f) (friendships d).

(** The answers of [validate_code]; the expiry dates in the table are all
    written by [isoformat], so the answer for an unreadable date is left
    out. *)
Inductive verdict :=
| code_not_found     (* "Код не найден" *)
| code_expired       (* "Код истек" *)
| code_own           (* "Нельзя добавить себя в друзья" *)
| code_already       (* "Вы уже друзья" *)
| code_valid (creator : Z).

Definition find_code (c : string) (d : db) : option friend_code :=
  List.find (λ r, bool_decide (code r = c)) (friend_codes d).

(** [validate_code] *)
Definition validate_code (now : Z) (c : string) (user : Z) (d : db) : bool * verdict :=
  match find_code c d with
  | None => (false, code_not_found)
  | Some r =>
      if bool_decide (expires_at r < now) then (false, code_expired)
      else if bool_decide (user_id r = user) then (false, code_own)
      else if are_friends (user_id r) user d then (false, code_already)
      else (true, code_valid (user_id r))
  end.

(** [add_friendship]: the pair is stored smaller id first; the UNIQUE
    constraint on the pair makes the INSERT fail, the transaction is rolled
    back and [False] returned.  On success the code of the first argument is
    deleted. *)
Definition add_friendship (now a b : Z) (d : db) : bool * db :=
  let smaller_id := Z.min a b in
  let larger_id := Z.max a b in
  if existsb (stored smaller_id larger_id) (friendships d) then (false, d)
  else (true, Db (List.filter (λ r, negb (bool_decide (user_id r = a))) (friend_codes d))
                 (friendships d ++ [Friendship smaller_id larger_id now])).

(** [remove_friendship]: [True] when a row was deleted. *)
Definition remove_friendship (a b : Z) (d : db) : bool * db :=
  (are_friends a b d,
   Db (friend_codes d)
      (List.filter (λ f, negb (stored a b f || stored b a f)) (friendships d))).

(** The rows [get_friend_count] and [get_friends] select. *)
Definition involves (u : Z) (f : friendship) : bool :=
  bool_decide (user_id_1 f = u) || bool_decide (user_id_2 f = u).

(** [get_friend_count] *)
Definition get_friend_count (u : Z) (d : db) : Z :=
  Z.of_nat (length (List.filter (involves u) (friendships d))).

(** [get_friends]: the other end of every friendship of [u], newest first;
    friendships of the same time stay in rowid order. *)
Definition friend_of (u : Z) (f : friendship) : Z * Z :=
  (if bool_decide (user_id_1 f = u) then user_id_2 f else user_id_1 f, since f).

Fixpoint insert_newest (x : Z * Z) (l : list (Z * Z)) : list (Z * Z) :=
  match l with
  | [] => [x]
  | y :: l' => if bool_decide (y.2 <= x.2) then x :: l else y :: insert_newest x l'
  end.

Definition get_friends (u : Z) (d : db) : list (Z * Z) :=
  fold_right insert_newest []
    (map (friend_of u) (List.filter (involves u) (friendships d))).

(** [cleanup_expired_codes]: the number of codes deleted. *)
Definition cleanup_expired_codes (now : Z) (d : db) : Z * db :=
  (Z.of_nat (length (List.filter (λ r, bool_decide (expires_at r < now)) (friend_codes d))),
   Db (List.filter (λ r, negb (bool_decide (expires_at r < now))) (friend_codes d))
      (friendships d)).

(** [delete_user_friends] *)
Definition delete_user_friends (u : Z) (d : db) : db :=
  Db (List.filter (λ r, negb (bool_decide (user_id r = u))) (friend_codes d))
     (List.filter (λ f, negb (involves u f)) (friendships d)).

(** What [addfriend_command] tells the user. *)
Inductive outcome :=
| refused (why : verdict)
| limit_reached          (* "Достигнут лимит друзей (5/5)" *)
| creator_missing        (* "Код не найден", after the second lookup *)
| not_added              (* "Ошибка при добавлении в друзья" *)
| added (creator : Z)
| generic_error.         (* "Произошла ошибка при обработке команды" *)

(** [await message.answer(...)] inside the [try] of the handler: when it
    raises, the [except] at the end answers the generic error. *)
Definition answer_in_try (fails : outcome → bool) (o : outcome) (d : db) : outcome * db :=
  if fails o then (generic_error, d) else (o, d).

(** [addfriend_command] in a private chat with one argument: validate the
    code, check the friend limit of the sender, look the creator up again
    ([if not creator_id] also turns the id 0 away), add the friendship.  The
    two clock readings are those of [validate_code] and of
    [add_friendship].  [fails] tells for which answers [message.answer]
    raises, [get_user_fails] whether [db.get_user] (module [database], not
    under src/) raises: both are inside the [try], after the friendship was
    stored, and end in the generic answer of the [except].  The notice to
    the creator has a [try] of its own.  The result is the answer the
    handler sends last (or tries to) and the tables it leaves. *)
Definition addfriend_command (fails : outcome → bool) (get_user_fails : bool)
    (now now' : Z) (c : string) (user : Z) (d : db) : outcome * db :=
  let (is_valid, message_text) := validate_code now c user d in
  if negb is_valid then answer_in_try fails (refused message_text) d
  else if bool_decide (5 <= get_friend_count user d) then answer_in_try fails limit_reached d
  else
    match find_code c d with
    | None => answer_in_try fails creator_missing d
    | Some r =>
        if bool_decide (user_id r = 0) then answer_in_try fails creator_missing d
        else
          let (success, d') := add_friendship now' (user_id r) user d in
          if success then
            if get_user_fails then (generic_error, d')
            else answer_in_try fails (added (user_id r)) d'
          else answer_in_try fails not_added d
    end.

(** The pairs are stored smaller id first, as [add_friendship] writes them. *)
Definition ordered (d : db) : Prop :=
  ∀ f, f ∈ friendships d → user_id_1 f <= user_id_2 f.

End Friends.

(** ** Durations as the bot prints them ([bot.format_mute_duration]) *)

Module Durations.

Inductive unit_of_time := seconds_unit | minutes_unit | hours_unit | days_unit.

(** A printed duration: the numbers with their unit letters, in order. *)
Definition printed := list (Z * unit_of_time).

Definition format_mute_duration (duration_seconds : Z) : printed :=
  if bool_decide (duration_seconds < 60) then [(duration_seconds, seconds_unit)]
  else if bool_decide (duration_seconds < 3600) then
    let minutes := duration_seconds / 60 in
    let seconds := duration_seconds mod 60 in
    if bool_decide (0 < seconds) then [(minutes, minutes_unit); (seconds, seconds_unit)]
    else [(minutes, minutes_unit)]
  else if bool_decide (duration_seconds < 86400) then
    let hours := duration_seconds / 3600 in
    let minutes := (duration_seconds mod 3600) / 60 in
    if bool_decide (0 < minutes) then [(hours, hours_unit); (minutes, minutes_unit)]
    else [(hours, hours_unit)]
  else
    let days := duration_seconds / 86400 in
    let hours := (duration_seconds mod 86400) / 3600 in
    if bool_decide (0 < hours) then [(days, days_unit); (hours, hours_unit)]
    else [(days, days_unit)].

Definition seconds_in (u : unit_of_time) : Z :=
  match u with
  | seconds_unit => 1
  | minutes_unit => 60
  | hours_unit => 3600
  | days_unit => 86400
  end.

(** The number of seconds a printed duration stands for. *)
Definition stands_for (p : printed) : Z :=
  fold_right (λ x acc, x.1 * seconds_in x.2 + acc) 0 p.

End Durations.

(** * Properties *)

Section ExpiryLoops.

Import Moderation Scheduler Owed.

Ltac run_m :=
  unfold bind, ret, now, on_moderation, recently_processed, set_recently_processed,
         deactivate_chat, perform in *; simpl in *.

Lemma occurrences_snoc k i tr e :
  occurrences k i (tr ++ [e]) = (occurrences k i tr + (if about k i e then 1 else 0))%nat.
Proof.
  unfold occurrences. rewrite List.filter_app, length_app. simpl.
  destruct (about k i e); reflexivity.
Qed.

Lemma count_effect_script k t : (count_effect k (script t) ≤ 1)%nat.
Proof.
  unfold script. destruct (of_loop t), k; cbv; lia.
Qed.

Lemma owed_total_insert k i (ts : list task) j t t' :
  ts !! j = Some t →
  (owed_total k i (<[j := t']> ts) + owed k i t = owed_total k i ts + owed k i t')%nat.
Proof.
  unfold owed_total. revert j. induction ts as [|a ts IH]; intros [|j] H; simpl in *; try done.
  - injection H as ->. lia.
  - specialize (IH j H). lia.
Qed.

Lemma standing_deactivate i j d :
  let (b, d') := deactivate_punishment j d in
  (standing i d' + (if b then if bool_decide (j = i) then 1 else 0 else 0) = standing i d)%nat.
Proof.
  unfold deactivate_punishment, standing, is_active.
  destruct (punishments d !! j) as [p|] eqn:Hj; [destruct (active p) eqn:Ha|]; simpl.
  - case_bool_decide as Hij.
    + subst. rewrite lookup_insert_eq, Hj, Ha. reflexivity.
    + rewrite lookup_insert_ne by done. lia.
  - lia.
  - lia.
Qed.

Lemma step_task_potential k i j t w :
  let (s, w') := step_task j t w in
  (occurrences k i (trace w') + owed k i (with_state s t) + standing i (moderation w')
   ≤ occurrences k i (trace w) + owed k i t + standing i (moderation w))%nat.
Proof.
  unfold step_task.
  destruct (state t) as [| |b| |[|c rest]] eqn:Hs.
  - (* Pending *)
    assert (Hdeact : ∀ w0 : world,
      let (b, d') := deactivate_punishment (punishment_id (row t)) (moderation w0) in
      (owed k i (with_state (Returned b) t) + standing i d' ≤ standing i (moderation w0))%nat).
    { intros w0. pose proof (standing_deactivate i (punishment_id (row t)) (moderation w0)) as H.
      destruct (deactivate_punishment _ _) as [b d']. unfold owed. simpl.
      change (script (with_state (Returned b) t)) with (script t).
      pose proof (count_effect_script k t).
      destruct b; case_bool_decide; lia. }
    assert (owed k i t = 0%nat) as Ht by (unfold owed; rewrite Hs; case_bool_decide; done).
    assert (∀ s, s = Skipped → owed k i (with_state s t) = 0%nat) as Hsk
      by (intros s ->; unfold owed; simpl; case_bool_decide; done).
    destruct (of_loop t); unfold mute_check, ban_check; run_m.
    + destruct (processed_recently t _); [rewrite Hsk by done; lia|].
      destruct (expiry_date (row t)); [|rewrite Hsk by done; simpl; lia].
      repeat case_bool_decide; try (rewrite Hsk by done; simpl; lia).
      match goal with |- context [deactivate_punishment ?a (moderation ?w0)] =>
        specialize (Hdeact w0) end. simpl in Hdeact.
      destruct (deactivate_punishment _ _); simpl. lia.
    + destruct (expiry_date (row t)); [|rewrite Hsk by done; simpl; lia].
      repeat case_bool_decide; try (rewrite Hsk by done; simpl; lia).
      match goal with |- context [deactivate_punishment ?a (moderation ?w0)] =>
        specialize (Hdeact w0) end. simpl in Hdeact.
      destruct (deactivate_punishment _ _); simpl. lia.
  - simpl. unfold owed. simpl. rewrite Hs. lia.
  - unfold returned, owed. rewrite Hs.
    destruct (of_loop t) eqn:Hl; run_m; unfold script; rewrite Hl;
      destruct b; simpl; case_bool_decide; simpl; lia.
  - simpl. unfold owed. simpl. rewrite Hs. lia.
  - simpl. unfold owed. simpl. rewrite Hs. lia.
  - (* Owned (c :: rest) *)
    assert (∀ rest', (count_effect k rest' ≤ count_effect k rest)%nat →
      (occurrences k i (trace w ++ [Event j (subject_of t) c])
       + owed k i (with_state (Owned rest') t)
       ≤ occurrences k i (trace w) + owed k i t)%nat) as Hgo.
    { intros rest' Hle. rewrite occurrences_snoc. unfold owed, about, subject_of. simpl.
      rewrite Hs. unfold count_effect in *. simpl.
      case_bool_decide as H1; case_bool_decide as H2; simpl; try congruence;
        destruct (is_effect k c); simpl; lia. }
    assert (count_effect k [] ≤ count_effect k rest)%nat as H0 by (unfold count_effect; simpl; lia).
    unfold owned_step. run_m.
    destruct c; try destruct t0; try destruct (raises w _) as [[]|]; simpl;
      first [ specialize (Hgo rest ltac:(lia)); lia | specialize (Hgo [] H0); lia ].
Qed.

Lemma step_potential k i cfg j : (potential k i (step cfg j) ≤ potential k i cfg)%nat.
Proof.
  unfold step, potential. destruct cfg as [ts w]; simpl.
  destruct (ts !! j) as [t|] eqn:Hj; [|done].
  pose proof (step_task_potential k i j t w) as H.
  destruct (step_task j t w) as [s w']. simpl.
  pose proof (owed_total_insert k i ts j t (with_state s t) Hj). lia.
Qed.

Lemma run_potential k i schedule cfg :
  (potential k i (run schedule cfg) ≤ potential k i cfg)%nat.
Proof.
  revert cfg. induction schedule as [|j schedule IH]; intros cfg; simpl; [done|].
  etrans; [apply IH | apply step_potential].
Qed.

Lemma owed_total_pending k i (ts : list task) :
  Forall (λ t, state t = Pending) ts → owed_total k i ts = 0%nat.
Proof.
  unfold owed_total. induction 1 as [|t ts Ht _ IH]; simpl; [done|].
  rewrite IH. unfold owed. rewrite Ht. case_bool_decide; done.
Qed.

(** A step either leaves the trace alone or appends one call of a body that
    owns its punishment; an owner stays an owner. *)
Lemma step_task_trace j t w :
  let (s, w') := step_task j t w in
  (trace w' = trace w
   ∨ ∃ c rest', s = Owned rest' ∧ trace w' = trace w ++ [Event j (subject_of t) c])
  ∧ (∀ rest, state t = Owned rest → ∃ rest', s = Owned rest').
Proof.
  unfold step_task.
  destruct (state t) as [| |b| |[|c rest]] eqn:Hs; simpl;
    try (split; [by left | intros ? [=]; eauto]).
  - destruct (of_loop t); unfold mute_check, ban_check; run_m.
    + destruct (processed_recently t _); [split; [by left | intros ? [=]]|].
      destruct (expiry_date (row t)); [|split; [by left | intros ? [=]]].
      repeat case_bool_decide; try (split; [by left | intros ? [=]]).
      destruct (deactivate_punishment _ _); simpl. split; [by left | intros ? [=]].
    + destruct (expiry_date (row t)); [|split; [by left | intros ? [=]]].
      repeat case_bool_decide; try (split; [by left | intros ? [=]]).
      destruct (deactivate_punishment _ _); simpl. split; [by left | intros ? [=]].
  - unfold returned. destruct (of_loop t); run_m; (split; [by left | intros ? [=]]).
  - unfold owned_step. run_m.
    destruct c; try destruct t0; try destruct (raises w _) as [[]|]; simpl;
      (split; [right; eauto | eauto]).
Qed.

Lemma step_issued_by_owners cfg j : issued_by_owners cfg → issued_by_owners (step cfg j).
Proof.
  unfold step, issued_by_owners. destruct cfg as [ts w]; simpl. intros Inv.
  destruct (ts !! j) as [t|] eqn:Hj; [|done].
  pose proof (step_task_trace j t w) as H.
  destruct (step_task j t w) as [s w']. simpl. destruct H as [Htr Hstay].
  assert (Hold : ∀ e, e ∈ trace w →
    ∃ t0 rest, <[j := with_state s t]> ts !! issuer e = Some t0
               ∧ subject e = Some (punishment_id (row t0)) ∧ state t0 = Owned rest).
  { intros e He. destruct (Inv e He) as (t0 & rest & Hl & Hsub & Hst).
    destruct (decide (issuer e = j)) as [Heq|Hne].
    - rewrite Heq in Hl |- *. rewrite Hj in Hl. injection Hl as <-.
      destruct (Hstay _ Hst) as [rest' ->].
      exists (with_state (Owned rest') t), rest'.
      rewrite list_lookup_insert_eq by (by eapply lookup_lt_Some). done.
    - exists t0, rest. rewrite list_lookup_insert_ne by done. done. }
  destruct Htr as [Htr|(c & rest' & -> & Htr)]; rewrite Htr; [exact Hold|].
  intros e He. apply elem_of_app in He as [He|He]; [by apply Hold|].
  apply list_elem_of_singleton in He as ->. simpl.
  exists (with_state (Owned rest') t), rest'.
  rewrite list_lookup_insert_eq by (by eapply lookup_lt_Some). done.
Qed.

Lemma run_issued_by_owners schedule cfg :
  issued_by_owners cfg → issued_by_owners (run schedule cfg).
Proof.
  revert cfg. induction schedule as [|j schedule IH]; intros cfg H; simpl; [done|].
  apply IH, step_issued_by_owners, H.
Qed.

(** C1.  Take any number of loop bodies about to examine their rows (several
    may hold the same expired punishment) and let them interleave in any
    order at their suspension points.  Then, for every punishment, each
    reversal side effect (the unmute/unban call, the notice in the chat, the
    private notice) is attempted at most once in total; every call in the
    trace was issued by a body whose [deactivate_punishment] returned true;
    and a body that got false issued no call at all. *)
Theorem at_most_once_reversal (ts : list task) (w : world) (schedule : list nat) :
  Forall (λ t, state t = Pending) ts →
  trace w = [] →
  (∀ k i, (occurrences k i (trace (run schedule (ts, w)).2) ≤ 1)%nat)
  ∧ (∀ e, e ∈ trace (run schedule (ts, w)).2 →
       ∃ t, (run schedule (ts, w)).1 !! issuer e = Some t
            ∧ subject e = Some (punishment_id (row t))
            ∧ deactivated_of (state t) = Some true)
  ∧ (∀ j t, (run schedule (ts, w)).1 !! j = Some t →
       deactivated_of (state t) = Some false →
       ∀ e, e ∈ trace (run schedule (ts, w)).2 → issuer e ≠ j).
Proof.
  intros Hpending Hempty.
  assert (Hown : issued_by_owners (run schedule (ts, w))).
  { apply run_issued_by_owners. intros e He. simpl in He. rewrite Hempty in He.
    by apply elem_of_nil in He. }
  split; [|split].
  - intros k i. pose proof (run_potential k i schedule (ts, w)) as H.
    unfold potential in H. simpl in H.
    rewrite Hempty in H. rewrite (owed_total_pending k i ts Hpending) in H.
    change (occurrences k i []) with 0%nat in H.
    assert (standing i (moderation w) ≤ 1)%nat
      by (unfold standing; destruct (is_active i (moderation w)); lia).
    lia.
  - intros e He. destruct (Hown e He) as (t & rest & Hl & Hsub & Hst).
    exists t. rewrite Hst. done.
  - intros j t Hl Hfalse e He Heq.
    destruct (Hown e He) as (t' & rest & Hl' & _ & Hst).
    rewrite Heq, Hl in Hl'. injection Hl' as <-. rewrite Hst in Hfalse. done.
Qed.

(** What one step may do to the store and to the clock: only the row of the
    body's own punishment can change. *)
Lemma step_task_store j t w :
  let (s, w') := step_task j t w in
  clock w' = clock w
  ∧ ∀ i, i ≠ punishment_id (row t) →
      punishments (moderation w') !! i = punishments (moderation w) !! i.
Proof.
  assert (Hdeact : ∀ d i, i ≠ punishment_id (row t) →
    punishments (deactivate_punishment (punishment_id (row t)) d).2 !! i = punishments d !! i).
  { intros d i Hi. unfold deactivate_punishment.
    destruct (punishments d !! _) as [p|]; [destruct (active p)|]; simpl; try done.
    by rewrite lookup_insert_ne. }
  unfold step_task.
  destruct (state t) as [| |b| |[|c rest]] eqn:Hs; simpl; try done.
  - destruct (of_loop t); unfold mute_check, ban_check; run_m.
    + destruct (processed_recently t _); [done|].
      destruct (expiry_date (row t)); [|done].
      repeat case_bool_decide; try done.
      match goal with |- context [deactivate_punishment ?a ?d] =>
        specialize (Hdeact d); destruct (deactivate_punishment a d) end. done.
    + destruct (expiry_date (row t)); [|done].
      repeat case_bool_decide; try done.
      match goal with |- context [deactivate_punishment ?a ?d] =>
        specialize (Hdeact d); destruct (deactivate_punishment a d) end. done.
  - unfold returned. destruct (of_loop t); run_m; done.
  - unfold owned_step. run_m.
    destruct c; try destruct t0; try destruct (raises w _) as [[]|]; simpl; done.
Qed.

(** A body about to check a row that has no expiry, or whose expiry is later
    than the clock reading it takes, skips it. *)
Lemma step_task_not_due j t w :
  state t = Pending ∨ state t = Skipped →
  (expiry_date (row t) = None
   ∨ ∃ e, expiry_date (row t) = Some e ∧ clock w (ticks w) < e) →
  let (s, w') := step_task j t w in
  (s = Pending ∨ s = Skipped) ∧ moderation w' = moderation w ∧ trace w' = trace w.
Proof.
  intros [Hs|Hs] Hexp; unfold step_task; rewrite Hs; simpl; [|auto].
  destruct (of_loop t); unfold mute_check, ban_check; run_m.
  - destruct (processed_recently t _); [auto|].
    destruct Hexp as [->|(e & -> & He)]; [auto|]. simpl.
    repeat case_bool_decide; try lia; auto.
  - destruct Hexp as [->|(e & -> & He)]; [auto|]. simpl.
    repeat case_bool_decide; try lia; auto.
Qed.

Lemma mentions_snoc i tr e :
  mentions i (tr ++ [e]) = mentions i tr || bool_decide (subject e = Some i).
Proof. unfold mentions. rewrite existsb_app. simpl. by rewrite orb_false_r. Qed.

Lemma step_untouched (p : punishment) (clk : nat → Z) cfg j :
  (expiry_date p = None ∨ ∃ e, expiry_date p = Some e ∧ ∀ n, clk n < e) →
  untouched p cfg ∧ clock cfg.2 = clk →
  untouched p (step cfg j) ∧ clock (step cfg j).2 = clk.
Proof.
  intros Hexp [(Hstore & Htasks & Htrace) Hclk].
  unfold step, untouched. destruct cfg as [ts w]; simpl in *.
  destruct (ts !! j) as [t|] eqn:Hj; [|done].
  destruct (decide (punishment_id (row t) = punishment_id p)) as [Hid|Hid].
  - destruct (Htasks j t Hj Hid) as [Hrow Hst].
    pose proof (step_task_not_due j t w Hst) as H.
    pose proof (step_task_store j t w) as Hc.
    destruct (step_task j t w) as [s w']. simpl.
    destruct Hc as [Hc _].
    destruct H as (Hs & -> & ->).
    { rewrite Hrow. destruct Hexp as [?|(e & ? & He)]; [by left|].
      right. exists e. split; [done|]. rewrite Hclk. apply He. }
    split; [|congruence]. split; [done|]. split; [|done].
    intros j' t' Hl Hid'.
    destruct (decide (j' = j)) as [->|Hne].
    + rewrite list_lookup_insert_eq in Hl by (by eapply lookup_lt_Some).
      injection Hl as <-. simpl. done.
    + rewrite list_lookup_insert_ne in Hl by done. eauto.
  - pose proof (step_task_store j t w) as Hc.
    pose proof (step_task_trace j t w) as Htr.
    destruct (step_task j t w) as [s w']. simpl.
    destruct Hc as [Hc Hkeep]. destruct Htr as [Htr _].
    split; [|congruence]. split; [|split].
    + rewrite Hkeep by done. done.
    + intros j' t' Hl Hid'.
      destruct (decide (j' = j)) as [->|Hne].
      * rewrite list_lookup_insert_eq in Hl by (by eapply lookup_lt_Some).
        injection Hl as <-. simpl in Hid'. done.
      * rewrite list_lookup_insert_ne in Hl by done. eauto.
    + destruct Htr as [->|(c & rest' & _ & ->)]; [done|].
      rewrite mentions_snoc, Htrace. simpl. unfold subject_of.
      case_bool_decide as Heq; [|done]. injection Heq as Heq. done.
Qed.

(** The bodies started by a pass over a chat meet the premise of the next
    theorem: they are about to check rows that are the store's own. *)
Lemma process_chat_rows l administers chat started (d : db) :
  keyed d →
  Forall (λ t, state t = Pending ∧ punishments d !! punishment_id (row t) = Some (row t))
         (process_chat l administers chat started d).
Proof.
  intros Hkeyed.
  assert (H : Forall (λ t, state t = Pending
                          ∧ punishments d !! punishment_id (row t) = Some (row t))
                (map (λ p, Task l p started Pending)
                     (get_active_punishments chat (kind_of l) d))).
  { apply Forall_forall. intros t Ht.
    apply list_elem_of_In, in_map_iff in Ht as (p & <- & Hp).
    simpl. split; [done|].
    unfold get_active_punishments in Hp. apply filter_In in Hp as [Hp _].
    apply in_map_iff in Hp as ([i q] & Hq & Hin). simpl in Hq. subst q.
    apply list_elem_of_In, elem_of_map_to_list in Hin.
    by rewrite (Hkeyed i p Hin). }
  unfold process_chat. destruct l, administers; try exact H. constructor.
Qed.

(** C3.  A punishment that is active in the store and has no expiry date, or
    an expiry date later than every reading of the clock, stays exactly as it
    is under any interleaving of loop bodies started from the store's rows:
    after every step it is still active, and no call was made for it. *)
Theorem no_premature_reversal (ts : list task) (w : world) (schedule : list nat)
    (p : punishment) :
  punishments (moderation w) !! punishment_id p = Some p →
  active p = true →
  (expiry_date p = None ∨ ∃ e, expiry_date p = Some e ∧ ∀ n, clock w n < e) →
  Forall (λ t, state t = Pending
               ∧ punishments (moderation w) !! punishment_id (row t) = Some (row t)) ts →
  mentions (punishment_id p) (trace w) = false →
  punishments (moderation (run schedule (ts, w)).2) !! punishment_id p = Some p
  ∧ is_active (punishment_id p) (moderation (run schedule (ts, w)).2) = true
  ∧ mentions (punishment_id p) (trace (run schedule (ts, w)).2) = false.
Proof.
  intros Hstore Hactive Hexp Hts Htrace.
  assert (Hinv : untouched p (run schedule (ts, w)) ∧ clock (run schedule (ts, w)).2 = clock w).
  { assert (H0 : untouched p (ts, w) ∧ clock (ts, w).2 = clock w).
    { split; [|done]. split; [done|]. split; [|done].
      intros j t Hl Hid. rewrite Forall_lookup in Hts.
      destruct (Hts j t Hl) as [Hst Hrow]. split; [|by left].
      rewrite Hid, Hstore in Hrow. congruence. }
    revert H0. generalize (ts, w). induction schedule as [|j schedule IH]; intros cfg H0;
      simpl; [done|].
    apply IH. by apply step_untouched. }
  destruct Hinv as [(H1 & _ & H3) _].
  split; [done|]. split; [|done].
  unfold is_active. rewrite H1. done.
Qed.

(** The sample race: the expired mute is lifted exactly once, by the body
    that ran first, and is inactive afterwards. *)
Example racing_reverses_once :
  occurrences reversal 1 (trace (run Samples.round_robin (Samples.racing, Samples.scan_world)).2) = 1%nat
  ∧ occurrences chat_notice 1 (trace (run Samples.round_robin (Samples.racing, Samples.scan_world)).2) = 1%nat
  ∧ map state (run Samples.round_robin (Samples.racing, Samples.scan_world)).1
    = [Owned []; Lost; Skipped; Skipped]
  ∧ is_active 1 (moderation (run Samples.round_robin (Samples.racing, Samples.scan_world)).2) = false.
Proof. vm_compute. done. Qed.

(** The theorem at the sample race. *)
Lemma at_most_once_reversal_witness :
  Forall (λ t, state t = Pending) Samples.racing
  ∧ trace Samples.scan_world = []
  ∧ (∀ k i, (occurrences k i
               (trace (run Samples.round_robin (Samples.racing, Samples.scan_world)).2) ≤ 1)%nat).
Proof.
  split; [repeat constructor|]. split; [reflexivity|].
  apply (at_most_once_reversal Samples.racing Samples.scan_world Samples.round_robin);
    [repeat constructor | reflexivity].
Defined.

(** The running mute of the sample store survives the sample race. *)
Lemma no_premature_reversal_witness :
  is_active 2 (moderation (run Samples.round_robin (Samples.racing, Samples.scan_world)).2) = true
  ∧ mentions 2 (trace (run Samples.round_robin (Samples.racing, Samples.scan_world)).2) = false.
Proof.
  apply (no_premature_reversal Samples.racing Samples.scan_world Samples.round_robin
           Samples.running_mute).
  - reflexivity.
  - reflexivity.
  - right. exists (seconds 5000). split; [reflexivity|]. intros n. vm_compute. reflexivity.
  - repeat constructor.
  - reflexivity.
Defined.

End ExpiryLoops.

Section Votes.

Import VoteMute Bot.

Ltac run_v :=
  unfold bind, ret, now, on_moderation, on_votemute, read_votemute, read_moderation,
         write_votemute, cached_results, set_cached_results, perform,
         get_effective_rank in *; simpl in *.

(** C8.  A voter with a ballot on record who votes again less than 30 seconds
    after [last_change_at] gets [False] and the store is left as it was (so
    the ballot and the tally are those of the earlier choice); at 30 seconds
    or later the call returns [True] and the ballot carries the new choice
    and the new [last_change_at]. *)
Theorem ballot_cooldown (d : db) (now i user : Z) (c : choice) (b : ballot) :
  vote_results d !! (i, user) = Some b →
  (now - last_change_at b < seconds 30 →
     (add_vote now i user c d).1 = false
     ∧ (add_vote now i user c d).2 = d
     ∧ vote_results (add_vote now i user c d).2 !! (i, user) = Some b
     ∧ get_vote_results i (add_vote now i user c d).2 = get_vote_results i d)
  ∧ (seconds 30 <= now - last_change_at b →
     (add_vote now i user c d).1 = true
     ∧ vote_results (add_vote now i user c d).2 !! (i, user) = Some (Ballot c now now)).
Proof.
  intros Hb. unfold add_vote. rewrite Hb. split; intros Hn.
  - rewrite bool_decide_eq_true_2 by done. simpl. done.
  - rewrite bool_decide_eq_false_2 by lia. simpl. split; [done|].
    apply lookup_insert_eq.
Qed.

(** User 21 voted at 990 s: a change at 1000 s is refused, one at 1020 s is
    taken. *)
Lemma ballot_cooldown_witness :
  (add_vote (seconds 1000) 1 21 no Samples.tied).1 = false
  ∧ (add_vote (seconds 1000) 1 21 no Samples.tied).2 = Samples.tied
  ∧ (add_vote (seconds 1020) 1 21 no Samples.tied).1 = true.
Proof.
  pose proof (ballot_cooldown Samples.tied (seconds 1000) 1 21 no (Samples.cast yes) eq_refl)
    as [Hearly _].
  pose proof (ballot_cooldown Samples.tied (seconds 1020) 1 21 no (Samples.cast yes) eq_refl)
    as [_ Hlate].
  split; [apply Hearly; vm_compute; reflexivity|].
  split; [apply Hearly; vm_compute; reflexivity|].
  apply Hlate. vm_compute. discriminate.
Defined.

(** C9.  A ballot sent by the creator of the vote, by its target, or by a
    member whose effective rank is not the baseline rank is answered and
    dropped: the vote store (ballots and tally included) and the punishment
    store are left as they were. *)
Theorem ineligible_voter_rejected (me : nat) (bot_id : Z) (w : world) (user : Z) (c : choice)
    (i : Z) (v : active_vote) :
  get_vote_by_id i (votemute w) = Some v →
  user = creator_id v ∨ user = target_user_id v
    ∨ effective_rank w (chat_id v) user ≠ RANK_USER →
  votemute (vote_callback_handler bot_id me user c i w).2 = votemute w
  ∧ get_vote_results i (votemute (vote_callback_handler bot_id me user c i w).2)
    = get_vote_results i (votemute w)
  ∧ moderation (vote_callback_handler bot_id me user c i w).2 = moderation w.
Proof.
  intros Hv Hwho.
  assert (votemute (vote_callback_handler bot_id me user c i w).2 = votemute w
          ∧ moderation (vote_callback_handler bot_id me user c i w).2 = moderation w)
    as [H1 H2]; [|by rewrite H1].
  unfold vote_callback_handler, answer. run_v.
  destruct (votemute w) as [av nx vr vc vh] eqn:Hd. simpl in *. rewrite Hv. simpl.
  case_bool_decide; [done|].
  case_bool_decide; [done|].
  case_bool_decide; [done|].
  case_bool_decide; [done|].
  destruct Hwho as [?|[?|?]]; done.
Qed.

(** User 50 opened the sample vote and cannot vote on it. *)
Lemma ineligible_voter_rejected_witness :
  votemute (vote_callback_handler 0 0 50 yes 1
              (Samples.quiet_world Samples.two_mutes Samples.tied Samples.at_1000s)).2
  = Samples.tied.
Proof.
  apply (ineligible_voter_rejected 0%nat 0
           (Samples.quiet_world Samples.two_mutes Samples.tied Samples.at_1000s)
           50 yes 1 Samples.open_vote).
  - reflexivity.
  - left. reflexivity.
Defined.

(** C10, as the code has it.  When the deadline of the vote is not later
    than the clock reading the handler takes for its expiry check, right
    after loading the vote, the ballot is answered with "the vote is
    finished" and nothing else happens: no call to [add_vote], the vote
    store and its tally are unchanged, although the expired vote is still in
    [active_votes]. *)
Theorem expired_vote_rejects_ballot (me : nat) (bot_id : Z) (w : world) (user : Z)
    (c : choice) (i : Z) (v : active_vote) :
  get_vote_by_id i (votemute w) = Some v →
  expires_at v <= clock w (ticks w) →
  votemute (vote_callback_handler bot_id me user c i w).2 = votemute w
  ∧ get_vote_by_id i (votemute (vote_callback_handler bot_id me user c i w).2) = Some v
  ∧ moderation (vote_callback_handler bot_id me user c i w).2 = moderation w
  ∧ trace (vote_callback_handler bot_id me user c i w).2
    = trace w ++ [Event me None (answer_callback answer_finished)].
Proof.
  intros Hv Hexp.
  assert (votemute (vote_callback_handler bot_id me user c i w).2 = votemute w
          ∧ moderation (vote_callback_handler bot_id me user c i w).2 = moderation w
          ∧ trace (vote_callback_handler bot_id me user c i w).2
            = trace w ++ [Event me None (answer_callback answer_finished)])
    as (H1 & H2 & H3); [|by rewrite H1].
  unfold vote_callback_handler, answer. run_v.
  destruct (votemute w) as [av nx vr vc vh] eqn:Hd. simpl in *. rewrite Hv. simpl.
  rewrite bool_decide_eq_true_2 by done. done.
Qed.

(** The sample vote ended at 1100 s; a ballot at 1200 s is dropped. *)
Lemma expired_vote_rejects_ballot_witness :
  votemute (vote_callback_handler 0 0 25 yes 1
              (Samples.quiet_world Samples.two_mutes Samples.tied Samples.at_1200s)).2
  = Samples.tied.
Proof.
  apply (expired_vote_rejects_ballot 0%nat 0
           (Samples.quiet_world Samples.two_mutes Samples.tied Samples.at_1200s)
           25 yes 1 Samples.open_vote).
  - reflexivity.
  - vm_compute. discriminate.
Defined.

(** C10, as stated, fails: the check is made once.  The sample vote ends at
    1100 s and stands 2 to 1.  The handler reads 1099 s for its check; by
    the time [add_vote] reads the clock, after the rank was looked up, it is
    1101 s.  The ballot of user 25 is recorded with that time, after the
    deadline, and the tally becomes 2 to 2. *)
Lemma late_ballot_accepted :
  get_vote_by_id 1 Samples.undecided = Some Samples.open_vote
  ∧ expires_at Samples.open_vote = seconds 1100
  ∧ get_vote_results 1 Samples.undecided = Results 2 1
  ∧ vote_results
      (votemute (vote_callback_handler 0 0 25 no 1
                   (Samples.quiet_world Samples.two_mutes Samples.undecided
                      Samples.crossing_1100s)).2) !! (1, 25)
    = Some (Ballot no (seconds 1101) (seconds 1101))
  ∧ get_vote_results 1
      (votemute (vote_callback_handler 0 0 25 no 1
                   (Samples.quiet_world Samples.two_mutes Samples.undecided
                      Samples.crossing_1100s)).2)
    = Results 2 2
  ∧ last (trace (vote_callback_handler 0 0 25 no 1
                   (Samples.quiet_world Samples.two_mutes Samples.undecided
                      Samples.crossing_1100s)).2)
    = Some (Event 0 None (answer_callback (answer_counted no))).
Proof.
  split; [reflexivity|]. split; [reflexivity|].
  split; [vm_compute; reflexivity|]. split; [vm_compute; reflexivity|].
  split; vm_compute; reflexivity.
Qed.

(** On the same clock a fifth ballot, recorded after the deadline, carries
    the tied sample vote 3 to 2: the vote is resolved by the threshold and
    the target is muted. *)
Example late_ballot_resolves :
  map (λ h, (h_result h, h_finished_at h, h_votes_yes h, h_votes_no h))
    (vote_history
       (votemute (vote_callback_handler 0 0 25 yes 1
                    (Samples.quiet_world Samples.two_mutes Samples.tied
                       Samples.crossing_1100s)).2))
  = [("success", seconds 1101, 3, 2)]
  ∧ mute_calls (trace (vote_callback_handler 0 0 25 yes 1
                         (Samples.quiet_world Samples.two_mutes Samples.tied
                            Samples.crossing_1100s)).2)
    = [restrict_chat_member 10 8 false (Some (seconds 1101 + seconds 1800))].
Proof. split; vm_compute; reflexivity. Qed.

Lemma mute_calls_snoc tr e :
  mute_calls (tr ++ [e]) = mute_calls tr ++ (if is_mute_call (what e) then [what e] else []).
Proof.
  unfold mute_calls. rewrite map_app, List.filter_app. simpl.
  destruct (is_mute_call (what e)); reflexivity.
Qed.

Lemma get_vote_by_id_add_vote n i user c d j :
  get_vote_by_id j (add_vote n i user c d).2 = get_vote_by_id j d.
Proof.
  unfold add_vote.
  destruct (vote_results d !! (i, user)); [case_bool_decide|]; reflexivity.
Qed.

Lemma find_filter_out {A} (f : A → bool) (l : list A) :
  List.find f (List.filter (λ x, negb (f x)) l) = None.
Proof.
  induction l as [|a l IH]; simpl; [done|].
  destruct (f a) eqn:Hf; simpl; [done|]. by rewrite Hf.
Qed.

Lemma get_vote_by_id_delete i d : get_vote_by_id i (delete_vote i d) = None.
Proof.
  unfold get_vote_by_id, delete_vote. simpl.
  apply (find_filter_out (λ v, bool_decide (vote_id v = i))).
Qed.

(** What [finish_votemute] does to a vote that is still in [active_votes]. *)
Lemma finish_votemute_live (me : nat) (bot_id : Z) i result why w v :
  get_vote_by_id i (votemute w) = Some v →
  get_vote_by_id i (votemute (finish_votemute bot_id me i result why w).2) = None
  ∧ vote_history (votemute (finish_votemute bot_id me i result why w).2)
    = vote_history (votemute w)
      ++ [to_history i v (clock w (ticks w)) result why (get_vote_results i (votemute w))]
  ∧ if bool_decide (result = "success") then
      mute_calls (trace (finish_votemute bot_id me i result why w).2)
      = mute_calls (trace w) ++ [vote_mute_call v (clock w (S (ticks w)))]
      ∧ (raises w (vote_mute_call v (clock w (S (ticks w)))) = None →
         moderation (finish_votemute bot_id me i result why w).2
         = vote_mute_recorded bot_id v (clock w (S (ticks w))) (moderation w))
    else
      mute_calls (trace (finish_votemute bot_id me i result why w).2) = mute_calls (trace w)
      ∧ moderation (finish_votemute bot_id me i result why w).2 = moderation w.
Proof.
  intros Hv.
  unfold finish_votemute, finish_votemute_lookup, finish_votemute_resolve, apply_mute,
    vote_mute_call, vote_mute_recorded.
  run_v. rewrite Hv. simpl. unfold finish_vote. rewrite Hv. simpl.
  case_bool_decide as Hres.
  - run_v.
    destruct (raises w _) as [err|] eqn:Hraise; simpl;
      destruct (is_pinned v); simpl;
      rewrite ?get_vote_by_id_delete, ?mute_calls_snoc; simpl;
      rewrite ?app_nil_r; (split; [done|]); (split; [done|]); (split; [done|]);
      intros; done.
  - case_bool_decide; simpl;
      destruct (is_pinned v); simpl;
      rewrite ?get_vote_by_id_delete, ?mute_calls_snoc; simpl;
      rewrite ?app_nil_r; done.
Qed.

(** [update_vote_message] touches the prompt and its cache only. *)
Lemma update_vote_message_frame (me : nat) chat message r w :
  votemute (update_vote_message me chat message r w).2 = votemute w
  ∧ moderation (update_vote_message me chat message r w).2 = moderation w
  ∧ clock (update_vote_message me chat message r w).2 = clock w
  ∧ ticks (update_vote_message me chat message r w).2 = ticks w
  ∧ raises (update_vote_message me chat message r w).2 = raises w
  ∧ mute_calls (trace (update_vote_message me chat message r w).2) = mute_calls (trace w).
Proof.
  unfold update_vote_message, refresh_vote_message. run_v.
  destruct (vote_cache w !! _) as [c|]; [destruct (_ && _)|]; simpl;
    rewrite ?mute_calls_snoc; simpl; rewrite ?app_nil_r; done.
Qed.

(** C4.  A ballot that passes the checks of the handler and is recorded, and
    after which the tally [r] of the vote satisfies
    [yes + no >= required_votes], resolves the vote at once: the vote leaves
    [active_votes] and enters the history, with the tally [r], with result
    ["success"] when [yes > no] and ["failed"] otherwise (a tie included);
    the history gets this one row and no other; in the first case
    the target is muted for the vote's [mute_duration] (and the mute is
    recorded if the platform call did not raise), in the second nobody is
    muted and the punishment store is unchanged. *)
Theorem threshold_resolves (me : nat) (bot_id : Z) (w : world) (user : Z) (c : choice)
    (i : Z) (v : active_vote) (r : results) :
  get_vote_by_id i (votemute w) = Some v →
  clock w (ticks w) < expires_at v →
  user ≠ creator_id v →
  user ≠ target_user_id v →
  effective_rank w (chat_id v) user = RANK_USER →
  (add_vote (clock w (S (ticks w))) i user c (votemute w)).1 = true →
  get_vote_results i (add_vote (clock w (S (ticks w))) i user c (votemute w)).2 = r →
  required_votes v <= votes_yes r + votes_no r →
  get_vote_by_id i (votemute (vote_callback_handler bot_id me user c i w).2) = None
  ∧ (if bool_decide (votes_no r < votes_yes r) then
       vote_history (votemute (vote_callback_handler bot_id me user c i w).2)
       = vote_history (votemute w)
         ++ [History i (vote_id v) (chat_id v) (target_user_id v) (creator_id v)
              (mute_duration v) (required_votes v) (vote_duration v)
              (clock w (S (S (ticks w)))) "success" majority_for
              (votes_yes r) (votes_no r)]
       ∧ mute_calls (trace (vote_callback_handler bot_id me user c i w).2)
         = mute_calls (trace w) ++ [vote_mute_call v (clock w (S (S (S (ticks w)))))]
       ∧ (raises w (vote_mute_call v (clock w (S (S (S (ticks w)))))) = None →
          moderation (vote_callback_handler bot_id me user c i w).2
          = vote_mute_recorded bot_id v (clock w (S (S (S (ticks w))))) (moderation w))
     else
       vote_history (votemute (vote_callback_handler bot_id me user c i w).2)
       = vote_history (votemute w)
         ++ [History i (vote_id v) (chat_id v) (target_user_id v) (creator_id v)
              (mute_duration v) (required_votes v) (vote_duration v)
              (clock w (S (S (ticks w)))) "failed" majority_against
              (votes_yes r) (votes_no r)]
       ∧ mute_calls (trace (vote_callback_handler bot_id me user c i w).2)
         = mute_calls (trace w)
       ∧ moderation (vote_callback_handler bot_id me user c i w).2 = moderation w).
Proof.
  intros Hv Hopen Hcreator Htarget Hrank Haccepted Hr Hthreshold.
  pattern (vote_callback_handler bot_id me user c i w).
  match goal with |- ?P _ => set (Q := P) end.
  unfold vote_callback_handler, answer.
  unfold bind at 1. unfold read_votemute at 1, on_votemute at 1. simpl. rewrite Hv.
  unfold bind at 1. unfold now at 1. simpl.
  rewrite bool_decide_eq_false_2 by lia.
  rewrite bool_decide_eq_false_2 by done.
  rewrite bool_decide_eq_false_2 by done.
  unfold bind at 1. unfold get_effective_rank at 1. simpl. rewrite Hrank.
  rewrite bool_decide_eq_false_2 by (intros H; by apply H).
  unfold bind at 1. unfold now at 1. simpl.
  unfold bind at 1. unfold on_votemute at 1. simpl.
  pose proof (get_vote_by_id_add_vote (clock w (S (ticks w))) i user c (votemute w) i) as Hkeep.
  assert (vote_history (add_vote (clock w (S (ticks w))) i user c (votemute w)).2
          = vote_history (votemute w)) as Hhist.
  { unfold add_vote. destruct (vote_results _ !! _); [case_bool_decide|]; reflexivity. }
  destruct (add_vote (clock w (S (ticks w))) i user c (votemute w)) as [ok d1].
  simpl in Haccepted, Hr, Hkeep, Hhist. subst ok. simpl.
  unfold bind at 1. unfold read_votemute at 1, on_votemute at 1. simpl. rewrite Hr.
  unfold bind at 1.
  match goal with |- context [update_vote_message me ?a ?b ?c ?w0] =>
    pose proof (update_vote_message_frame me a b c w0) as (F1 & F2 & F3 & F4 & F5 & F6);
    destruct (update_vote_message me a b c w0) as [u w2] end.
  simpl in F1, F2, F3, F4, F5, F6.
  assert (Hy : count_choice yes (ballots_of i d1) = votes_yes r) by (by rewrite <- Hr).
  assert (Hn : count_choice no (ballots_of i d1) = votes_no r) by (by rewrite <- Hr).
  rewrite Hy, Hn.
  rewrite bool_decide_eq_true_2 by done.
  unfold bind at 1.
  assert (Hv2 : get_vote_by_id i (votemute w2) = Some v) by (rewrite F1, Hkeep; done).
  case_bool_decide as Hmaj.
  - pose proof (finish_votemute_live me bot_id i "success" majority_for w2 v Hv2)
      as (G1 & G2 & G3).
    rewrite bool_decide_eq_true_2 in G3 by done. destruct G3 as [G3 G4].
    destruct (finish_votemute bot_id me i "success" majority_for w2) as [u' w3].
    simpl in G1, G2, G3, G4. unfold to_history in G2. rewrite F1, Hr in G2.
    subst Q. run_v.
    rewrite mute_calls_snoc, app_nil_r. simpl.
    rewrite G1, G2, G3, ?F1, F3, F4, F6, Hhist.
    split; [done|]. split; [done|]. split; [done|].
    intros Hraise. rewrite G4, F2, F3, F4; [done|]. by rewrite F5, F3, F4.
  - pose proof (finish_votemute_live me bot_id i "failed" majority_against w2 v Hv2)
      as (G1 & G2 & G3).
    rewrite bool_decide_eq_false_2 in G3 by done. destruct G3 as [G3 G4].
    destruct (finish_votemute bot_id me i "failed" majority_against w2) as [u' w3].
    simpl in G1, G2, G3, G4. unfold to_history in G2. rewrite F1, Hr in G2.
    subst Q. run_v.
    rewrite mute_calls_snoc, app_nil_r. simpl.
    rewrite G1, G2, G3, G4, ?F1, F2, F3, F4, F6, Hhist.
    done.
Qed.

(** The fifth ballot on the sample vote, a "yes" making it 3 to 2. *)
Lemma threshold_resolves_witness :
  get_vote_by_id 1
    (votemute (vote_callback_handler 0 0 25 yes 1
                 (Samples.quiet_world Samples.two_mutes Samples.tied Samples.at_1000s)).2)
  = None
  ∧ map (λ h, (h_result h, h_votes_yes h, h_votes_no h))
      (vote_history
         (votemute (vote_callback_handler 0 0 25 yes 1
                      (Samples.quiet_world Samples.two_mutes Samples.tied Samples.at_1000s)).2))
    = [("success", 3, 2)].
Proof.
  pose proof (threshold_resolves 0%nat 0
                (Samples.quiet_world Samples.two_mutes Samples.tied Samples.at_1000s)
                25 yes 1 Samples.open_vote (Results 3 2)) as H.
  destruct H as [H1 H2].
  - reflexivity.
  - vm_compute. reflexivity.
  - vm_compute. discriminate.
  - vm_compute. discriminate.
  - reflexivity.
  - vm_compute. reflexivity.
  - vm_compute. reflexivity.
  - vm_compute. discriminate.
  - split; [exact H1|]. simpl in H2. destruct H2 as [H2 _]. rewrite H2. reflexivity.
Defined.

(** The sample votes: the fifth ballot carries the vote 3 to 2 and the target
    is muted for 1800 seconds; a second ballot that ties 1 to 1 at a
    threshold of 2 rejects. *)
Example fifth_ballot_applies :
  mute_calls (trace (vote_callback_handler 0 0 25 yes 1
                       (Samples.quiet_world Samples.two_mutes Samples.tied Samples.at_1000s)).2)
  = [restrict_chat_member 10 8 false (Some (seconds 1000 + seconds 1800))].
Proof. vm_compute. reflexivity. Qed.

Example tie_at_threshold_rejects :
  map h_result
    (vote_history
       (votemute (vote_callback_handler 0 0 22 no 1
                    (Samples.quiet_world Samples.two_mutes Samples.one_yes Samples.at_1000s)).2))
  = ["failed"]
  ∧ mute_calls (trace (vote_callback_handler 0 0 22 no 1
                         (Samples.quiet_world Samples.two_mutes Samples.one_yes Samples.at_1000s)).2)
    = [].
Proof. vm_compute. done. Qed.

Lemma find_filter_none {A} (f g : A → bool) (l : list A) :
  List.find f l = None → List.find f (List.filter g l) = None.
Proof.
  induction l as [|a l IH]; simpl; [done|].
  destruct (f a) eqn:Hf; [done|]. intros H.
  destruct (g a); simpl; [rewrite Hf|]; auto.
Qed.

Lemma cleanup_one_gone n d j i :
  get_vote_by_id i d = None ∨ i = j → get_vote_by_id i (cleanup_one n d j) = None.
Proof.
  unfold cleanup_one. intros [H| ->].
  - destruct (get_vote_by_id j d); [|done].
    unfold get_vote_by_id, delete_vote in *. simpl. by apply find_filter_none.
  - destruct (get_vote_by_id j d) eqn:Hj; [|done]. apply get_vote_by_id_delete.
Qed.

Lemma cleanup_fold_gone n l d i :
  get_vote_by_id i d = None ∨ i ∈ l →
  get_vote_by_id i (fold_left (cleanup_one n) l d) = None.
Proof.
  revert d. induction l as [|j l IH]; intros d H; simpl.
  - destruct H as [H|H]; [done|]. by apply elem_of_nil in H.
  - apply IH. destruct H as [H|H].
    + left. apply cleanup_one_gone. by left.
    + apply elem_of_cons in H as [->|H]; [|by right].
      left. apply cleanup_one_gone. by right.
Qed.

Lemma cleanup_fold_history n l d :
  ∃ added, vote_history (fold_left (cleanup_one n) l d) = vote_history d ++ added
           ∧ Forall timed_out added.
Proof.
  revert d. induction l as [|j l IH]; intros d; simpl.
  - exists []. by rewrite app_nil_r.
  - destruct (IH (cleanup_one n d j)) as (added & -> & Hall).
    unfold cleanup_one. destruct (get_vote_by_id j d) as [v|]; [|eauto].
    simpl. eexists (_ :: added). rewrite <- app_assoc. split; [reflexivity|].
    constructor; [|done]. split; reflexivity.
Qed.

Lemma expired_votes_elem n d i v :
  get_vote_by_id i d = Some v → expires_at v <= n → i ∈ expired_votes n d.
Proof.
  unfold get_vote_by_id, expired_votes. intros Hf Hexp.
  apply find_some in Hf as [Hin Hid]. apply bool_decide_eq_true_1 in Hid. subst i.
  apply list_elem_of_In, in_map, filter_In. split; [done|].
  by apply bool_decide_eq_true_2.
Qed.

(** C2 (the code departs from it).  The sample vote is carried 3 to 2.  The
    ballot handler (request 0) and the deadline timer (task 1) both call
    [finish_votemute] and both get the vote from [get_vote_by_id] before
    either reaches [finish_vote].  The vote enters the history once, but both
    go on: the target is muted twice, two mutes are recorded and the prompt
    is unpinned and edited twice. *)
Theorem racing_resolutions_mute_twice :
  mute_calls
    (trace (finish_votemute_raced 0 0 1 1 "success" "success"
              majority_for expired_majority_for
              (Samples.quiet_world Samples.no_mutes Samples.carried Samples.at_1000s)).2)
  = [restrict_chat_member 10 8 false (Some (seconds 1000 + seconds 1800));
     restrict_chat_member 10 8 false (Some (seconds 1000 + seconds 1800))]
  ∧ map issuer
      (trace (finish_votemute_raced 0 0 1 1 "success" "success"
                majority_for expired_majority_for
                (Samples.quiet_world Samples.no_mutes Samples.carried Samples.at_1000s)).2)
    = [0; 0; 0; 1; 1; 1]%nat
  ∧ length
      (vote_history
         (votemute (finish_votemute_raced 0 0 1 1 "success" "success"
                      majority_for expired_majority_for
                      (Samples.quiet_world Samples.no_mutes Samples.carried
                         Samples.at_1000s)).2))
    = 1%nat
  ∧ length
      (active_mutes_of 10 8
         (moderation (finish_votemute_raced 0 0 1 1 "success" "success"
                        majority_for expired_majority_for
                        (Samples.quiet_world Samples.no_mutes Samples.carried
                           Samples.at_1000s)).2))
    = 2%nat.
Proof. vm_compute. done. Qed.

(** Run one after the other, the second [finish_votemute] finds the vote gone
    and does nothing. *)
Example sequential_resolutions_mute_once :
  mute_calls
    (trace (finish_votemute 0 1 1 "success" expired_majority_for
              (finish_votemute 0 0 1 "success" majority_for
                 (Samples.quiet_world Samples.no_mutes Samples.carried Samples.at_1000s)).2).2)
  = [restrict_chat_member 10 8 false (Some (seconds 1000 + seconds 1800))].
Proof. vm_compute. reflexivity. Qed.

(** C6 (the code departs from it).  User 8 has an active mute in chat 10
    (punishment 2) when the sample vote against user 8 is carried: after
    [finish_votemute] two active mutes are visible for the pair, the old one
    was not deactivated.  [mute_command_apply] on the same store leaves one. *)
Theorem vote_mute_stacks :
  map Moderation.punishment_id
    (active_mutes_of 10 8 (moderation Samples.scan_world))
  = [2]
  ∧ length
      (active_mutes_of 10 8
         (moderation (finish_votemute 0 0 1 "success" majority_for
                        (Samples.quiet_world Samples.two_mutes Samples.carried
                           Samples.at_1000s)).2))
    = 2%nat
  ∧ map Moderation.punishment_id
      (active_mutes_of 10 8
         (moderation (mute_command_apply 0 10 8 99 1800
                        (Samples.quiet_world Samples.two_mutes Samples.carried
                           Samples.at_1000s)).2))
    = [4].
Proof. vm_compute. done. Qed.

(** C7 (the code departs from it).  In a chat without a vote, two [/votemute]
    commands that both pass [check_cooldown] and [get_active_vote] before
    either creates its vote leave two live votes in the chat; and
    [create_votemute_vote] creates a second live vote next to the sample
    vote, which is live at 1000 s, without looking. *)
Theorem two_live_votes :
  map VoteMute.vote_id
    (live_votes (seconds 1000) 10
       (votemute (votemute_command_raced 0 1 10 50 51
                    (Some (TargetUser 8 false)) (Some (TargetUser 9 false)) 77 78
                    (Samples.quiet_world Samples.no_mutes Samples.no_votes
                       Samples.at_1000s)).2))
  = [1; 2]
  ∧ map VoteMute.vote_id
      (live_votes (seconds 1000) 10 Samples.tied)
    = [1]
  ∧ map VoteMute.vote_id
      (live_votes (seconds 1000) 10
         (votemute (create_votemute_vote 1 10 51 (Some (Settings 9 30 5 5 false)) 78
                      (Samples.quiet_world Samples.no_mutes Samples.tied
                         Samples.at_1000s)).2))
    = [1; 2].
Proof. vm_compute. done. Qed.

(** Run one after the other, the second command is refused. *)
Example sequential_commands_one_vote :
  map VoteMute.vote_id
    (live_votes (seconds 1000) 10
       (votemute (votemute_command 1 10 51 (Some (TargetUser 9 false)) 78
                    (votemute_command 0 10 50 (Some (TargetUser 8 false)) 77
                       (Samples.quiet_world Samples.no_mutes Samples.no_votes
                          Samples.at_1000s)).2).2))
  = [1].
Proof. vm_compute. reflexivity. Qed.

End Votes.

(** * Further properties of the vote store *)

Section VoteStoreFacts.

Import VoteMute VoteStore.

Lemma filter_perm {A} (f : A → bool) (l l' : list A) :
  l ≡ₚ l' → List.filter f l ≡ₚ List.filter f l'.
Proof.
  induction 1 as [|x l l' _ IH|x y l|l l' l'' _ IH1 _ IH2]; simpl.
  - done.
  - destruct (f x); [by constructor | done].
  - destruct (f x), (f y); try done. apply perm_swap.
  - by etrans.
Qed.

Lemma count_choice_perm c (l l' : list ballot) :
  l ≡ₚ l' → count_choice c l = count_choice c l'.
Proof.
  intros H. unfold count_choice. f_equal.
  apply Permutation_length, filter_perm, H.
Qed.

Lemma count_choice_cons c (b : ballot) l :
  count_choice c (b :: l) = one_if (vote_type b) c + count_choice c l.
Proof.
  unfold count_choice, one_if. simpl. case_bool_decide; simpl; lia.
Qed.

(** The tally after a ballot was stored under a key, in terms of the tally
    without that key. *)
Lemma tally_insert i (d : db) (j u : Z) (b : ballot) c :
  count_choice c (ballots_of i (set_vote_results (<[(j, u) := b]> (vote_results d)) d))
  = (if bool_decide (j = i) then one_if (vote_type b) c else 0)
    + count_choice c (ballots_of i (set_vote_results (delete (j, u) (vote_results d)) d)).
Proof.
  unfold ballots_of. simpl.
  rewrite <- (insert_delete_eq (vote_results d)).
  rewrite (count_choice_perm c _ _
             (Permutation_map snd
                (filter_perm _ _ _
                   (map_to_list_insert (delete (j, u) (vote_results d)) (j, u) b
                      (lookup_delete_eq _ _))))).
  simpl. case_bool_decide; simpl; [by rewrite count_choice_cons | lia].
Qed.

Lemma tally_delete i (d : db) (j u : Z) (b : ballot) c :
  vote_results d !! (j, u) = Some b →
  count_choice c (ballots_of i d)
  = (if bool_decide (j = i) then one_if (vote_type b) c else 0)
    + count_choice c (ballots_of i (set_vote_results (delete (j, u) (vote_results d)) d)).
Proof.
  intros Hb. unfold ballots_of. simpl.
  rewrite <- (count_choice_perm c _ _
                (Permutation_map snd
                   (filter_perm _ _ _ (map_to_list_delete (vote_results d) (j, u) b Hb)))).
  simpl. case_bool_decide; simpl; [by rewrite count_choice_cons | lia].
Qed.

(** X1. a first ballot.  A voter without a ballot on the vote is always
    accepted, and the tally of the vote grows by exactly one, on the side of
    the choice; the tallies of the other votes do not move. *)
Theorem first_ballot_counts_once (d : db) (now i user : Z) (c : choice) :
  vote_results d !! (i, user) = None →
  (add_vote now i user c d).1 = true
  ∧ votes_yes (get_vote_results i (add_vote now i user c d).2)
    = votes_yes (get_vote_results i d) + one_if c yes
  ∧ votes_no (get_vote_results i (add_vote now i user c d).2)
    = votes_no (get_vote_results i d) + one_if c no
  ∧ ∀ j, j ≠ i →
      get_vote_results j (add_vote now i user c d).2 = get_vote_results j d.
Proof.
  intros Hnone. unfold add_vote. rewrite Hnone. simpl. split; [done|].
  assert (Hdel : delete (i, user) (vote_results d) = vote_results d)
    by (by apply delete_id).
  assert (Hsame : set_vote_results (vote_results d) d = d) by (by destruct d).
  unfold get_vote_results. simpl.
  split; [|split].
  - rewrite tally_insert, Hdel, Hsame, bool_decide_eq_true_2 by done. simpl. lia.
  - rewrite tally_insert, Hdel, Hsame, bool_decide_eq_true_2 by done. simpl. lia.
  - intros j Hj. f_equal.
    + rewrite tally_insert, Hdel, Hsame, bool_decide_eq_false_2 by done. lia.
    + rewrite tally_insert, Hdel, Hsame, bool_decide_eq_false_2 by done. lia.
Qed.

Lemma first_ballot_counts_once_witness :
  get_vote_results 1 (add_vote (seconds 1000) 1 25 yes Samples.tied).2 = Results 3 2.
Proof.
  destruct (first_ballot_counts_once Samples.tied (seconds 1000) 1 25 yes eq_refl)
    as (_ & Hy & Hn & _).
  destruct (get_vote_results 1 (add_vote (seconds 1000) 1 25 yes Samples.tied).2) as [y n].
  simpl in Hy, Hn. rewrite Hy, Hn. vm_compute. reflexivity.
Defined.

(** X2. a changed ballot.  When the cooldown has passed, the new choice
    replaces the old one: the side of the old choice loses one, the side of
    the new choice gains one, so [yes + no] is the same as before (a voter
    counts once) and voting the same way again changes no tally. *)
Theorem changed_ballot_moves_one (d : db) (now i user : Z) (c : choice) (b : ballot) :
  vote_results d !! (i, user) = Some b →
  seconds 30 <= now - last_change_at b →
  votes_yes (get_vote_results i (add_vote now i user c d).2)
  = votes_yes (get_vote_results i d) - one_if (vote_type b) yes + one_if c yes
  ∧ votes_no (get_vote_results i (add_vote now i user c d).2)
    = votes_no (get_vote_results i d) - one_if (vote_type b) no + one_if c no
  ∧ votes_yes (get_vote_results i (add_vote now i user c d).2)
    + votes_no (get_vote_results i (add_vote now i user c d).2)
    = votes_yes (get_vote_results i d) + votes_no (get_vote_results i d).
Proof.
  intros Hb Hlate. unfold add_vote. rewrite Hb.
  rewrite bool_decide_eq_false_2 by lia. unfold get_vote_results. simpl.
  rewrite !tally_insert, !(tally_delete i d i user b) by done.
  rewrite !bool_decide_eq_true_2 by done. simpl.
  unfold one_if. destruct (vote_type b), c; simpl; lia.
Qed.

Lemma changed_ballot_moves_one_witness :
  get_vote_results 1 (add_vote (seconds 1020) 1 21 no Samples.tied).2 = Results 1 3.
Proof.
  destruct (changed_ballot_moves_one Samples.tied (seconds 1020) 1 21 no (Samples.cast yes)
              eq_refl) as (Hy & Hn & _).
  - vm_compute. discriminate.
  - destruct (get_vote_results 1 (add_vote (seconds 1020) 1 21 no Samples.tied).2) as [y n].
    simpl in Hy, Hn. rewrite Hy, Hn. vm_compute. reflexivity.
Defined.

Lemma filter_none {A} (f : A → bool) (l : list A) :
  (∀ x, x ∈ l → f x = false) → List.filter f l = [].
Proof.
  induction l as [|a l IH]; intros H; simpl; [done|].
  rewrite (H a) by (by left). apply IH. intros x Hx. apply H. by right.
Qed.

Lemma ballots_of_deleted i (d : db) : ballots_of i (delete_vote i d) = [].
Proof.
  unfold ballots_of, delete_vote. simpl.
  rewrite filter_none; [done|].
  intros [[j u] b] Hin. apply elem_of_map_to_list in Hin.
  apply map_lookup_filter_Some in Hin as [_ Hne]. simpl in *.
  by apply bool_decide_eq_false_2.
Qed.

(** X3. Calls of [finish_vote] in turn and calls that overlap.  A call into
    which no statement of another call falls is its two halves run together.
    It returns the row exactly when the vote is still in [active_votes];
    afterwards the vote and all its ballots are gone, and a [finish_vote] on
    the same id that starts after it returns [None] and changes nothing.
    On a vote that is not there the call itself changes nothing.  Calls that
    overlap are not kept apart: of two calls whose SELECTs both run before
    the INSERT of either, both return the row and both write a row to the
    history, each with the tally read at the start. *)
Theorem finish_vote_in_turn (d : db) (now now' i : Z) (result result' : string)
    (why why' : reason) :
  finish_vote now i result why d
  = match finish_vote_read i d with
    | None => (None, d)
    | Some read => finish_vote_write now i result why read d
    end
  ∧ (finish_vote now i result why d).1 = get_vote_by_id i d
  ∧ get_vote_by_id i (finish_vote now i result why d).2 = None
  ∧ finish_vote now' i result' why' (finish_vote now i result why d).2
    = (None, (finish_vote now i result why d).2)
  ∧ (get_vote_by_id i d = None → (finish_vote now i result why d).2 = d)
  ∧ (is_Some (get_vote_by_id i d) →
     get_vote_results i (finish_vote now i result why d).2 = Results 0 0
     ∧ ∀ u, vote_results (finish_vote now i result why d).2 !! (i, u) = None)
  ∧ (∀ v, get_vote_by_id i d = Some v →
       (finish_vote_overlapping now now' i result result' why why' d).1 = (Some v, Some v)
       ∧ vote_history (finish_vote_overlapping now now' i result result' why why' d).2
         = vote_history d
           ++ [History i (vote_id v) (chat_id v) (target_user_id v) (creator_id v)
                 (mute_duration v) (required_votes v) (vote_duration v) now result why
                 (votes_yes (get_vote_results i d)) (votes_no (get_vote_results i d));
               History i (vote_id v) (chat_id v) (target_user_id v) (creator_id v)
                 (mute_duration v) (required_votes v) (vote_duration v) now' result' why'
                 (votes_yes (get_vote_results i d)) (votes_no (get_vote_results i d))]
       ∧ get_vote_by_id i (finish_vote_overlapping now now' i result result' why why' d).2
         = None).
Proof.
  assert (Hgone : get_vote_by_id i (finish_vote now i result why d).2 = None).
  { unfold finish_vote. destruct (get_vote_by_id i d) eqn:Hv; simpl; [|done].
    apply get_vote_by_id_delete. }
  split; [|split; [|split; [done|split; [|split; [|split]]]]].
  - unfold finish_vote, finish_vote_read, finish_vote_write.
    by destruct (get_vote_by_id i d).
  - unfold finish_vote. by destruct (get_vote_by_id i d).
  - unfold finish_vote at 1. by rewrite Hgone.
  - intros Hv. unfold finish_vote. by rewrite Hv.
  - intros [v Hv]. unfold finish_vote. rewrite Hv. simpl. split.
    + unfold get_vote_results. by rewrite ballots_of_deleted.
    + intros u. apply map_lookup_filter_None. right. intros b _. simpl. tauto.
  - intros v Hv. unfold finish_vote_overlapping, finish_vote_read, finish_vote_write.
    rewrite Hv. simpl. split; [done|]. split.
    + unfold to_history. simpl. by rewrite <- app_assoc.
    + apply get_vote_by_id_delete.
Qed.

(** The sample vote carried 3 to 2: a call after the first finds nothing,
    two overlapping calls both get the vote and the history has two rows. *)
Lemma finish_vote_in_turn_witness :
  get_vote_results 1 (finish_vote (seconds 1000) 1 "success" majority_for Samples.carried).2
  = Results 0 0
  ∧ (finish_vote_overlapping (seconds 1000) (seconds 1001) 1 "success" "failed"
       majority_for time_expired Samples.carried).1
    = (Some Samples.open_vote, Some Samples.open_vote)
  ∧ map h_result
      (vote_history
         (finish_vote_overlapping (seconds 1000) (seconds 1001) 1 "success" "failed"
            majority_for time_expired Samples.carried).2)
    = ["success"; "failed"].
Proof.
  destruct (finish_vote_in_turn Samples.carried (seconds 1000) (seconds 1001) 1
              "success" "failed" majority_for time_expired) as (_ & _ & _ & _ & _ & H & H').
  destruct H as [H _]; [by exists Samples.open_vote|].
  destruct (H' Samples.open_vote) as (H1 & H2 & _); [reflexivity|].
  split; [exact H|]. split; [exact H1|]. rewrite H2. reflexivity.
Defined.

(** X4. what [finish_vote] writes to the history.  The row carries the id of
    the vote, the result, the reason, the finish time and the tally at that
    moment.  The values taken from the vote are one column off: the row is
    read with [SELECT *], whose first column is [vote_id], so [chat_id]
    receives the vote id, [target_user_id] the chat, [creator_id] the target,
    [mute_duration] the creator, [required_votes] the mute duration,
    [vote_duration] the required votes and [created_at] the vote duration. *)
Theorem finish_vote_history_row (d : db) (now i : Z) (result : string) (why : reason)
    (v : active_vote) :
  get_vote_by_id i d = Some v →
  ∃ h, vote_history (finish_vote now i result why d).2 = vote_history d ++ [h]
       ∧ h_vote_id h = i ∧ h_result h = result ∧ h_reason h = why
       ∧ h_finished_at h = now
       ∧ h_votes_yes h = votes_yes (get_vote_results i d)
       ∧ h_votes_no h = votes_no (get_vote_results i d)
       ∧ h_chat_id h = i
       ∧ h_target_user_id h = chat_id v
       ∧ h_creator_id h = target_user_id v
       ∧ h_mute_duration h = creator_id v
       ∧ h_required_votes h = mute_duration v
       ∧ h_vote_duration h = required_votes v
       ∧ h_created_at h = vote_duration v.
Proof.
  intros Hv. unfold finish_vote. rewrite Hv. simpl.
  eexists. split; [reflexivity|]. simpl.
  unfold get_vote_by_id in Hv. apply find_some in Hv as [_ Hid].
  apply bool_decide_eq_true_1 in Hid. rewrite Hid. repeat split.
Qed.

Lemma finish_vote_history_row_witness :
  ∃ h, vote_history (finish_vote (seconds 1000) 1 "success" majority_for Samples.carried).2
       = [h]
       ∧ h_chat_id h = 1 ∧ h_target_user_id h = 10 ∧ h_created_at h = 5.
Proof.
  destruct (finish_vote_history_row Samples.carried (seconds 1000) 1 "success" majority_for
              Samples.open_vote eq_refl)
    as (h & Hh & _ & _ & _ & _ & _ & _ & H1 & H2 & _ & _ & _ & _ & H3).
  exists h. split; [exact Hh|]. split; [exact H1|]. split; [exact H2|exact H3].
Defined.

Lemma find_snoc {A} (f : A → bool) (l : list A) (x : A) :
  List.find f (l ++ [x])
  = match List.find f l with
    | Some y => Some y
    | None => if f x then Some x else None
    end.
Proof.
  induction l as [|a l IH]; simpl; [done|]. by destruct (f a).
Qed.

Lemma find_fresh (d : db) i :
  well_numbered d → next_vote_id d <= i → get_vote_by_id i d = None.
Proof.
  unfold well_numbered, get_vote_by_id. intros Hwn Hi.
  induction Hwn as [|v l Hv _ IH]; simpl; [done|].
  rewrite bool_decide_eq_false_2 by lia. done.
Qed.

(** X5. [create_vote] and [get_vote_by_id].  In a store whose ids are below
    the next id, the id returned by [create_vote] is new, [get_vote_by_id]
    of it returns the vote as given, open from [now] until
    [now + vote_duration] minutes and without a message id; the votes already
    there are found as before, and the store stays well numbered. *)
Theorem create_vote_round_trip (d : db) (now chat target creator duration required window : Z)
    (pinned : bool) :
  well_numbered d →
  get_vote_by_id (create_vote now chat target creator duration required window pinned d).1 d
  = None
  ∧ get_vote_by_id
      (create_vote now chat target creator duration required window pinned d).1
      (create_vote now chat target creator duration required window pinned d).2
    = Some (ActiveVote (next_vote_id d) chat target creator duration required window
                       now (now + minutes window) pinned None)
  ∧ (∀ j v, get_vote_by_id j d = Some v →
       get_vote_by_id j
         (create_vote now chat target creator duration required window pinned d).2
       = Some v)
  ∧ well_numbered (create_vote now chat target creator duration required window pinned d).2
  ∧ vote_results (create_vote now chat target creator duration required window pinned d).2
    = vote_results d.
Proof.
  intros Hwn. unfold create_vote. simpl.
  pose proof (find_fresh d (next_vote_id d) Hwn ltac:(lia)) as Hfresh.
  split; [done|]. unfold get_vote_by_id in *. simpl.
  split; [|split; [|split]].
  - rewrite find_snoc, Hfresh. simpl. by rewrite bool_decide_eq_true_2.
  - intros j v Hv. by rewrite find_snoc, Hv.
  - unfold well_numbered in *. simpl. apply Forall_app. split.
    + eapply Forall_impl; [exact Hwn|]. simpl. intros. lia.
    + constructor; [simpl; lia | constructor].
  - done.
Qed.

Lemma create_vote_round_trip_witness :
  get_vote_by_id 2 (create_vote (seconds 1000) 10 9 51 600 3 5 false Samples.tied).2
  = Some (ActiveVote 2 10 9 51 600 3 5 (seconds 1000) (seconds 1000 + minutes 5) false None).
Proof.
  destruct (create_vote_round_trip Samples.tied (seconds 1000) 10 9 51 600 3 5 false)
    as (_ & H & _).
  - constructor; [reflexivity | constructor].
  - exact H.
Defined.

Lemma tally_insert_new (c : choice) (j : Z) (m : gmap (Z * Z) ballot) (k : Z * Z)
    (b : ballot) :
  m !! k = None →
  tally c j (<[k := b]> m)
  = (if bool_decide (k.1 = j) then one_if (vote_type b) c else 0) + tally c j m.
Proof.
  intros Hk. unfold tally.
  rewrite (count_choice_perm c _ _
             (Permutation_map snd (filter_perm _ _ _ (map_to_list_insert m k b Hk)))).
  simpl. case_bool_decide; simpl; [by rewrite count_choice_cons | lia].
Qed.

(** Dropping the ballots of vote [i] leaves the tally of any other vote. *)
Lemma tally_filter_other (c : choice) (i j : Z) (m : gmap (Z * Z) ballot) :
  j ≠ i → tally c j (filter (λ kb, kb.1.1 ≠ i) m) = tally c j m.
Proof.
  intros Hji. induction m as [|k b m Hk _ IH] using map_first_key_ind; [done|].
  rewrite (tally_insert_new c j m k b Hk).
  destruct (decide (k.1 = i)) as [Hki|Hki].
  - rewrite map_filter_insert_not by (simpl; intros ? ?; tauto).
    rewrite IH, bool_decide_eq_false_2 by congruence. lia.
  - rewrite map_filter_insert_True by done.
    rewrite tally_insert_new, IH; [done|].
    apply map_lookup_filter_None. by left.
Qed.

Lemma find_filter_other {A} (f g : A → bool) (l : list A) :
  (∀ x, f x = true → g x = true) → List.find f (List.filter g l) = List.find f l.
Proof.
  intros H. induction l as [|a l IH]; simpl; [done|].
  destruct (f a) eqn:Hf.
  - rewrite (H a Hf). simpl. by rewrite Hf.
  - destruct (g a); simpl; [by rewrite Hf | done].
Qed.

Lemma delete_vote_other (i j : Z) (d : db) :
  j ≠ i →
  get_vote_by_id j (delete_vote i d) = get_vote_by_id j d
  ∧ get_vote_results j (delete_vote i d) = get_vote_results j d.
Proof.
  intros Hji. split.
  - unfold get_vote_by_id, delete_vote. simpl. apply find_filter_other.
    intros v Hv. apply bool_decide_eq_true_1 in Hv.
    rewrite bool_decide_eq_false_2 by congruence. done.
  - unfold get_vote_results, ballots_of, delete_vote. simpl.
    f_equal; apply (tally_filter_other _ i j (vote_results d) Hji).
Qed.

(** X6. [finish_vote] touches one vote.  Every other vote is found as before
    and keeps its tally, and the cooldowns and the id counter are not
    touched. *)
Theorem finish_vote_frame (d : db) (now i j : Z) (result : string) (why : reason) :
  j ≠ i →
  get_vote_by_id j (finish_vote now i result why d).2 = get_vote_by_id j d
  ∧ get_vote_results j (finish_vote now i result why d).2 = get_vote_results j d
  ∧ vote_cooldowns (finish_vote now i result why d).2 = vote_cooldowns d
  ∧ next_vote_id (finish_vote now i result why d).2 = next_vote_id d.
Proof.
  intros Hji. unfold finish_vote. destruct (get_vote_by_id i d) as [v|]; simpl; [|done].
  destruct (delete_vote_other i j
              (add_history (to_history i v now result why (get_vote_results i d)) d) Hji)
    as [H1 H2].
  rewrite H1, H2. done.
Qed.

Lemma finish_vote_frame_witness :
  get_vote_by_id 2 (finish_vote (seconds 1000) 1 "failed" majority_against Samples.two_votes).2
  = Some Samples.second_vote
  ∧ get_vote_results 2
      (finish_vote (seconds 1000) 1 "failed" majority_against Samples.two_votes).2
    = Results 1 0.
Proof.
  destruct (finish_vote_frame Samples.two_votes (seconds 1000) 1 2 "failed" majority_against)
    as (H1 & H2 & _).
  - discriminate.
  - rewrite H1, H2. split; [reflexivity | vm_compute; reflexivity].
Defined.

Lemma find_none_filter_id (i : Z) (l : list active_vote) :
  List.find (λ v, bool_decide (vote_id v = i)) l = None →
  List.filter (λ v, negb (bool_decide (vote_id v = i))) l = l.
Proof.
  induction l as [|a l IH]; simpl; [done|].
  destruct (bool_decide (vote_id a = i)); [done|]. simpl. intros H. by rewrite IH.
Qed.

Lemma cleanup_one_active (n : Z) (d : db) (j : Z) :
  active_votes (cleanup_one n d j)
  = List.filter (λ v, negb (bool_decide (vote_id v = j))) (active_votes d).
Proof.
  unfold cleanup_one. destruct (get_vote_by_id j d) eqn:Hj; simpl; [done|].
  symmetry. by apply find_none_filter_id.
Qed.

Lemma filter_filter {A} (f g : A → bool) (l : list A) :
  List.filter f (List.filter g l) = List.filter (λ x, g x && f x) l.
Proof.
  induction l as [|a l IH]; simpl; [done|].
  destruct (g a); simpl; [destruct (f a)|]; by rewrite IH.
Qed.

Lemma cleanup_fold_active (n : Z) (l : list Z) (d : db) :
  active_votes (fold_left (cleanup_one n) l d)
  = List.filter (λ v, negb (bool_decide (vote_id v ∈ l))) (active_votes d).
Proof.
  revert d. induction l as [|j l IH]; intros d; simpl.
  - induction (active_votes d) as [|a t IHt]; simpl; [done|]. congruence.
  - rewrite IH, cleanup_one_active, filter_filter.
    apply filter_ext. intros v.
    destruct (decide (vote_id v = j)) as [->|Hne].
    + rewrite (bool_decide_eq_true_2 (j = j)) by done.
      rewrite (bool_decide_eq_true_2 (j ∈ j :: l)) by (by left). done.
    + rewrite (bool_decide_eq_false_2 (vote_id v = j)) by done. simpl.
      f_equal. apply bool_decide_ext. rewrite elem_of_cons. tauto.
Qed.

Lemma unique_ids_same (l : list active_vote) (v v' : active_vote) :
  NoDup (map vote_id l) → v ∈ l → v' ∈ l → vote_id v = vote_id v' → v = v'.
Proof.
  induction l as [|a l IH]; simpl; intros Hnd Hv Hv' Hid.
  - by apply elem_of_nil in Hv.
  - apply NoDup_cons in Hnd as [Ha Hnd].
    apply elem_of_cons in Hv as [->|Hv]; apply elem_of_cons in Hv' as [->|Hv']; auto.
    + exfalso. apply Ha. rewrite Hid. by apply (list_elem_of_fmap_2 vote_id).
    + exfalso. apply Ha. rewrite <- Hid. by apply (list_elem_of_fmap_2 vote_id).
Qed.

(** X7. what the cleanup removes.  [cleanup_expired_votes] returns the number
    of votes whose deadline has passed; afterwards no such vote is left in
    [active_votes], and when the ids are pairwise different the table is
    exactly the votes with a deadline still ahead, in their old order: no
    live vote is lost. *)
Theorem cleanup_expired_votes_removes (d : db) (now : Z) :
  (cleanup_expired_votes now d).1
  = Z.of_nat (length (List.filter (λ v, bool_decide (expires_at v <= now)) (active_votes d)))
  ∧ Forall (λ v, now < expires_at v) (active_votes (cleanup_expired_votes now d).2)
  ∧ (unique_ids d →
     active_votes (cleanup_expired_votes now d).2
     = List.filter (λ v, bool_decide (now < expires_at v)) (active_votes d)).
Proof.
  unfold cleanup_expired_votes. simpl. rewrite cleanup_fold_active.
  split; [|split].
  - unfold expired_votes. by rewrite length_map.
  - apply Forall_forall. intros v Hv.
    apply list_elem_of_In, filter_In in Hv as [Hin Hkeep].
    apply negb_true_iff, bool_decide_eq_false_1 in Hkeep.
    destruct (decide (now < expires_at v)) as [|Hexp]; [done|].
    exfalso. apply Hkeep. unfold expired_votes.
    apply (list_elem_of_fmap_2 vote_id), list_elem_of_In, filter_In.
    split; [done|]. apply bool_decide_eq_true_2. lia.
  - intros Huniq. apply filter_ext_in. intros v Hin.
    destruct (decide (now < expires_at v)) as [Hlive|Hexp].
    + rewrite (bool_decide_eq_true_2 _ Hlive).
      apply negb_true_iff, bool_decide_eq_false_2.
      unfold expired_votes. intros Hmem.
      apply list_elem_of_fmap in Hmem as (v' & Hid & Hv').
      apply list_elem_of_In, filter_In in Hv' as [Hin' Hexp'].
      apply bool_decide_eq_true_1 in Hexp'.
      assert (v = v') as <-.
      { apply (unique_ids_same (active_votes d)); try done; by apply list_elem_of_In. }
      lia.
    + rewrite (bool_decide_eq_false_2 _ Hexp).
      apply negb_false_iff, bool_decide_eq_true_2.
      unfold expired_votes.
      apply (list_elem_of_fmap_2 vote_id), list_elem_of_In, filter_In.
      split; [done|]. apply bool_decide_eq_true_2. lia.
Qed.

Lemma cleanup_expired_votes_removes_witness :
  active_votes (cleanup_expired_votes (seconds 1000) Samples.tied).2 = [Samples.open_vote]
  ∧ active_votes (cleanup_expired_votes (seconds 1200) Samples.tied).2 = [].
Proof.
  destruct (cleanup_expired_votes_removes Samples.tied (seconds 1000)) as (_ & _ & H1).
  destruct (cleanup_expired_votes_removes Samples.tied (seconds 1200)) as (_ & _ & H2).
  rewrite H1, H2 by (repeat constructor; apply not_elem_of_nil).
  split; reflexivity.
Defined.

(** X8. the tallies of the votes the cleanup leaves.  A vote that is not
    among the expired ones keeps its tally and is found as before. *)
Theorem cleanup_expired_votes_frame (d : db) (now j : Z) :
  j ∉ expired_votes now d →
  get_vote_by_id j (cleanup_expired_votes now d).2 = get_vote_by_id j d
  ∧ get_vote_results j (cleanup_expired_votes now d).2 = get_vote_results j d.
Proof.
  unfold cleanup_expired_votes. simpl. generalize (expired_votes now d) as l.
  intros l. revert d. induction l as [|i l IH]; intros d Hj; simpl; [done|].
  apply not_elem_of_cons in Hj as [Hji Hj].
  destruct (IH (cleanup_one now d i) Hj) as [-> ->].
  unfold cleanup_one. destruct (get_vote_by_id i d) as [v|]; [|done].
  destruct (delete_vote_other i j
              (add_history (to_history i v now "failed" time_expired (get_vote_results i d)) d)
              Hji) as [H1 H2].
  rewrite H1, H2. done.
Qed.

Lemma cleanup_expired_votes_frame_witness :
  expired_votes (seconds 1200) Samples.two_votes = [1]
  ∧ get_vote_results 2 (cleanup_expired_votes (seconds 1200) Samples.two_votes).2
    = Results 1 0.
Proof.
  assert (H0 : expired_votes (seconds 1200) Samples.two_votes = [1])
    by (vm_compute; reflexivity).
  split; [exact H0|].
  destruct (cleanup_expired_votes_frame Samples.two_votes (seconds 1200) 2) as [_ H].
  - rewrite H0. intros Hin. apply list_elem_of_singleton in Hin. discriminate.
  - rewrite H. vm_compute. reflexivity.
Defined.

Lemma latest_of (l : list active_vote) :
  match fold_right latest None l with
  | None => l = []
  | Some v => v ∈ l ∧ ∀ v', v' ∈ l → created_at v' <= created_at v
  end.
Proof.
  induction l as [|a l IH]; simpl; [done|].
  destruct (fold_right latest None l) as [b|]; simpl.
  - destruct IH as [Hb Hmax]. case_bool_decide.
    + split; [by left|]. intros v' Hv'.
      apply elem_of_cons in Hv' as [->|Hv']; [lia|]. specialize (Hmax v' Hv'). lia.
    + split; [by right|]. intros v' Hv'.
      apply elem_of_cons in Hv' as [->|Hv']; [lia|]. by apply Hmax.
  - subst l. split; [by left|]. intros v' Hv'.
    apply list_elem_of_singleton in Hv' as ->. lia.
Qed.

Lemma get_active_vote_none (d : db) (now chat : Z) (v : active_vote) :
  get_active_vote now chat d = None →
  v ∈ active_votes d → chat_id v = chat → expires_at v <= now.
Proof.
  unfold get_active_vote. intros Hnone Hin Hc.
  pose proof (latest_of (live_votes now chat d)) as H. rewrite Hnone in H.
  destruct (decide (now < expires_at v)) as [Hl|]; [|lia].
  assert (v ∈ live_votes now chat d) as Hv.
  { unfold live_votes, is_live.
    rewrite list_elem_of_In, filter_In, andb_true_iff, !bool_decide_eq_true.
    by rewrite <- list_elem_of_In. }
  rewrite H in Hv. by apply elem_of_nil in Hv.
Qed.

(** X9. [get_active_vote].  It returns [None] exactly when every vote of the
    chat has its deadline behind it, and otherwise a vote of that chat whose
    deadline is still ahead and that was created last among those. *)
Theorem get_active_vote_latest (d : db) (now chat : Z) :
  (get_active_vote now chat d = None
   ↔ ∀ v, v ∈ active_votes d → chat_id v = chat → expires_at v <= now)
  ∧ ∀ v, get_active_vote now chat d = Some v →
      v ∈ active_votes d ∧ chat_id v = chat ∧ now < expires_at v
      ∧ ∀ v', v' ∈ active_votes d → chat_id v' = chat → now < expires_at v' →
          created_at v' <= created_at v.
Proof.
  unfold get_active_vote.
  pose proof (latest_of (live_votes now chat d)) as H.
  assert (Hlive : ∀ v, v ∈ live_votes now chat d
                       ↔ v ∈ active_votes d ∧ chat_id v = chat ∧ now < expires_at v).
  { intros v. unfold live_votes, is_live.
    rewrite !list_elem_of_In, filter_In, andb_true_iff, !bool_decide_eq_true. tauto. }
  destruct (fold_right latest None (live_votes now chat d)) as [b|].
  - destruct H as [Hb Hmax]. split.
    + split; [done|]. intros Hall. apply Hlive in Hb as (Hin & Hc & Hl).
      specialize (Hall b Hin Hc). lia.
    + intros v [= <-]. apply Hlive in Hb as (Hin & Hc & Hl).
      repeat split; try done. intros v' ? ? ?. apply Hmax, Hlive. done.
  - split; [|done]. split; [|done]. intros _ v Hin Hc.
    destruct (decide (now < expires_at v)) as [Hl|]; [|lia].
    assert (v ∈ live_votes now chat d) as Hv by (by apply Hlive).
    rewrite H in Hv. by apply elem_of_nil in Hv.
Qed.

Lemma get_active_vote_latest_witness :
  seconds 1000 < expires_at Samples.open_vote.
Proof.
  destruct (get_active_vote_latest Samples.tied (seconds 1000) 10) as [_ H].
  destruct (H Samples.open_vote) as (_ & _ & H3 & _); [|exact H3].
  vm_compute. reflexivity.
Defined.

Lemma with_message_id_id (i m : Z) (v : active_vote) :
  vote_id (with_message_id i m v) = vote_id v.
Proof. unfold with_message_id. by case_bool_decide. Qed.

Lemma find_map_id (i m : Z) (l : list active_vote) :
  List.find (λ v, bool_decide (vote_id v = i)) (map (with_message_id i m) l)
  = match List.find (λ v, bool_decide (vote_id v = i)) l with
    | Some v => Some (with_message_id i m v)
    | None => None
    end.
Proof.
  induction l as [|a l IH]; simpl; [done|].
  rewrite with_message_id_id. by destruct (bool_decide (vote_id a = i)).
Qed.

(** X10. [update_vote_message_id].  The vote with the given id is found again
    with the new message id and all its other fields as before; looking up
    any other id gives what it gave before; the ballots are not touched. *)
Theorem update_vote_message_id_sets (d : db) (i m : Z) :
  (∀ v, get_vote_by_id i d = Some v →
     get_vote_by_id i (update_vote_message_id i m d)
     = Some (ActiveVote (vote_id v) (chat_id v) (target_user_id v) (creator_id v)
                        (mute_duration v) (required_votes v) (vote_duration v)
                        (created_at v) (expires_at v) (is_pinned v) (Some m)))
  ∧ (get_vote_by_id i d = None → get_vote_by_id i (update_vote_message_id i m d) = None)
  ∧ (∀ j, j ≠ i → get_vote_by_id j (update_vote_message_id i m d) = get_vote_by_id j d)
  ∧ vote_results (update_vote_message_id i m d) = vote_results d.
Proof.
  unfold get_vote_by_id, update_vote_message_id. simpl.
  split; [|split; [|split; [|done]]].
  - intros v Hv. rewrite find_map_id, Hv. unfold with_message_id.
    apply find_some in Hv as [_ Hid]. by rewrite Hid.
  - intros Hv. by rewrite find_map_id, Hv.
  - intros j Hj. induction (active_votes d) as [|a l IH]; simpl; [done|].
    rewrite with_message_id_id. destruct (bool_decide (vote_id a = j)) eqn:Ha; [|done].
    apply bool_decide_eq_true_1 in Ha. unfold with_message_id.
    by rewrite bool_decide_eq_false_2 by congruence.
Qed.

Lemma update_vote_message_id_sets_witness :
  get_vote_by_id 1 (update_vote_message_id 1 80 Samples.tied)
  = Some (ActiveVote 1 10 8 50 1800 5 5 (seconds 800) (seconds 1100) true (Some 80)).
Proof.
  destruct (update_vote_message_id_sets Samples.tied 1 80) as (H & _).
  apply (H Samples.open_vote). reflexivity.
Defined.

End VoteStoreFacts.

(** * The deadline of a vote *)

Section Deadlines.

Import VoteMute VoteStore Bot.

Ltac run_d :=
  unfold bind, ret, now, on_moderation, on_votemute, read_votemute, read_moderation,
         write_votemute, cached_results, set_cached_results, perform,
         get_effective_rank in *; simpl in *.

Lemma cleanup_one_other (n : Z) (d : db) (j i : Z) :
  j ≠ i →
  get_vote_by_id i (cleanup_one n d j) = get_vote_by_id i d
  ∧ get_vote_results i (cleanup_one n d j) = get_vote_results i d.
Proof.
  intros Hne. unfold cleanup_one. destruct (get_vote_by_id j d) as [u|]; [|done].
  destruct (delete_vote_other j i
              (add_history (to_history j u n "failed" time_expired (get_vote_results j d)) d))
    as [H1 H2]; [done|].
  by rewrite H1, H2.
Qed.

Lemma cleanup_one_history (n : Z) (d : db) (j : Z) :
  ∃ added, vote_history (cleanup_one n d j) = vote_history d ++ added
           ∧ Forall timed_out added.
Proof.
  unfold cleanup_one. destruct (get_vote_by_id j d) as [u|]; simpl.
  - eexists [_]. split; [reflexivity|]. constructor; [|constructor]. by split.
  - exists []. by rewrite app_nil_r.
Qed.

(** The cleanup files every vote on its list. *)
Lemma cleanup_fold_row (n : Z) (l : list Z) (d : db) (i : Z) (v : active_vote) :
  get_vote_by_id i d = Some v → i ∈ l →
  ∃ added, vote_history (fold_left (cleanup_one n) l d) = vote_history d ++ added
           ∧ Forall timed_out added
           ∧ to_history i v n "failed" time_expired (get_vote_results i d) ∈ added.
Proof.
  revert d. induction l as [|j l IH]; intros d Hv Hin; simpl.
  - by apply elem_of_nil in Hin.
  - destruct (decide (j = i)) as [->|Hne].
    + destruct (cleanup_fold_history n l (cleanup_one n d i)) as (added & -> & Hall).
      unfold cleanup_one. rewrite Hv. simpl.
      eexists (_ :: added). rewrite <- app_assoc. split; [reflexivity|]. split.
      * constructor; [by split | done].
      * by left.
    + apply elem_of_cons in Hin as [->|Hin]; [done|].
      destruct (cleanup_one_other n d j i Hne) as [Hsame Htally].
      destruct (IH (cleanup_one n d j)) as (added & -> & Hall & Hrow);
        [by rewrite Hsame | done |].
      destruct (cleanup_one_history n d j) as (first & -> & Hfirst).
      exists (first ++ added). rewrite <- app_assoc. split; [done|]. split.
      * by apply Forall_app.
      * apply elem_of_app. right. by rewrite <- Htally.
Qed.

(** C5, as the code has it.  The deadline timer resolves a vote that is still
    in [active_votes] by the majority of the tally [r] it reads: ["success"]
    and a mute for the vote's [mute_duration] when [yes > no], ["failed"] and
    no mute otherwise, a tie included.  The periodic cleanup does not look at
    the majority: every vote whose deadline has passed leaves
    [active_votes] and is among the rows added to the history, with its
    tally, as ["failed"] with the reason "time expired"; every row the
    cleanup adds to the history is of this kind, and it mutes nobody. *)
Theorem deadline_resolution (me : nat) (bot_id : Z) (w : world) (i : Z) (v : active_vote)
    (r : results) :
  get_vote_by_id i (votemute w) = Some v →
  get_vote_results i (votemute w) = r →
  (get_vote_by_id i (votemute (votemute_timer bot_id me i w).2) = None
   ∧ (if bool_decide (votes_no r < votes_yes r) then
        vote_history (votemute (votemute_timer bot_id me i w).2)
        = vote_history (votemute w)
          ++ [History i (vote_id v) (chat_id v) (target_user_id v) (creator_id v)
               (mute_duration v) (required_votes v) (vote_duration v)
               (clock w (ticks w)) "success" expired_majority_for
               (votes_yes r) (votes_no r)]
        ∧ mute_calls (trace (votemute_timer bot_id me i w).2)
          = mute_calls (trace w) ++ [vote_mute_call v (clock w (S (ticks w)))]
        ∧ (raises w (vote_mute_call v (clock w (S (ticks w)))) = None →
           moderation (votemute_timer bot_id me i w).2
           = vote_mute_recorded bot_id v (clock w (S (ticks w))) (moderation w))
      else
        vote_history (votemute (votemute_timer bot_id me i w).2)
        = vote_history (votemute w)
          ++ [History i (vote_id v) (chat_id v) (target_user_id v) (creator_id v)
               (mute_duration v) (required_votes v) (vote_duration v)
               (clock w (ticks w)) "failed" expired_majority_against
               (votes_yes r) (votes_no r)]
        ∧ mute_calls (trace (votemute_timer bot_id me i w).2) = mute_calls (trace w)
        ∧ moderation (votemute_timer bot_id me i w).2 = moderation w))
  ∧ (moderation (cleanup_expired_votes_task w).2 = moderation w
     ∧ trace (cleanup_expired_votes_task w).2 = trace w
     ∧ (∃ added, vote_history (votemute (cleanup_expired_votes_task w).2)
                 = vote_history (votemute w) ++ added
                 ∧ Forall timed_out added
                 ∧ (expires_at v <= clock w (ticks w) →
                    History i (vote_id v) (chat_id v) (target_user_id v) (creator_id v)
                      (mute_duration v) (required_votes v) (vote_duration v)
                      (clock w (ticks w)) "failed" time_expired
                      (votes_yes r) (votes_no r) ∈ added))
     ∧ (expires_at v <= clock w (ticks w) →
        get_vote_by_id i (votemute (cleanup_expired_votes_task w).2) = None)).
Proof.
  intros Hv Hr. split.
  - pattern (votemute_timer bot_id me i w).
    match goal with |- ?P _ => set (Q := P) end.
    unfold votemute_timer.
    unfold bind at 1. unfold read_votemute at 1, on_votemute at 1. simpl. rewrite Hv.
    unfold bind at 1. unfold read_votemute at 1, on_votemute at 1. simpl.
    assert (Hy : count_choice yes (ballots_of i (votemute w)) = votes_yes r) by (by rewrite <- Hr).
    assert (Hn : count_choice no (ballots_of i (votemute w)) = votes_no r) by (by rewrite <- Hr).
    rewrite Hy, Hn.
    set (w1 := World _ _ _ _ _ _ _ _ _ _).
    assert (Hv1 : get_vote_by_id i (votemute w1) = Some v) by done.
    case_bool_decide as Hmaj.
    + pose proof (finish_votemute_live me bot_id i "success" expired_majority_for w1 v Hv1)
        as (G1 & G2 & G3).
      rewrite bool_decide_eq_true_2 in G3 by done. destruct G3 as [G3 G4].
      unfold to_history in G2.
      change (get_vote_results i (votemute w1)) with (get_vote_results i (votemute w)) in G2.
      rewrite Hr in G2.
      subst Q. simpl. subst w1. simpl in *. done.
    + pose proof (finish_votemute_live me bot_id i "failed" expired_majority_against w1 v Hv1)
        as (G1 & G2 & G3).
      rewrite bool_decide_eq_false_2 in G3 by done. destruct G3 as [G3 G4].
      unfold to_history in G2.
      change (get_vote_results i (votemute w1)) with (get_vote_results i (votemute w)) in G2.
      rewrite Hr in G2.
      subst Q. simpl. subst w1. simpl in *. done.
  - unfold cleanup_expired_votes_task, cleanup_expired_votes. run_d.
    split; [done|]. split; [done|]. split.
    + destruct (decide (expires_at v <= clock w (ticks w))) as [Hexp|Hexp].
      * destruct (cleanup_fold_row (clock w (ticks w))
                    (expired_votes (clock w (ticks w)) (votemute w)) (votemute w) i v Hv)
          as (added & Hadded & Hall & Hrow); [by eapply expired_votes_elem|].
        exists added. split; [done|]. split; [done|]. intros _.
        unfold to_history in Hrow. by rewrite Hr in Hrow.
      * destruct (cleanup_fold_history (clock w (ticks w))
                    (expired_votes (clock w (ticks w)) (votemute w)) (votemute w))
          as (added & Hadded & Hall).
        exists added. split; [done|]. split; [done|]. intros ?. lia.
    + intros Hexp. apply cleanup_fold_gone. right. by eapply expired_votes_elem.
Qed.

(** At 1200 s the deadline of the sample vote, tied 2 to 2, is behind: the
    timer rejects, and the cleanup files the vote as failed with its
    tally. *)
Lemma deadline_resolution_witness :
  get_vote_by_id 1
    (votemute (votemute_timer 0 0 1
                 (Samples.quiet_world Samples.two_mutes Samples.tied Samples.at_1200s)).2)
  = None
  ∧ map (λ h, (h_result h, h_votes_yes h, h_votes_no h))
      (vote_history
         (votemute (votemute_timer 0 0 1
                      (Samples.quiet_world Samples.two_mutes Samples.tied Samples.at_1200s)).2))
    = [("failed", 2, 2)]
  ∧ History 1 1 10 8 50 1800 5 5 (seconds 1200) "failed" time_expired 2 2
    ∈ vote_history
        (votemute (cleanup_expired_votes_task
                     (Samples.quiet_world Samples.two_mutes Samples.tied Samples.at_1200s)).2).
Proof.
  pose proof (deadline_resolution 0%nat 0
                (Samples.quiet_world Samples.two_mutes Samples.tied Samples.at_1200s)
                1 Samples.open_vote (Results 2 2) eq_refl) as H.
  destruct H as [[H1 H2] (_ & _ & (added & Hadded & _ & Hrow) & _)].
  - vm_compute. reflexivity.
  - split; [exact H1|]. split.
    + simpl in H2. destruct H2 as [H2 _]. rewrite H2. reflexivity.
    + rewrite Hadded. apply elem_of_app. right. apply Hrow. vm_compute. discriminate.
Defined.

(** C5, as stated, fails for the cleanup: the sample vote carried 3 to 2 has
    passed its deadline at 1200 s, and the cleanup files it as ["failed"]
    and mutes nobody. *)
Lemma cleanup_ignores_majority :
  get_vote_results 1 Samples.carried = Results 3 2
  ∧ get_vote_by_id 1 Samples.carried = Some Samples.open_vote
  ∧ expires_at Samples.open_vote <= Samples.at_1200s 0%nat
  ∧ map h_result
      (vote_history
         (votemute (cleanup_expired_votes_task
                      (Samples.quiet_world Samples.two_mutes Samples.carried Samples.at_1200s)).2))
    = ["failed"]
  ∧ mute_calls
      (trace (cleanup_expired_votes_task
                (Samples.quiet_world Samples.two_mutes Samples.carried Samples.at_1200s)).2)
    = []
  ∧ moderation (cleanup_expired_votes_task
                  (Samples.quiet_world Samples.two_mutes Samples.carried Samples.at_1200s)).2
    = Samples.two_mutes.
Proof.
  split; [vm_compute; reflexivity|]. split; [reflexivity|].
  split; [vm_compute; discriminate|].
  split; [vm_compute; reflexivity|]. split; reflexivity.
Qed.

End Deadlines.

(** * Further properties of the vote handlers *)

Section HandlerFacts.

Import VoteMute VoteStore Bot.

Ltac run_h :=
  unfold bind, ret, now, on_moderation, on_votemute, read_votemute, read_moderation,
         write_votemute, cached_results, set_cached_results, perform,
         get_effective_rank in *; simpl in *.

Lemma world_eta (w : world) :
  World (moderation w) (votemute w) (recently_processed_mutes w) (vote_cache w)
        (inactive_chats w) (trace w) (clock w) (ticks w) (raises w) (effective_rank w)
  = w.
Proof. by destruct w. Qed.

Lemma finish_votemute_gone (me : nat) (bot_id : Z) i result why w :
  get_vote_by_id i (votemute w) = None →
  finish_votemute bot_id me i result why w = (tt, w).
Proof.
  intros Hv. unfold finish_votemute, finish_votemute_lookup. run_h.
  rewrite Hv. by rewrite world_eta.
Qed.

(** X11. [finish_votemute] run twice in a row.  Whatever the first call did,
    a second call for the same vote, by whomever and with whatever result,
    does nothing at all: no call to the platform, no change to any store. *)
Theorem finish_votemute_second_call_idle (me me' : nat) (bot_id i : Z)
    (result result' : string) (why why' : reason) (w : world) :
  finish_votemute bot_id me' i result' why' (finish_votemute bot_id me i result why w).2
  = (tt, (finish_votemute bot_id me i result why w).2).
Proof.
  apply finish_votemute_gone.
  destruct (get_vote_by_id i (votemute w)) as [v|] eqn:Hv.
  - by destruct (finish_votemute_live me bot_id i result why w v Hv) as [H _].
  - by rewrite finish_votemute_gone.
Qed.

(** X12. the calls of [finish_votemute] on a vote that is still there.  With
    result ["success"] it restricts the target until [now + mute_duration],
    then unpins the prompt if the vote was pinned, then edits the prompt;
    the prompt says "muted" when the restriction went through and "error"
    when it raised, and in the latter case no punishment is recorded although
    the history says ["success"].  With any other result it only unpins and
    edits. *)
Theorem finish_votemute_calls (me : nat) (bot_id i : Z) (result : string) (why : reason)
    (w : world) (v : active_vote) :
  get_vote_by_id i (votemute w) = Some v →
  trace (finish_votemute bot_id me i result why w).2
  = trace w
    ++ (if bool_decide (result = "success")
        then [Event me None (vote_mute_call v (clock w (S (ticks w))))] else [])
    ++ (if is_pinned v
        then [Event me None (unpin_chat_message (chat_id v) (message_id v))] else [])
    ++ [Event me None
          (edit_message_text (chat_id v) (message_id v)
             (if bool_decide (result = "success") then
                match raises w (vote_mute_call v (clock w (S (ticks w)))) with
                | Some _ => text_vote_mute_error
                | None => text_vote_muted
                end
              else if bool_decide (result = "failed") then text_vote_against
              else text_vote_not_applied))]
  ∧ (result = "success" →
     is_Some (raises w (vote_mute_call v (clock w (S (ticks w))))) →
     moderation (finish_votemute bot_id me i result why w).2 = moderation w
     ∧ map h_result (vote_history (votemute (finish_votemute bot_id me i result why w).2))
       = map h_result (vote_history (votemute w)) ++ ["success"]).
Proof.
  intros Hv.
  unfold finish_votemute, finish_votemute_lookup, finish_votemute_resolve, apply_mute,
    vote_mute_call.
  run_h. rewrite Hv. simpl. unfold finish_vote. rewrite Hv. simpl.
  case_bool_decide as Hres.
  - run_h. destruct (raises w _) as [err|] eqn:Hraise; simpl;
      destruct (is_pinned v); simpl; rewrite <- ?app_assoc; simpl;
      (split; [done|]); intros _ Hsome; try (by destruct Hsome);
      rewrite map_app; simpl; by rewrite Hres.
  - case_bool_decide; simpl; destruct (is_pinned v); simpl; rewrite <- ?app_assoc; simpl;
      (split; [done|]); intros; done.
Qed.

Lemma finish_votemute_calls_witness :
  map what
    (trace (finish_votemute 0 0 1 "failed" majority_against
              (Samples.quiet_world Samples.no_mutes Samples.tied Samples.at_1000s)).2)
  = [unpin_chat_message 10 (Some 77); edit_message_text 10 (Some 77) text_vote_against].
Proof.
  destruct (finish_votemute_calls 0%nat 0 1 "failed" majority_against
              (Samples.quiet_world Samples.no_mutes Samples.tied Samples.at_1000s)
              Samples.open_vote eq_refl) as [H _].
  rewrite H. reflexivity.
Defined.

(** X13. [update_vote_message] called twice with the same tally.  The second
    call finds the tally in the cache and does nothing: the prompt is edited
    at most once per tally. *)
Theorem update_vote_message_debounce (me me' : nat) (chat : Z) (message : option Z)
    (r : results) (w : world) :
  update_vote_message me' chat message r (update_vote_message me chat message r w).2
  = (tt, (update_vote_message me chat message r w).2).
Proof.
  assert (Hidle : ∀ w1, vote_cache w1 !! (chat, message) = Some r →
            update_vote_message me' chat message r w1 = (tt, w1)).
  { intros w1 H1. unfold update_vote_message. run_h. rewrite H1.
    rewrite !bool_decide_eq_true_2 by done. done. }
  apply Hidle. unfold update_vote_message, refresh_vote_message. run_h.
  destruct (vote_cache w !! (chat, message)) as [c|] eqn:Hc.
  - destruct (bool_decide (votes_yes c = votes_yes r)) eqn:Hy;
      destruct (bool_decide (votes_no c = votes_no r)) eqn:Hn; simpl;
      try apply lookup_insert_eq.
    apply bool_decide_eq_true_1 in Hy, Hn. rewrite Hc. f_equal.
    destruct c, r. simpl in *. congruence.
  - simpl. apply lookup_insert_eq.
Qed.

(** X14. a ballot that does not reach the threshold.  An accepted ballot after
    which [yes + no] is still below [required_votes] is stored and answered
    with "counted", and that is all: the vote stays in [active_votes] as it
    was, nothing enters the history, nobody is muted and no punishment is
    recorded. *)
Theorem ballot_below_threshold (me : nat) (bot_id : Z) (w : world) (user : Z) (c : choice)
    (i : Z) (v : active_vote) (r : results) :
  get_vote_by_id i (votemute w) = Some v →
  clock w (ticks w) < expires_at v →
  user ≠ creator_id v →
  user ≠ target_user_id v →
  effective_rank w (chat_id v) user = RANK_USER →
  (add_vote (clock w (S (ticks w))) i user c (votemute w)).1 = true →
  get_vote_results i (add_vote (clock w (S (ticks w))) i user c (votemute w)).2 = r →
  votes_yes r + votes_no r < required_votes v →
  votemute (vote_callback_handler bot_id me user c i w).2
  = (add_vote (clock w (S (ticks w))) i user c (votemute w)).2
  ∧ get_vote_by_id i (votemute (vote_callback_handler bot_id me user c i w).2) = Some v
  ∧ vote_history (votemute (vote_callback_handler bot_id me user c i w).2)
    = vote_history (votemute w)
  ∧ moderation (vote_callback_handler bot_id me user c i w).2 = moderation w
  ∧ mute_calls (trace (vote_callback_handler bot_id me user c i w).2) = mute_calls (trace w)
  ∧ last (trace (vote_callback_handler bot_id me user c i w).2)
    = Some (Event me None (answer_callback (answer_counted c))).
Proof.
  intros Hv Hopen Hcreator Htarget Hrank Haccepted Hr Hbelow.
  pose proof (get_vote_by_id_add_vote (clock w (S (ticks w))) i user c (votemute w) i) as Hkeep.
  assert (vote_history (add_vote (clock w (S (ticks w))) i user c (votemute w)).2
          = vote_history (votemute w)) as Hhist.
  { unfold add_vote. destruct (vote_results _ !! _); [case_bool_decide|]; reflexivity. }
  destruct (add_vote (clock w (S (ticks w))) i user c (votemute w)) as [ok d1] eqn:Hadd.
  simpl in Haccepted, Hr, Hkeep, Hhist |- *. subst ok.
  pattern (vote_callback_handler bot_id me user c i w).
  match goal with |- ?P _ => set (Q := P) end.
  unfold vote_callback_handler, answer.
  unfold bind at 1. unfold read_votemute at 1, on_votemute at 1. simpl. rewrite Hv.
  unfold bind at 1. unfold now at 1. simpl.
  rewrite bool_decide_eq_false_2 by lia.
  rewrite bool_decide_eq_false_2 by done.
  rewrite bool_decide_eq_false_2 by done.
  unfold bind at 1. unfold get_effective_rank at 1. simpl. rewrite Hrank.
  rewrite bool_decide_eq_false_2 by (intros H; by apply H).
  unfold bind at 1. unfold now at 1. simpl.
  unfold bind at 1. unfold on_votemute at 1. simpl. rewrite Hadd. simpl.
  unfold bind at 1. unfold read_votemute at 1, on_votemute at 1. simpl. rewrite Hr.
  unfold bind at 1.
  match goal with |- context [update_vote_message me ?a ?b ?c ?w0] =>
    pose proof (update_vote_message_frame me a b c w0) as (F1 & F2 & F3 & F4 & F5 & F6);
    destruct (update_vote_message me a b c w0) as [u w2] end.
  simpl in F1, F2, F3, F4, F5, F6.
  assert (Hy : count_choice yes (ballots_of i d1) = votes_yes r) by (by rewrite <- Hr).
  assert (Hn : count_choice no (ballots_of i d1) = votes_no r) by (by rewrite <- Hr).
  rewrite Hy, Hn.
  rewrite bool_decide_eq_false_2 by lia.
  subst Q. run_h. rewrite mute_calls_snoc, app_nil_r, last_snoc. simpl.
  rewrite F1, F2, F6, Hkeep, Hv, Hhist. done.
Qed.

Lemma ballot_below_threshold_witness :
  get_vote_results 1
    (votemute (vote_callback_handler 0 0 25 yes 2
                 (Samples.quiet_world Samples.no_mutes
                    (create_vote (seconds 900) 10 9 51 600 3 5 false Samples.tied).2
                    Samples.at_1000s)).2)
  = Results 2 2
  ∧ get_vote_results 2
      (votemute (vote_callback_handler 0 0 25 yes 2
                   (Samples.quiet_world Samples.no_mutes
                      (create_vote (seconds 900) 10 9 51 600 3 5 false Samples.tied).2
                      Samples.at_1000s)).2)
    = Results 1 0.
Proof.
  destruct (ballot_below_threshold 0%nat 0
              (Samples.quiet_world Samples.no_mutes
                 (create_vote (seconds 900) 10 9 51 600 3 5 false Samples.tied).2
                 Samples.at_1000s)
              25 yes 2
              (ActiveVote 2 10 9 51 600 3 5 (seconds 900) (seconds 900 + minutes 5) false None)
              (Results 1 0)) as (H & _).
  - reflexivity.
  - vm_compute. reflexivity.
  - vm_compute. discriminate.
  - vm_compute. discriminate.
  - reflexivity.
  - vm_compute. reflexivity.
  - vm_compute. reflexivity.
  - vm_compute. reflexivity.
  - rewrite H. split; vm_compute; reflexivity.
Defined.

Ltac run_c :=
  unfold votemute_command, votemute_command_admit, votemute_command_proceed,
         votemute_command_create, send_votemute_message, reply;
  run_h.

(** X15. a refused [/votemute] writes nothing.  When the chat is inside its
    3-minute cooldown, or a vote of the chat has its deadline ahead, or the
    target is missing, is the caller, is a bot or does not hold the baseline
    rank, the command sends one reply and returns without creating a vote:
    the vote store, the cooldown included, is left as it was. *)
Theorem votemute_command_refusals (me : nat) (w : world) (chat user posted : Z)
    (target : option target_user) :
  (check_cooldown (clock w (ticks w)) chat (votemute w) = false →
   (votemute_command me chat user target posted w).1 = None
   ∧ votemute (votemute_command me chat user target posted w).2 = votemute w
   ∧ trace (votemute_command me chat user target posted w).2
     = trace w ++ [Event me None (send_message chat text_vote_cooldown)])
  ∧ (check_cooldown (clock w (ticks w)) chat (votemute w) = true →
     is_Some (get_active_vote (clock w (S (ticks w))) chat (votemute w)) →
     (votemute_command me chat user target posted w).1 = None
     ∧ votemute (votemute_command me chat user target posted w).2 = votemute w
     ∧ trace (votemute_command me chat user target posted w).2
       = trace w ++ [Event me None (send_message chat text_vote_exists)])
  ∧ (check_cooldown (clock w (ticks w)) chat (votemute w) = true →
     get_active_vote (clock w (S (ticks w))) chat (votemute w) = None →
     match target with
     | None => True
     | Some t => target_id t = user ∨ is_bot t = true
                 ∨ effective_rank w chat (target_id t) ≠ RANK_USER
     end →
     (votemute_command me chat user target posted w).1 = None
     ∧ votemute (votemute_command me chat user target posted w).2 = votemute w
     ∧ trace (votemute_command me chat user target posted w).2
       = trace w ++ [Event me None (send_message chat text_vote_refused)]).
Proof.
  split; [|split].
  - intros Hcd. run_c. rewrite Hcd. simpl. done.
  - intros Hcd [v Hv]. run_c. rewrite Hcd. simpl. rewrite Hv. simpl. done.
  - intros Hcd Hv Ht. run_c. rewrite Hcd. simpl. rewrite Hv. simpl.
    destruct target as [t|]; [|done].
    destruct Ht as [Ht|[Ht|Ht]].
    + rewrite bool_decide_eq_true_2 by done. done.
    + case_bool_decide; [done|]. rewrite Ht. done.
    + case_bool_decide; [done|]. destruct (is_bot t); [done|]. simpl.
      rewrite bool_decide_eq_true_2 by done. done.
Qed.

Lemma votemute_command_refusals_witness :
  votemute (votemute_command 0 10 51 (Some (TargetUser 9 false)) 78
              (Samples.quiet_world Samples.no_mutes Samples.tied Samples.at_1000s)).2
  = Samples.tied.
Proof.
  destruct (votemute_command_refusals 0%nat
              (Samples.quiet_world Samples.no_mutes Samples.tied Samples.at_1000s)
              10 51 78 (Some (TargetUser 9 false))) as (_ & H & _).
  destruct H as (_ & H & _).
  - reflexivity.
  - exists Samples.open_vote. reflexivity.
  - exact H.
Defined.

(** X16. a [/votemute] that passes.  In a well-numbered store, outside the
    cooldown, with no live vote in the chat and a baseline-rank target that
    is neither the caller nor a bot, the command starts the chat's cooldown
    and creates the vote with the standard settings (30 minutes of mute, 5
    ballots, 5 minutes of voting, not pinned).  When the prompt was posted
    the vote carries its message id and the id of the vote is returned (its
    timer is started); when posting raised, the vote is in the store all the
    same, without message id, and no timer is started for it. *)
Theorem votemute_command_creates (me : nat) (w : world) (chat user posted : Z)
    (t : target_user) :
  well_numbered (votemute w) →
  check_cooldown (clock w (ticks w)) chat (votemute w) = true →
  get_active_vote (clock w (S (ticks w))) chat (votemute w) = None →
  target_id t ≠ user →
  is_bot t = false →
  effective_rank w chat (target_id t) = RANK_USER →
  vote_cooldowns (votemute (votemute_command me chat user (Some t) posted w).2) !! chat
  = Some (clock w (S (S (ticks w))))
  ∧ get_vote_by_id (next_vote_id (votemute w))
      (votemute (votemute_command me chat user (Some t) posted w).2)
    = Some (ActiveVote (next_vote_id (votemute w)) chat (target_id t) user (30 * 60) 5 5
              (clock w (S (S (S (ticks w)))))
              (clock w (S (S (S (ticks w)))) + minutes 5) false
              (match raises w (send_message chat (text_vote_open (Results 0 0))) with
               | None => Some posted
               | Some _ => None
               end))
  ∧ (votemute_command me chat user (Some t) posted w).1
    = match raises w (send_message chat (text_vote_open (Results 0 0))) with
      | None => Some (next_vote_id (votemute w))
      | Some _ => None
      end
  ∧ clock (votemute_command me chat user (Some t) posted w).2 = clock w
  ∧ (raises w (send_message chat (text_vote_open (Results 0 0))) = None →
     ticks (votemute_command me chat user (Some t) posted w).2 = (4 + ticks w)%nat).
Proof.
  intros Hwn Hcd Hnone Hself Hbot Hrank. run_c.
  rewrite Hcd. simpl. rewrite Hnone. simpl.
  rewrite bool_decide_eq_false_2 by done. rewrite Hbot. simpl. rewrite Hrank.
  rewrite bool_decide_eq_false_2 by (intros H; by apply H). simpl.
  assert (Hfresh : List.find (λ v, bool_decide (vote_id v = next_vote_id (votemute w)))
                     (active_votes (votemute w)) = None)
    by (apply (find_fresh (votemute w)); [done | lia]).
  destruct (raises w _) as [err|]; simpl.
  - split; [apply lookup_insert_eq|]. unfold get_vote_by_id. simpl.
    rewrite find_snoc, Hfresh. simpl. rewrite bool_decide_eq_true_2 by done. done.
  - split; [apply lookup_insert_eq|]. unfold get_vote_by_id. simpl.
    rewrite find_map_id, find_snoc, Hfresh. simpl.
    rewrite bool_decide_eq_true_2 by done.
    unfold with_message_id. simpl. rewrite bool_decide_eq_true_2 by done. done.
Qed.

Lemma votemute_command_creates_witness :
  (votemute_command 0 10 50 (Some (TargetUser 8 false)) 77
     (Samples.quiet_world Samples.no_mutes Samples.no_votes Samples.at_1000s)).1
  = Some 1.
Proof.
  destruct (votemute_command_creates 0%nat
              (Samples.quiet_world Samples.no_mutes Samples.no_votes Samples.at_1000s)
              10 50 77 (TargetUser 8 false)) as (_ & _ & H & _).
  - constructor.
  - reflexivity.
  - reflexivity.
  - discriminate.
  - reflexivity.
  - reflexivity.
  - exact H.
Defined.

Lemma votemute_command_not_admitted (me : nat) (w : world) (chat user posted : Z)
    (target : option target_user) :
  check_cooldown (clock w (ticks w)) chat (votemute w) = false
  ∨ is_Some (get_active_vote (clock w (S (ticks w))) chat (votemute w)) →
  (votemute_command me chat user target posted w).1 = None
  ∧ votemute (votemute_command me chat user target posted w).2 = votemute w.
Proof.
  intros [Hcd|[v Hv]]; run_c.
  - rewrite Hcd. done.
  - destruct (check_cooldown _ _ _); simpl; [|done]. rewrite Hv. done.
Qed.

Lemma votemute_command_posted (me : nat) (w : world) (chat user posted : Z)
    (t : target_user) :
  well_numbered (votemute w) →
  check_cooldown (clock w (ticks w)) chat (votemute w) = true →
  get_active_vote (clock w (S (ticks w))) chat (votemute w) = None →
  target_id t ≠ user →
  is_bot t = false →
  effective_rank w chat (target_id t) = RANK_USER →
  raises w (send_message chat (text_vote_open (Results 0 0))) = None →
  get_vote_by_id (next_vote_id (votemute w))
    (votemute (votemute_command me chat user (Some t) posted w).2)
  = Some (ActiveVote (next_vote_id (votemute w)) chat (target_id t) user (30 * 60) 5 5
            (clock w (S (S (S (ticks w)))))
            (clock w (S (S (S (ticks w)))) + minutes 5) false (Some posted))
  ∧ clock (votemute_command me chat user (Some t) posted w).2 = clock w
  ∧ ticks (votemute_command me chat user (Some t) posted w).2 = (4 + ticks w)%nat.
Proof.
  intros Hwn Hcd Hnone Hself Hbot Hrank Hsend. run_c.
  rewrite Hcd. simpl. rewrite Hnone. simpl.
  rewrite bool_decide_eq_false_2 by done. rewrite Hbot. simpl. rewrite Hrank.
  rewrite bool_decide_eq_false_2 by (intros H; by apply H). simpl.
  assert (Hfresh : List.find (λ v, bool_decide (vote_id v = next_vote_id (votemute w)))
                     (active_votes (votemute w)) = None)
    by (apply (find_fresh (votemute w)); [done | lia]).
  rewrite Hsend. simpl.
  unfold get_vote_by_id. simpl.
  rewrite find_map_id, find_snoc, Hfresh. simpl.
  rewrite bool_decide_eq_true_2 by done.
  unfold with_message_id. simpl. rewrite bool_decide_eq_true_2 by done. done.
Qed.

(** X17. one [/votemute] after another.  After a command that created a vote,
    a further [/votemute] in the same chat, whoever sends it and whomever it
    names, creates nothing as long as the clock reading it takes for the
    live-vote check is before the deadline of that vote: it is refused by
    the cooldown or by the live vote. *)
Theorem votemute_command_blocks_next (me me' : nat) (w : world)
    (chat user user' posted posted' : Z) (t : target_user) (target' : option target_user) :
  well_numbered (votemute w) →
  check_cooldown (clock w (ticks w)) chat (votemute w) = true →
  get_active_vote (clock w (S (ticks w))) chat (votemute w) = None →
  target_id t ≠ user →
  is_bot t = false →
  effective_rank w chat (target_id t) = RANK_USER →
  raises w (send_message chat (text_vote_open (Results 0 0))) = None →
  clock w (5 + ticks w) < clock w (3 + ticks w) + minutes 5 →
  (votemute_command me' chat user' target' posted'
     (votemute_command me chat user (Some t) posted w).2).1 = None
  ∧ votemute (votemute_command me' chat user' target' posted'
                (votemute_command me chat user (Some t) posted w).2).2
    = votemute (votemute_command me chat user (Some t) posted w).2.
Proof.
  intros Hwn Hcd Hnone Hself Hbot Hrank Hsend Hclock.
  destruct (votemute_command_posted me w chat user posted t
              Hwn Hcd Hnone Hself Hbot Hrank Hsend) as (Hvote & Hclk & Hticks).
  set (w1 := (votemute_command me chat user (Some t) posted w).2) in *.
  apply votemute_command_not_admitted.
  destruct (check_cooldown (clock w1 (ticks w1)) chat (votemute w1)) eqn:Hc1; [|by left].
  right.
  destruct (get_active_vote (clock w1 (S (ticks w1))) chat (votemute w1)) eqn:Hg; [done|].
  exfalso.
  apply get_active_vote_none with
    (v := ActiveVote (next_vote_id (votemute w)) chat (target_id t) user (30 * 60) 5 5
            (clock w (S (S (S (ticks w)))))
            (clock w (S (S (S (ticks w)))) + minutes 5) false (Some posted)) in Hg.
  - simpl in Hg. rewrite Hclk, Hticks in Hg. simpl in *. lia.
  - unfold get_vote_by_id in Hvote. apply find_some in Hvote as [Hin _].
    by apply list_elem_of_In.
  - done.
Qed.

Lemma votemute_command_blocks_next_witness :
  votemute (votemute_command 1 10 51 (Some (TargetUser 9 false)) 78
              (votemute_command 0 10 50 (Some (TargetUser 8 false)) 77
                 (Samples.quiet_world Samples.no_mutes Samples.no_votes Samples.at_1000s)).2).2
  = votemute (votemute_command 0 10 50 (Some (TargetUser 8 false)) 77
                (Samples.quiet_world Samples.no_mutes Samples.no_votes Samples.at_1000s)).2.
Proof.
  apply (votemute_command_blocks_next 0%nat 1%nat
           (Samples.quiet_world Samples.no_mutes Samples.no_votes Samples.at_1000s)
           10 50 51 77 78 (TargetUser 8 false) (Some (TargetUser 9 false))).
  - constructor.
  - reflexivity.
  - reflexivity.
  - discriminate.
  - reflexivity.
  - reflexivity.
  - reflexivity.
  - vm_compute. reflexivity.
Defined.



End HandlerFacts.

(** * Further properties of the mute command *)

Section MuteCommandFacts.

Import Moderation PunishmentStore Bot.

Lemma retire_inactive (p : punishment) : active p = false → retire p = p.
Proof. destruct p. simpl. by intros ->. Qed.

Lemma retire_in_nil (p : punishment) : retire_in [] p = p.
Proof. unfold retire_in. by rewrite bool_decide_eq_false_2 by apply not_elem_of_nil. Qed.

Lemma retire_in_cons (i : Z) (ids : list Z) (p : punishment) :
  retire_in ids (retire_in [i] p) = retire_in (i :: ids) p.
Proof.
  unfold retire_in. simpl.
  destruct (decide (punishment_id p = i)) as [->|Hne].
  - rewrite (bool_decide_eq_true_2 (_ ∈ [_])) by (by left).
    rewrite (bool_decide_eq_true_2 (_ ∈ _ :: _)) by (by left). simpl.
    by case_bool_decide.
  - rewrite (bool_decide_eq_false_2 (_ ∈ [_])).
    + assert (bool_decide (punishment_id p ∈ ids) = bool_decide (punishment_id p ∈ i :: ids))
        as -> by (apply bool_decide_ext; rewrite elem_of_cons; tauto).
      done.
    + rewrite list_elem_of_singleton. done.
Qed.

(** One [deactivate_punishment] on a keyed store, as a map over its rows. *)
Lemma deactivate_as_map (i : Z) (d : db) :
  Scheduler.keyed d →
  (deactivate_punishment i d).2 = Db (retire_in [i] <$> punishments d) (next_id d).
Proof.
  intros Hk. unfold deactivate_punishment.
  assert (Hmap : ∀ m', (∀ j, m' !! j = retire_in [i] <$> punishments d !! j) →
            Db m' (next_id d) = Db (retire_in [i] <$> punishments d) (next_id d)).
  { intros m' H. f_equal. apply map_eq. intros j. by rewrite lookup_fmap. }
  assert (Hother : ∀ j q, j ≠ i → punishments d !! j = Some q → retire_in [i] q = q).
  { intros j q Hj Hq. unfold retire_in. rewrite bool_decide_eq_false_2; [done|].
    rewrite list_elem_of_singleton, (Hk j q Hq). done. }
  destruct (punishments d !! i) as [p|] eqn:Hp; [destruct (active p) eqn:Ha|]; simpl.
  - apply Hmap. intros j. destruct (decide (j = i)) as [->|Hj].
    + rewrite lookup_insert_eq, Hp. simpl. unfold retire_in.
      rewrite bool_decide_eq_true_2; [done|]. rewrite (Hk i p Hp). by left.
    + rewrite lookup_insert_ne by done.
      destruct (punishments d !! j) as [q|] eqn:Hq; simpl; [|done].
      by rewrite (Hother j q).
  - destruct d as [m n]. simpl in *. f_equal. apply map_eq. intros j.
    rewrite lookup_fmap. destruct (decide (j = i)) as [->|Hj].
    + rewrite Hp. simpl. unfold retire_in. case_bool_decide; [|done].
      by rewrite retire_inactive.
    + destruct (m !! j) as [q|] eqn:Hq; simpl; [|done]. by rewrite (Hother j q).
  - destruct d as [m n]. simpl in *. f_equal. apply map_eq. intros j.
    rewrite lookup_fmap. destruct (decide (j = i)) as [->|Hj].
    + by rewrite Hp.
    + destruct (m !! j) as [q|] eqn:Hq; simpl; [|done]. by rewrite (Hother j q).
Qed.

Lemma keyed_retire (ids : list Z) (d : db) :
  Scheduler.keyed d → Scheduler.keyed (Db (retire_in ids <$> punishments d) (next_id d)).
Proof.
  intros Hk i p. simpl. rewrite lookup_fmap.
  destruct (punishments d !! i) as [q|] eqn:Hq; simpl; [|done].
  intros [= <-]. unfold retire_in. case_bool_decide; simpl; by apply Hk.
Qed.

(** The deactivation loop of [mute_command] on a keyed store. *)
Lemma deactivate_mutes_of_as_map (target : Z) (rows : list punishment) (w : world) :
  Scheduler.keyed (moderation w) →
  moderation (deactivate_mutes_of target rows w).2
  = Db (retire_in (ids_of target rows) <$> punishments (moderation w)) (next_id (moderation w))
  ∧ trace (deactivate_mutes_of target rows w).2 = trace w
  ∧ clock (deactivate_mutes_of target rows w).2 = clock w
  ∧ ticks (deactivate_mutes_of target rows w).2 = ticks w
  ∧ votemute (deactivate_mutes_of target rows w).2 = votemute w.
Proof.
  revert w. induction rows as [|p rows IH]; intros w Hk.
  - simpl. unfold ids_of. simpl. split; [|done].
    destruct (moderation w) as [m n]. simpl. f_equal.
    apply map_eq. intros j. rewrite lookup_fmap.
    destruct (m !! j); simpl; [|done]. by rewrite retire_in_nil.
  - assert (Hstep : deactivate_mutes_of target (p :: rows) w
                    = deactivate_mutes_of target rows
                        (if bool_decide (user_id p = target)
                         then World (deactivate_punishment (punishment_id p) (moderation w)).2
                                    (votemute w) (recently_processed_mutes w) (vote_cache w)
                                    (inactive_chats w) (trace w) (clock w) (ticks w)
                                    (raises w) (effective_rank w)
                         else w)).
    { simpl. unfold bind, ret, on_moderation. case_bool_decide; simpl; [|done].
      by destruct (deactivate_punishment _ _). }
    rewrite Hstep. unfold ids_of. simpl. case_bool_decide as Hu; simpl.
    + rewrite (deactivate_as_map (punishment_id p) (moderation w) Hk).
      match goal with |- context [deactivate_mutes_of target rows ?w1] =>
        destruct (IH w1) as (H1 & H2 & H3 & H4 & H5) end.
      { simpl. by apply keyed_retire. }
      rewrite H1, H2, H3, H4, H5. simpl. split; [|done]. f_equal.
      rewrite <- map_fmap_compose. apply map_fmap_ext. intros j q _. simpl.
      apply retire_in_cons.
    + destruct (IH w Hk) as (H1 & H2 & H3 & H4 & H5).
      fold (ids_of target rows). done.
Qed.

Lemma elem_of_get_active (chat : Z) (k : kind) (d : db) (q : punishment) :
  q ∈ get_active_punishments chat k d
  ↔ ∃ i, punishments d !! i = Some q ∧ is_active_of chat k q = true.
Proof.
  unfold get_active_punishments.
  rewrite list_elem_of_In, filter_In, in_map_iff. split.
  - intros [([i p] & Hp & Hin) Hact]. simpl in Hp. subst p.
    exists i. split; [|done]. by apply elem_of_map_to_list, list_elem_of_In.
  - intros (i & Hq & Hact). split; [|done]. exists (i, q). split; [done|].
    by apply list_elem_of_In, elem_of_map_to_list.
Qed.

(** An id the loop deactivates belongs to an active mute of the target in
    the chat, and on a keyed store a row with that id is that mute. *)
Lemma ids_of_rows (chat target : Z) (d : db) (i : Z) (p : punishment) :
  Scheduler.keyed d →
  punishments d !! i = Some p →
  punishment_id p ∈ ids_of target (get_active_punishments chat mute d)
  ↔ is_active_of chat mute p = true ∧ user_id p = target.
Proof.
  intros Hk Hp. unfold ids_of. rewrite list_elem_of_fmap. split.
  - intros (p' & Hid & Hin). apply list_elem_of_In, filter_In in Hin as [Hin Hu].
    apply bool_decide_eq_true_1 in Hu.
    apply list_elem_of_In, elem_of_get_active in Hin as (j & Hj & Hact).
    assert (j = i) as -> by (by rewrite <- (Hk j p' Hj), <- Hid, (Hk i p Hp)).
    rewrite Hp in Hj. injection Hj as <-. done.
  - intros [Hact Hu]. exists p. split; [done|].
    apply list_elem_of_In, filter_In. split.
    + apply list_elem_of_In, elem_of_get_active. eauto.
    + by apply bool_decide_eq_true_2.
Qed.

(** X19. re-issuing a mute overwrites.  On a keyed store whose ids are below
    the next id, when the restriction went through, [mute_command] leaves
    exactly one active mute for the target in the chat, the new one, running
    until [now + duration]; every other active punishment (other users,
    other chats, other kinds) is active as before, and nothing else is. *)
Theorem mute_command_overwrites (me : nat) (w : world) (chat target moderator duration : Z) :
  Scheduler.keyed (moderation w) →
  below_next (moderation w) →
  raises w (restrict_chat_member chat target false
              (Some (clock w (ticks w) + seconds duration))) = None →
  active_mutes_of chat target
    (moderation (mute_command_apply me chat target moderator duration w).2)
  = [Punishment (next_id (moderation w)) chat target moderator mute (Some duration)
       (Some (clock w (ticks w) + seconds duration)) true]
  ∧ ∀ chat' k q,
      q ∈ get_active_punishments chat' k
            (moderation (mute_command_apply me chat target moderator duration w).2)
      ↔ (q = Punishment (next_id (moderation w)) chat target moderator mute (Some duration)
               (Some (clock w (ticks w) + seconds duration)) true
         ∧ chat' = chat ∧ k = mute)
        ∨ (q ∈ get_active_punishments chat' k (moderation w)
           ∧ ¬ (chat_id q = chat ∧ user_id q = target ∧ punishment_type q = mute)).
Proof.
  intros Hk Hb Hok.
  set (new := Punishment (next_id (moderation w)) chat target moderator mute (Some duration)
                (Some (clock w (ticks w) + seconds duration)) true).
  set (ids := ids_of target (get_active_punishments chat mute (moderation w))).
  assert (Hmod : moderation (mute_command_apply me chat target moderator duration w).2
                 = Db (<[next_id (moderation w) := new]>
                         (retire_in ids <$> punishments (moderation w)))
                      (next_id (moderation w) + 1)).
  { unfold mute_command_apply.
    unfold bind at 1. unfold now at 1. simpl.
    unfold bind at 1. unfold perform at 1. simpl. rewrite Hok.
    unfold bind at 1. unfold read_moderation at 1, on_moderation at 1. simpl.
    unfold bind at 1.
    match goal with |- context [deactivate_mutes_of target ?rows ?w1] =>
      destruct (deactivate_mutes_of_as_map target rows w1) as (H1 & _);
      [exact Hk|]; destruct (deactivate_mutes_of target rows w1) as [u w2] end.
    simpl in H1. unfold bind, on_moderation, ret, add_punishment. simpl.
    rewrite H1. simpl. done. }
  rewrite Hmod.
  assert (Hfresh : (retire_in ids <$> punishments (moderation w)) !! next_id (moderation w)
                   = None).
  { rewrite lookup_fmap.
    destruct (punishments (moderation w) !! next_id (moderation w)) as [p|] eqn:Hp; [|done].
    specialize (Hb _ _ Hp). lia. }
  assert (Hretired : ∀ i p, punishments (moderation w) !! i = Some p →
            (is_active_of chat mute p = true ∧ user_id p = target →
               active (retire_in ids p) = false)
            ∧ (¬ (is_active_of chat mute p = true ∧ user_id p = target) →
               retire_in ids p = p)).
  { intros i p Hp. pose proof (ids_of_rows chat target (moderation w) i p Hk Hp) as Hin.
    fold ids in Hin. unfold retire_in. split; intros H.
    - by rewrite bool_decide_eq_true_2 by (by apply Hin).
    - by rewrite bool_decide_eq_false_2 by (by rewrite Hin). }
  assert (Hactive_retire : ∀ p, active (retire_in ids p) = true → retire_in ids p = p).
  { intros p. unfold retire_in. by case_bool_decide. }
  split.
  - unfold active_mutes_of, get_active_punishments. simpl.
    apply Permutation_singleton_r.
    rewrite (filter_perm _ _ _
               (filter_perm _ _ _
                  (Permutation_map snd (map_to_list_insert _ _ new Hfresh)))).
    simpl. unfold is_active_of at 1. simpl.
    rewrite !bool_decide_eq_true_2 by done. simpl.
    rewrite bool_decide_eq_true_2 by done. constructor.
    rewrite filter_filter, filter_none; [done|].
    intros q Hq. apply list_elem_of_In, in_map_iff in Hq as ([i q'] & Hq' & Hin).
    simpl in Hq'. subst q'. apply list_elem_of_In, elem_of_map_to_list in Hin.
    rewrite lookup_fmap in Hin.
    destruct (punishments (moderation w) !! i) as [p|] eqn:Hp; [|done].
    simpl in Hin. injection Hin as <-.
    destruct (Hretired i p Hp) as [Hyes Hno].
    destruct (is_active_of chat mute (retire_in ids p)) eqn:Hact; [|done]. simpl.
    apply bool_decide_eq_false_2. intros Hu.
    assert (active (retire_in ids p) = true) as Ha.
    { unfold is_active_of in Hact. by destruct (active (retire_in ids p)). }
    pose proof (Hactive_retire p Ha) as Heq. rewrite Heq in Ha, Hact, Hu.
    specialize (Hyes (conj Hact Hu)). rewrite Heq in Hyes. congruence.
  - intros chat' k q. rewrite !elem_of_get_active. simpl. split.
    + intros (i & Hq & Hact).
      destruct (decide (i = next_id (moderation w))) as [->|Hi].
      * rewrite lookup_insert_eq in Hq. injection Hq as <-. left.
        unfold is_active_of in Hact. simpl in Hact.
        apply andb_true_iff in Hact as [Hc Hkk]. apply bool_decide_eq_true_1 in Hc, Hkk.
        done.
      * rewrite lookup_insert_ne, lookup_fmap in Hq by done.
        destruct (punishments (moderation w) !! i) as [p|] eqn:Hp; [|done].
        simpl in Hq. injection Hq as <-. right.
        assert (active (retire_in ids p) = true) as Ha.
        { unfold is_active_of in Hact. by destruct (active (retire_in ids p)). }
        pose proof (Hactive_retire p Ha) as Heq. rewrite Heq in Ha, Hact |- *.
        split; [eauto|]. intros (Hc & Hu & Hm).
        destruct (Hretired i p Hp) as [Hyes _].
        rewrite Heq in Hyes. rewrite Hyes in Ha; [done|].
        split; [|done]. unfold is_active_of.
        rewrite Ha, !bool_decide_eq_true_2 by done. done.
    + intros [(-> & -> & ->)|[(i & Hq & Hact) Hnot]].
      * exists (next_id (moderation w)). rewrite lookup_insert_eq. split; [done|].
        unfold is_active_of. simpl. by rewrite !bool_decide_eq_true_2.
      * exists i. rewrite lookup_insert_ne, lookup_fmap, Hq.
        -- simpl. destruct (Hretired i q Hq) as [_ Hno]. rewrite Hno; [done|].
           intros [Hact' Hu]. apply Hnot.
           unfold is_active_of in Hact'.
           apply andb_true_iff in Hact' as [Hact' Hm].
           apply andb_true_iff in Hact' as [_ Hc].
           apply bool_decide_eq_true_1 in Hc, Hm. done.
        -- specialize (Hb _ _ Hq). lia.
Qed.

Lemma mute_command_overwrites_witness :
  active_mutes_of 10 8
    (moderation (mute_command_apply 0 10 8 99 1800 Samples.scan_world).2)
  = [Punishment 4 10 8 99 mute (Some 1800) (Some (seconds 1000 + seconds 1800)) true].
Proof.
  apply (mute_command_overwrites 0%nat Samples.scan_world 10 8 99 1800).
  - intros i p Hp. simpl in Hp.
    destruct (decide (i = 1)) as [->|?]; [by inversion Hp|].
    destruct (decide (i = 2)) as [->|?]; [by inversion Hp|].
    destruct (decide (i = 3)) as [->|?]; [by inversion Hp|].
    by rewrite !lookup_insert_ne in Hp.
  - intros i p Hp. simpl in *.
    destruct (decide (i = 1)) as [->|?]; [done|].
    destruct (decide (i = 2)) as [->|?]; [done|].
    destruct (decide (i = 3)) as [->|?]; [done|].
    by rewrite !lookup_insert_ne in Hp.
  - reflexivity.
Defined.

End MuteCommandFacts.

(** * Further properties of the expiry loops *)

Section LoopFacts.

Import Moderation Scheduler MuteLoop.

Ltac run_s :=
  unfold bind, ret, now, on_moderation, recently_processed, set_recently_processed,
         deactivate_chat, perform in *; simpl in *.

Lemma step_alone (t : task) (w : world) :
  step ([t], w) 0 = ([with_state (step_task 0 t w).1 t], (step_task 0 t w).2).
Proof. unfold step. simpl. by destruct (step_task 0 t w). Qed.

(** What a platform call of an owner does to the world. *)
Lemma owned_step_facts (i : nat) (t : task) (c : call) (rest : list call) (w : world) :
  trace (owned_step i t c rest w).2 = trace w ++ [Event i (subject_of t) c]
  ∧ moderation (owned_step i t c rest w).2 = moderation w
  ∧ recently_processed_mutes (owned_step i t c rest w).2 = recently_processed_mutes w
  ∧ raises (owned_step i t c rest w).2 = raises w
  ∧ (owned_step i t c rest w).1
    = match c, raises w c with
      | get_chat _, Some other_error => Owned []
      | _, _ => Owned rest
      end.
Proof.
  unfold owned_step. run_s.
  destruct c; try destruct t0; try destruct (raises w _) as [[]|]; done.
Qed.

Lemma step_alone_owned (t : task) (w : world) (c : call) (rest : list call) :
  state t = Owned (c :: rest) →
  ∃ w', step ([t], w) 0
        = ([with_state match c, raises w c with
                       | get_chat _, Some other_error => Owned []
                       | _, _ => Owned rest
                       end t], w')
        ∧ trace w' = trace w ++ [Event 0 (subject_of t) c]
        ∧ moderation w' = moderation w
        ∧ recently_processed_mutes w' = recently_processed_mutes w
        ∧ raises w' = raises w.
Proof.
  intros Hs. rewrite step_alone. unfold step_task. rewrite Hs.
  destruct (owned_step_facts 0 t c rest w) as (A1 & A2 & A3 & A4 & A5).
  destruct (owned_step 0 t c rest w) as [s' w']. simpl in *. subst s'. eauto 10.
Qed.

(** X20. the dedup guard of the mute loop.  After the prologue of an
    iteration, a mute whose id was noted in the cache less than 30 seconds
    before the iteration started is skipped by its body, whether it has
    expired or not: the store is not asked, no call is made, the clock is
    not read.  (The prologue keeps every entry younger than 60 seconds, so it
    never lifts the guard.) *)
Theorem recently_processed_mute_skipped (w : world) (p : punishment) (ts : Z) :
  recently_processed_mutes w !! punishment_id p = Some ts →
  clock w (ticks w) - ts < seconds 30 →
  step_task 0 (Task mute_expiry_task p (iteration_start w).1 Pending) (iteration_start w).2
  = (Skipped, (iteration_start w).2)
  ∧ moderation (iteration_start w).2 = moderation w
  ∧ trace (iteration_start w).2 = trace w.
Proof.
  intros Hts Hrecent. split; [|done].
  unfold iteration_start. simpl. unfold step_task, mute_check. run_s.
  unfold processed_recently. simpl.
  assert (prune_recently_processed (clock w (ticks w)) (recently_processed_mutes w)
            !! punishment_id p = Some ts) as ->.
  { apply map_lookup_filter_Some. split; [done|]. simpl. unfold seconds, second in *. lia. }
  by rewrite bool_decide_eq_true_2.
Qed.

Lemma recently_processed_mute_skipped_witness :
  (step_task 0
     (Task mute_expiry_task Samples.expired_mute
        (iteration_start
           (World Samples.two_mutes Samples.no_votes {[1 := seconds 990]} ∅ [] []
                  Samples.at_1000s 0 (λ _, None) (λ _ _, RANK_USER))).1 Pending)
     (iteration_start
        (World Samples.two_mutes Samples.no_votes {[1 := seconds 990]} ∅ [] []
               Samples.at_1000s 0 (λ _, None) (λ _ _, RANK_USER))).2).1
  = Skipped.
Proof.
  destruct (recently_processed_mute_skipped
              (World Samples.two_mutes Samples.no_votes {[1 := seconds 990]} ∅ [] []
                     Samples.at_1000s 0 (λ _, None) (λ _ _, RANK_USER))
              Samples.expired_mute (seconds 990)) as [H _].
  - reflexivity.
  - vm_compute. reflexivity.
  - rewrite H. reflexivity.
Defined.

(** X21. a mute body on its own.  A body that checks an active mute whose
    expiry date is not later than the clock, and whose id is not in the dedup
    cache, deactivates the mute, notes the id in the cache, lifts the
    restriction and posts the notice, in this order, within four steps. *)
Theorem lone_mute_body_reverses (w : world) (p : punishment) (started e : Z) :
  punishments (moderation w) !! punishment_id p = Some p →
  active p = true →
  expiry_date p = Some e →
  e <= clock w (ticks w) →
  recently_processed_mutes w !! punishment_id p = None →
  map state (run [0; 0; 0; 0]%nat ([Task mute_expiry_task p started Pending], w)).1
  = [Owned []]
  ∧ punishments (moderation (run [0; 0; 0; 0]%nat
                               ([Task mute_expiry_task p started Pending], w)).2)
      !! punishment_id p
    = Some (retire p)
  ∧ trace (run [0; 0; 0; 0]%nat ([Task mute_expiry_task p started Pending], w)).2
    = trace w
      ++ [Event 0 (Some (punishment_id p))
            (restrict_chat_member (chat_id p) (user_id p) true None);
          Event 0 (Some (punishment_id p)) (send_message (chat_id p) text_unmuted)]
  ∧ recently_processed_mutes
      (run [0; 0; 0; 0]%nat ([Task mute_expiry_task p started Pending], w)).2
      !! punishment_id p
    = Some started.
Proof.
  intros Hp Ha He Hdue Hnew.
  assert (H1 : step ([Task mute_expiry_task p started Pending], w) 0
               = ([Task mute_expiry_task p started (Returned true)],
                  World (Db (<[punishment_id p := retire p]> (punishments (moderation w)))
                            (next_id (moderation w)))
                        (votemute w) (recently_processed_mutes w) (vote_cache w)
                        (inactive_chats w) (trace w) (clock w) (S (ticks w)) (raises w)
                        (effective_rank w))).
  { rewrite step_alone. unfold step_task, mute_check, processed_recently. run_s.
    rewrite Hnew, He. simpl.
    rewrite bool_decide_eq_false_2 by lia. rewrite bool_decide_eq_true_2 by lia.
    unfold deactivate_punishment. simpl. rewrite Hp, Ha. done. }
  assert (H2 : step ([Task mute_expiry_task p started (Returned true)],
                     World (Db (<[punishment_id p := retire p]> (punishments (moderation w)))
                               (next_id (moderation w)))
                           (votemute w) (recently_processed_mutes w) (vote_cache w)
                           (inactive_chats w) (trace w) (clock w) (S (ticks w)) (raises w)
                           (effective_rank w)) 0
               = ([Task mute_expiry_task p started
                     (Owned [restrict_chat_member (chat_id p) (user_id p) true None;
                             send_message (chat_id p) text_unmuted])],
                  World (Db (<[punishment_id p := retire p]> (punishments (moderation w)))
                            (next_id (moderation w)))
                        (votemute w)
                        (<[punishment_id p := started]> (recently_processed_mutes w))
                        (vote_cache w) (inactive_chats w) (trace w) (clock w) (S (ticks w))
                        (raises w) (effective_rank w))).
  { rewrite step_alone. reflexivity. }
  unfold run. simpl fold_left. rewrite H1, H2. clear H1 H2.
  match goal with |- context [step ([?t], ?w0) 0] =>
    destruct (step_alone_owned t w0 _ _ eq_refl) as (w3 & E3 & A1 & A2 & A3 & A4) end.
  rewrite E3. clear E3. simpl in A1, A2, A3, A4 |- *. unfold with_state. simpl.
  match goal with |- context [step ([?t], ?w0) 0] =>
    destruct (step_alone_owned t w0 _ _ eq_refl) as (w4 & E4 & B1 & B2 & B3 & B4) end.
  rewrite E4. clear E4. simpl in B1, B2, B3, B4 |- *.
  rewrite B1, B2, B3, A1, A2, A3. simpl.
  rewrite <- app_assoc, !lookup_insert_eq. done.
Qed.

Lemma lone_mute_body_reverses_witness :
  map state
    (run [0; 0; 0; 0]%nat
       ([Task mute_expiry_task Samples.expired_mute (seconds 1000) Pending],
        Samples.scan_world)).1
  = [Owned []].
Proof.
  apply (lone_mute_body_reverses Samples.scan_world Samples.expired_mute (seconds 1000)
           (seconds 900)).
  - reflexivity.
  - reflexivity.
  - reflexivity.
  - vm_compute. discriminate.
  - reflexivity.
Defined.

(** X22. a ban body on its own.  A body of the ban loop that checks an active
    ban whose expiry date is not later than the clock deactivates it, unbans
    the user, posts the notice in the chat and asks for the chat; the private
    notice to the user follows unless [get_chat] failed with an error other
    than "chat not found".  The ban loop never writes to the dedup cache. *)
Theorem lone_ban_body_reverses (w : world) (p : punishment) (started e : Z) :
  punishments (moderation w) !! punishment_id p = Some p →
  active p = true →
  expiry_date p = Some e →
  e <= clock w (ticks w) →
  map state (run [0; 0; 0; 0; 0; 0]%nat ([Task ban_expiry_task p started Pending], w)).1
  = [Owned []]
  ∧ punishments (moderation (run [0; 0; 0; 0; 0; 0]%nat
                               ([Task ban_expiry_task p started Pending], w)).2)
      !! punishment_id p
    = Some (retire p)
  ∧ map what (trace (run [0; 0; 0; 0; 0; 0]%nat
                       ([Task ban_expiry_task p started Pending], w)).2)
    = map what (trace w)
      ++ [unban_chat_member (chat_id p) (user_id p);
          send_message (chat_id p) text_unbanned;
          get_chat (chat_id p)]
      ++ match raises w (get_chat (chat_id p)) with
         | Some other_error => []
         | _ => [send_message (user_id p) text_unbanned_private]
         end
  ∧ recently_processed_mutes
      (run [0; 0; 0; 0; 0; 0]%nat ([Task ban_expiry_task p started Pending], w)).2
    = recently_processed_mutes w.
Proof.
  intros Hp Ha He Hdue.
  assert (H1 : step ([Task ban_expiry_task p started Pending], w) 0
               = ([Task ban_expiry_task p started (Returned true)],
                  World (Db (<[punishment_id p := retire p]> (punishments (moderation w)))
                            (next_id (moderation w)))
                        (votemute w) (recently_processed_mutes w) (vote_cache w)
                        (inactive_chats w) (trace w) (clock w) (S (ticks w)) (raises w)
                        (effective_rank w))).
  { rewrite step_alone. unfold step_task, ban_check. run_s.
    rewrite He. simpl. rewrite bool_decide_eq_true_2 by lia.
    unfold deactivate_punishment. simpl. rewrite Hp, Ha. done. }
  assert (H2 : step ([Task ban_expiry_task p started (Returned true)],
                     World (Db (<[punishment_id p := retire p]> (punishments (moderation w)))
                               (next_id (moderation w)))
                           (votemute w) (recently_processed_mutes w) (vote_cache w)
                           (inactive_chats w) (trace w) (clock w) (S (ticks w)) (raises w)
                           (effective_rank w)) 0
               = ([Task ban_expiry_task p started
                     (Owned [unban_chat_member (chat_id p) (user_id p);
                             send_message (chat_id p) text_unbanned;
                             get_chat (chat_id p);
                             send_message (user_id p) text_unbanned_private])],
                  World (Db (<[punishment_id p := retire p]> (punishments (moderation w)))
                            (next_id (moderation w)))
                        (votemute w) (recently_processed_mutes w)
                        (vote_cache w) (inactive_chats w) (trace w) (clock w) (S (ticks w))
                        (raises w) (effective_rank w))).
  { rewrite step_alone. reflexivity. }
  unfold run. simpl fold_left. rewrite H1, H2. clear H1 H2.
  match goal with |- context [step ([?t], ?w0) 0] =>
    destruct (step_alone_owned t w0 _ _ eq_refl) as (w3 & E3 & A1 & A2 & A3 & A4) end.
  rewrite E3. clear E3. simpl in A1, A2, A3, A4 |- *. unfold with_state. simpl.
  match goal with |- context [step ([?t], ?w0) 0] =>
    destruct (step_alone_owned t w0 _ _ eq_refl) as (w4 & E4 & B1 & B2 & B3 & B4) end.
  rewrite E4. clear E4. simpl in B1, B2, B3, B4 |- *. unfold with_state. simpl.
  match goal with |- context [step ([?t], ?w0) 0] =>
    destruct (step_alone_owned t w0 _ _ eq_refl) as (w5 & E5 & C1 & C2 & C3 & C4) end.
  rewrite E5. clear E5. simpl in C1, C2, C3, C4 |- *. unfold with_state. simpl.
  rewrite B4, A4. simpl.
  assert (Hthree : map what (trace w5)
                   = map what (trace w)
                     ++ [unban_chat_member (chat_id p) (user_id p);
                         send_message (chat_id p) text_unbanned;
                         get_chat (chat_id p)]).
  { rewrite C1, B1, A1. rewrite !map_app. simpl. rewrite <- !app_assoc. done. }
  assert (Hstore : punishments (moderation w5) !! punishment_id p = Some (retire p))
    by (rewrite C2, B2, A2; simpl; apply lookup_insert_eq).
  assert (Hcache : recently_processed_mutes w5 = recently_processed_mutes w)
    by (by rewrite C3, B3, A3).
  destruct (raises w (get_chat (chat_id p))) as [[]|] eqn:Hraise.
  - match goal with |- context [step ([?t], ?w0) 0] =>
      destruct (step_alone_owned t w0 _ _ eq_refl) as (w6 & E6 & D1 & D2 & D3 & D4) end.
    rewrite E6. clear E6. simpl in D1, D2, D3, D4 |- *.
    rewrite D1, D2, D3, map_app, Hthree, Hstore, Hcache. simpl.
    rewrite <- !app_assoc. done.
  - rewrite step_alone. simpl. rewrite Hthree, Hstore, Hcache. done.
  - match goal with |- context [step ([?t], ?w0) 0] =>
      destruct (step_alone_owned t w0 _ _ eq_refl) as (w6 & E6 & D1 & D2 & D3 & D4) end.
    rewrite E6. clear E6. simpl in D1, D2, D3, D4 |- *.
    rewrite D1, D2, D3, map_app, Hthree, Hstore, Hcache. simpl.
    rewrite <- !app_assoc. done.
Qed.

Lemma lone_ban_body_reverses_witness :
  map state
    (run [0; 0; 0; 0; 0; 0]%nat
       ([Task ban_expiry_task
           (Punishment 5 10 9 99 ban (Some 60) (Some (seconds 900)) true)
           (seconds 1000) Pending],
        Samples.quiet_world
          (Db {[5 := Punishment 5 10 9 99 ban (Some 60) (Some (seconds 900)) true]} 6)
          Samples.no_votes Samples.at_1000s)).1
  = [Owned []].
Proof.
  apply (lone_ban_body_reverses
           (Samples.quiet_world
              (Db {[5 := Punishment 5 10 9 99 ban (Some 60) (Some (seconds 900)) true]} 6)
              Samples.no_votes Samples.at_1000s)
           (Punishment 5 10 9 99 ban (Some 60) (Some (seconds 900)) true)
           (seconds 1000) (seconds 900)).
  - reflexivity.
  - reflexivity.
  - reflexivity.
  - vm_compute. discriminate.
Defined.

End LoopFacts.

Section FriendsFacts.

Import Friends.

Lemma are_friends_iff (a b : Z) (d : db) :
  are_friends a b d = true
  ↔ ∃ f, f ∈ friendships d
         ∧ (user_id_1 f = a ∧ user_id_2 f = b ∨ user_id_1 f = b ∧ user_id_2 f = a).
Proof.
  unfold are_friends, stored. rewrite existsb_exists. split.
  - intros (f & Hin & Hf). exists f. rewrite list_elem_of_In. split; [done|].
    apply orb_true_iff in Hf as [Hf|Hf]; apply andb_true_iff in Hf as [H1 H2];
      apply bool_decide_eq_true in H1, H2; tauto.
  - intros (f & Hin & Hf). exists f. rewrite <- list_elem_of_In. split; [done|].
    apply orb_true_iff.
    destruct Hf as [[H1 H2]|[H1 H2]]; [left|right];
      apply andb_true_iff; split; by apply bool_decide_eq_true.
Qed.

Lemma are_friends_sym (a b : Z) (d : db) : are_friends a b d = are_friends b a d.
Proof.
  apply eq_true_iff_eq. rewrite !are_friends_iff.
  split; intros (f & ? & ?); exists f; tauto.
Qed.

Lemma stored_ordered_iff (a b : Z) (d : db) :
  ordered d →
  existsb (stored (Z.min a b) (Z.max a b)) (friendships d) = are_friends a b d.
Proof.
  intros Hord. apply eq_true_iff_eq. rewrite are_friends_iff, existsb_exists. split.
  - intros (f & Hin & Hf). exists f. rewrite list_elem_of_In. split; [done|].
    apply andb_true_iff in Hf as [H1 H2]. apply bool_decide_eq_true in H1, H2. lia.
  - intros (f & Hin & Hf). exists f. rewrite <- list_elem_of_In. split; [done|].
    specialize (Hord f Hin).
    apply andb_true_iff; split; apply bool_decide_eq_true; lia.
Qed.

(** X23. [add_friendship] and [are_friends].  In a table whose pairs are
    stored smaller id first, [add_friendship] returns [True] exactly when
    the two were not friends, in whichever order they are named; a [False]
    leaves the tables as they were; and afterwards the two are friends in
    both directions and the pairs are still stored smaller id first. *)
Theorem add_friendship_symmetric (d : db) (now a b : Z) :
  ordered d →
  (add_friendship now a b d).1 = negb (are_friends a b d)
  ∧ (add_friendship now a b d).1 = negb (are_friends b a d)
  ∧ ((add_friendship now a b d).1 = false → (add_friendship now a b d).2 = d)
  ∧ are_friends a b (add_friendship now a b d).2 = true
  ∧ are_friends b a (add_friendship now a b d).2 = true
  ∧ ordered (add_friendship now a b d).2.
Proof.
  intros Hord. unfold add_friendship.
  rewrite (stored_ordered_iff a b d Hord), <- (are_friends_sym a b d).
  destruct (are_friends a b d) eqn:Hf; simpl.
  - repeat split; try done. by rewrite are_friends_sym.
  - assert (Hnew : are_friends a b
                     (Db (List.filter (λ r, negb (bool_decide (user_id r = a))) (friend_codes d))
                         (friendships d ++ [Friendship (Z.min a b) (Z.max a b) now])) = true).
    { apply are_friends_iff. exists (Friendship (Z.min a b) (Z.max a b) now). simpl.
      split; [apply elem_of_app; right; by apply list_elem_of_singleton | lia]. }
    repeat split; try done.
    + by rewrite are_friends_sym.
    + intros f Hin. simpl in Hin. apply elem_of_app in Hin as [Hin|Hin]; [by apply Hord|].
      apply list_elem_of_singleton in Hin as ->. simpl. lia.
Qed.

Lemma add_friendship_symmetric_witness :
  (add_friendship 7 2 1 (Db [FriendCode 2 "424242" 9 1] [Friendship 1 3 5])).1 = true
  ∧ are_friends 1 2
      (add_friendship 7 2 1 (Db [FriendCode 2 "424242" 9 1] [Friendship 1 3 5])).2 = true
  ∧ (add_friendship 8 1 3 (Db [FriendCode 2 "424242" 9 1] [Friendship 1 3 5])).1 = false.
Proof.
  destruct (add_friendship_symmetric (Db [FriendCode 2 "424242" 9 1] [Friendship 1 3 5])
              7 2 1) as (H1 & _ & _ & _ & H2 & _).
  - intros f Hin. apply list_elem_of_singleton in Hin as ->. simpl. lia.
  - destruct (add_friendship_symmetric (Db [FriendCode 2 "424242" 9 1] [Friendship 1 3 5])
                8 1 3) as (H3 & _).
    + intros f Hin. apply list_elem_of_singleton in Hin as ->. simpl. lia.
    + split; [exact H1|]. split; [exact H2 | exact H3].
Defined.

(** X24. [remove_friendship].  It ends the friendship in both directions,
    however the pair was stored and in whichever order it is named, tells
    whether there was one, and touches no friendship of another pair and no
    code. *)
Theorem remove_friendship_both_ways (d : db) (a b : Z) :
  (remove_friendship a b d).1 = are_friends b a d
  ∧ are_friends a b (remove_friendship a b d).2 = false
  ∧ are_friends b a (remove_friendship a b d).2 = false
  ∧ (∀ c e, ¬ (c = a ∧ e = b) → ¬ (c = b ∧ e = a) →
       are_friends c e (remove_friendship a b d).2 = are_friends c e d)
  ∧ friend_codes (remove_friendship a b d).2 = friend_codes d
  ∧ (remove_friendship a b d).2 = (remove_friendship b a d).2.
Proof.
  assert (Hin : ∀ f, f ∈ friendships (remove_friendship a b d).2
                     ↔ f ∈ friendships d
                       ∧ ¬ (user_id_1 f = a ∧ user_id_2 f = b
                            ∨ user_id_1 f = b ∧ user_id_2 f = a)).
  { intros f. unfold remove_friendship, stored. simpl.
    rewrite !list_elem_of_In, filter_In, negb_true_iff, orb_false_iff, !andb_false_iff,
      !bool_decide_eq_false. split; intros [? ?]; split; try done; lia. }
  split; [unfold remove_friendship; simpl; apply are_friends_sym|].
  assert (Hgone : are_friends a b (remove_friendship a b d).2 = false).
  { apply not_true_iff_false. rewrite are_friends_iff. intros (f & Hf & Hp).
    apply Hin in Hf as [_ Hf]. tauto. }
  split; [done|]. split; [by rewrite are_friends_sym|].
  split; [|split; [done|]].
  - intros c e H1 H2. apply eq_true_iff_eq. rewrite !are_friends_iff.
    split; intros (f & Hf & Hp); exists f.
    + apply Hin in Hf as [Hf _]. done.
    + split; [|done]. apply Hin. split; [done|]. lia.
  - unfold remove_friendship. simpl. f_equal.
    apply filter_ext. intros f. by rewrite orb_comm.
Qed.

Lemma remove_friendship_both_ways_witness :
  are_friends 2 3 (remove_friendship 2 1 (Db [] [Friendship 1 2 7; Friendship 2 3 8])).2
  = are_friends 2 3 (Db [] [Friendship 1 2 7; Friendship 2 3 8]).
Proof.
  destruct (remove_friendship_both_ways (Db [] [Friendship 1 2 7; Friendship 2 3 8]) 2 1)
    as (_ & _ & _ & H & _).
  apply H; lia.
Defined.

Lemma filter_app_length {A} (f : A → bool) (l : list A) (x : A) :
  length (List.filter f (l ++ [x]))
  = (length (List.filter f l) + (if f x then 1 else 0))%nat.
Proof.
  rewrite List.filter_app, length_app. simpl. by destruct (f x).
Qed.

(** X25. [/addfriend].  When the code is in the table and not past its date,
    its creator is neither the sender nor the id 0, the two are not friends
    and the sender has fewer than five friends, the friendship is stored
    whatever happens next: the two are friends in both directions, each has
    one friend more (so the sender has at most five, while nothing bounds
    the creator's count), and the creator has no code left.  The sender is
    told that the friend was added unless [db.get_user] or the sending of
    that answer raised; then the sender is told the generic error although
    the friendship is stored and the code is gone.  The answer that the
    friend was added is given in this case only, and in every other case
    the tables are left as they were. *)
Theorem addfriend_command_adds (fails : outcome → bool) (get_user_fails : bool) (d : db)
    (now now' : Z) (c : string) (user : Z) :
  (∀ r, find_code c d = Some r → now <= expires_at r → user_id r ≠ user → user_id r ≠ 0 →
     are_friends (user_id r) user d = false → get_friend_count user d < 5 →
     (addfriend_command fails get_user_fails now now' c user d).1
     = (if get_user_fails || fails (added (user_id r)) then generic_error
        else added (user_id r))
     ∧ are_friends (user_id r) user
         (addfriend_command fails get_user_fails now now' c user d).2 = true
     ∧ are_friends user (user_id r)
         (addfriend_command fails get_user_fails now now' c user d).2 = true
     ∧ get_friend_count user (addfriend_command fails get_user_fails now now' c user d).2
       = get_friend_count user d + 1
     ∧ get_friend_count (user_id r)
         (addfriend_command fails get_user_fails now now' c user d).2
       = get_friend_count (user_id r) d + 1
     ∧ ∀ r0, r0 ∈ friend_codes (addfriend_command fails get_user_fails now now' c user d).2 →
         user_id r0 ≠ user_id r)
  ∧ (∀ creator,
       (addfriend_command fails get_user_fails now now' c user d).1 = added creator →
       ∃ r, find_code c d = Some r ∧ user_id r = creator ∧ now <= expires_at r
            ∧ creator ≠ user ∧ creator ≠ 0
            ∧ are_friends creator user d = false ∧ get_friend_count user d < 5)
  ∧ ((addfriend_command fails get_user_fails now now' c user d).2 = d
     ∨ ∃ r, find_code c d = Some r ∧ now <= expires_at r
            ∧ user_id r ≠ user ∧ user_id r ≠ 0
            ∧ are_friends (user_id r) user d = false ∧ get_friend_count user d < 5).
Proof.
  assert (Hanswer : ∀ o d0, (∀ creator, o ≠ added creator) →
            (∀ creator, (answer_in_try fails o d0).1 ≠ added creator)
            ∧ (answer_in_try fails o d0).2 = d0).
  { intros o d0 Ho. unfold answer_in_try. destruct (fails o); simpl; [done|]. by split. }
  unfold addfriend_command, validate_code.
  destruct (find_code c d) as [r|] eqn:Hfind; simpl.
  2: { destruct (Hanswer (refused code_not_found) d) as [H1 H2]; [done|].
       split; [discriminate|]. split; [|by left]. intros creator H. by destruct (H1 creator). }
  destruct (bool_decide (expires_at r < now)) eqn:Hexp; simpl.
  { apply bool_decide_eq_true in Hexp.
    destruct (Hanswer (refused code_expired) d) as [H1 H2]; [done|].
    split; [intros r' [= <-]; lia|]. split; [|by left].
    intros creator H. by destruct (H1 creator). }
  destruct (bool_decide (user_id r = user)) eqn:Hown; simpl.
  { apply bool_decide_eq_true in Hown.
    destruct (Hanswer (refused code_own) d) as [H1 H2]; [done|].
    split; [intros r' [= <-]; done|]. split; [|by left].
    intros creator H. by destruct (H1 creator). }
  destruct (are_friends (user_id r) user d) eqn:Hfr; simpl.
  { destruct (Hanswer (refused code_already) d) as [H1 H2]; [done|].
    split; [intros r' [= <-]; congruence|]. split; [|by left].
    intros creator H. by destruct (H1 creator). }
  destruct (bool_decide (5 <= get_friend_count user d)) eqn:Hlim; simpl.
  { apply bool_decide_eq_true in Hlim.
    destruct (Hanswer limit_reached d) as [H1 H2]; [done|].
    split; [intros r' [= <-]; lia|]. split; [|by left].
    intros creator H. by destruct (H1 creator). }
  destruct (bool_decide (user_id r = 0)) eqn:Hzero; simpl.
  { apply bool_decide_eq_true in Hzero.
    destruct (Hanswer creator_missing d) as [H1 H2]; [done|].
    split; [intros r' [= <-]; done|]. split; [|by left].
    intros creator H. by destruct (H1 creator). }
  apply bool_decide_eq_false in Hexp, Hown, Hlim, Hzero.
  assert (Hnot : existsb (stored (Z.min (user_id r) user) (Z.max (user_id r) user))
                   (friendships d) = false).
  { apply not_true_iff_false. intros H. apply existsb_exists in H as (f & Hin & Hf).
    apply not_true_iff_false in Hfr. apply Hfr, are_friends_iff.
    exists f. split; [by apply list_elem_of_In|].
    apply andb_true_iff in Hf as [H1 H2]. apply bool_decide_eq_true in H1, H2. lia. }
  unfold add_friendship. rewrite Hnot.
  set (d' := Db (List.filter (λ r0, negb (bool_decide (user_id r0 = user_id r)))
                   (friend_codes d))
                (friendships d
                 ++ [Friendship (Z.min (user_id r) user) (Z.max (user_id r) user) now'])).
  assert (Hstate : (if get_user_fails then (generic_error, d')
                    else answer_in_try fails (added (user_id r)) d').2 = d').
  { destruct get_user_fails; [done|]. unfold answer_in_try. by destruct (fails _). }
  assert (Htold : (if get_user_fails then (generic_error, d')
                   else answer_in_try fails (added (user_id r)) d').1
                  = if get_user_fails || fails (added (user_id r)) then generic_error
                    else added (user_id r)).
  { destruct get_user_fails; [done|]. unfold answer_in_try. by destruct (fails _). }
  rewrite Hstate, Htold.
  assert (Hnew : are_friends (user_id r) user d' = true).
  { apply are_friends_iff.
    exists (Friendship (Z.min (user_id r) user) (Z.max (user_id r) user) now'). simpl.
    split; [apply elem_of_app; right; by apply list_elem_of_singleton | lia]. }
  split; [|split].
  - intros r' [= <-] _ _ _ _ _.
    split; [done|]. split; [done|]. split; [by rewrite are_friends_sym|].
    unfold get_friend_count. simpl. rewrite !filter_app_length.
    split; [|split].
    + unfold involves. simpl.
      destruct (bool_decide (Z.min (user_id r) user = user)) eqn:H1;
        destruct (bool_decide (Z.max (user_id r) user = user)) eqn:H2; simpl; try lia.
      apply bool_decide_eq_false in H1, H2. lia.
    + unfold involves. simpl.
      destruct (bool_decide (Z.min (user_id r) user = user_id r)) eqn:H1;
        destruct (bool_decide (Z.max (user_id r) user = user_id r)) eqn:H2; simpl; try lia.
      apply bool_decide_eq_false in H1, H2. lia.
    + intros r0 Hin. apply list_elem_of_In, filter_In in Hin as [_ Hin].
      apply negb_true_iff, bool_decide_eq_false in Hin. done.
  - intros creator Hc. exists r.
    destruct (get_user_fails || fails (added (user_id r))); [discriminate|].
    injection Hc as <-. repeat split; try done; lia.
  - right. exists r. repeat split; try done; lia.
Qed.

(** User 2 redeems the code of user 1; when [db.get_user] raises, user 2 is
    told the generic error and the two are friends all the same. *)
Lemma addfriend_command_adds_witness :
  (addfriend_command (λ _, false) false (seconds 1000) (seconds 1001) "424242" 2
     (Db [FriendCode 1 "424242" (seconds 1500) (seconds 900)] [])).1 = added 1
  ∧ (addfriend_command (λ _, false) true (seconds 1000) (seconds 1001) "424242" 2
       (Db [FriendCode 1 "424242" (seconds 1500) (seconds 900)] [])).1 = generic_error
  ∧ are_friends 1 2
      (addfriend_command (λ _, false) true (seconds 1000) (seconds 1001) "424242" 2
         (Db [FriendCode 1 "424242" (seconds 1500) (seconds 900)] [])).2 = true.
Proof.
  destruct (addfriend_command_adds (λ _, false) false
              (Db [FriendCode 1 "424242" (seconds 1500) (seconds 900)] [])
              (seconds 1000) (seconds 1001) "424242" 2) as [H _].
  destruct (addfriend_command_adds (λ _, false) true
              (Db [FriendCode 1 "424242" (seconds 1500) (seconds 900)] [])
              (seconds 1000) (seconds 1001) "424242" 2) as [H' _].
  destruct (H (FriendCode 1 "424242" (seconds 1500) (seconds 900))) as (H1 & _);
    [reflexivity | vm_compute; discriminate | discriminate | discriminate
    | reflexivity | reflexivity |].
  destruct (H' (FriendCode 1 "424242" (seconds 1500) (seconds 900))) as (H2 & H3 & _);
    [reflexivity | vm_compute; discriminate | discriminate | discriminate
    | reflexivity | reflexivity |].
  split; [exact H1|]. split; [exact H2 | exact H3].
Defined.

Lemma find_insert_code (f : friend_code → bool) (r : friend_code) (l : list friend_code) :
  f r = true → (∀ x, x ∈ l → f x = false) →
  List.find f (insert_code r l) = Some r.
Proof.
  intros Hr. induction l as [|x l IH]; intros Hl; simpl; [by rewrite Hr|].
  case_bool_decide; simpl; [by rewrite Hr|].
  rewrite (Hl x) by (by left). apply IH. intros y Hy. apply Hl. by right.
Qed.

Lemma filter_insert_code (f : friend_code → bool) (r : friend_code) (l : list friend_code) :
  f r = true → (∀ x, x ∈ l → f x = false) →
  List.filter f (insert_code r l) = [r].
Proof.
  intros Hr. induction l as [|x l IH]; intros Hl; simpl; [by rewrite Hr|].
  assert (Hnone : List.filter f l = []).
  { clear IH. induction l as [|y l IH]; simpl; [done|].
    rewrite (Hl y) by (right; by left). apply IH.
    intros z Hz. apply Hl. apply elem_of_cons in Hz as [->|Hz]; [by left|].
    right; by right. }
  case_bool_decide; simpl.
  - by rewrite Hr, (Hl x), Hnone by (by left).
  - rewrite (Hl x) by (by left). apply IH. intros y Hy. apply Hl. by right.
Qed.

(** X26. a generated code can be redeemed.  After [generate_friend_code], if
    no code of another user that survived the purge equals the new one, the
    user holds exactly one code, the new one; until ten minutes after the
    reading of the clock it is valid for every other user who is not yet a
    friend and names the generating user as creator; the generating user
    cannot redeem it; and after those ten minutes it is refused as
    expired. *)
Theorem generate_friend_code_redeemable (d : db) (now now' now'' : Z) (fresh : string)
    (user : Z) :
  (∀ r, r ∈ friend_codes d → user_id r ≠ user → now <= expires_at r → code r ≠ fresh) →
  (generate_friend_code now now' now'' fresh user d).1 = fresh
  ∧ List.filter (λ r, bool_decide (user_id r = user))
      (friend_codes (generate_friend_code now now' now'' fresh user d).2)
    = [FriendCode user fresh (now' + minutes 10) now'']
  ∧ (∀ t other, t <= now' + minutes 10 → other ≠ user →
       are_friends user other d = false →
       validate_code t fresh other (generate_friend_code now now' now'' fresh user d).2
       = (true, code_valid user))
  ∧ (∀ t, t <= now' + minutes 10 →
       validate_code t fresh user (generate_friend_code now now' now'' fresh user d).2
       = (false, code_own))
  ∧ (∀ t other, now' + minutes 10 < t →
       validate_code t fresh other (generate_friend_code now now' now'' fresh user d).2
       = (false, code_expired)).
Proof.
  intros Hfresh.
  set (kept := List.filter (λ r, negb (bool_decide (user_id r = user)))
                 (List.filter (λ r, negb (bool_decide (expires_at r < now))) (friend_codes d))).
  assert (Hkept : ∀ x, x ∈ kept → user_id x ≠ user ∧ code x ≠ fresh).
  { intros x Hx. apply list_elem_of_In, filter_In in Hx as [Hx Hu].
    apply filter_In in Hx as [Hx He].
    apply negb_true_iff, bool_decide_eq_false in Hu, He.
    split; [done|]. apply Hfresh; [by apply list_elem_of_In | done | lia]. }
  assert (Hfind : find_code fresh (generate_friend_code now now' now'' fresh user d).2
                  = Some (FriendCode user fresh (now' + minutes 10) now'')).
  { unfold find_code, generate_friend_code. simpl. fold kept.
    apply find_insert_code; [by apply bool_decide_eq_true|].
    intros x Hx. apply bool_decide_eq_false. by apply Hkept. }
  split; [done|]. split; [|split; [|split]].
  - unfold generate_friend_code. simpl. fold kept.
    apply filter_insert_code; [by apply bool_decide_eq_true|].
    intros x Hx. apply bool_decide_eq_false. by apply Hkept.
  - intros t other Ht Hother Hfr. unfold validate_code. rewrite Hfind. simpl.
    rewrite bool_decide_eq_false_2 by lia.
    rewrite bool_decide_eq_false_2 by done.
    unfold are_friends in *. simpl. by rewrite Hfr.
  - intros t Ht. unfold validate_code. rewrite Hfind. simpl.
    rewrite bool_decide_eq_false_2 by lia.
    by rewrite bool_decide_eq_true_2.
  - intros t other Ht. unfold validate_code. rewrite Hfind. simpl.
    by rewrite bool_decide_eq_true_2 by lia.
Qed.

Lemma generate_friend_code_redeemable_witness :
  validate_code (seconds 1300) "424242" 2
    (generate_friend_code (seconds 1000) (seconds 1000) (seconds 1000) "424242" 1
       (Db [FriendCode 3 "111111" (seconds 1500) (seconds 900)] [])).2
  = (true, code_valid 1).
Proof.
  destruct (generate_friend_code_redeemable
              (Db [FriendCode 3 "111111" (seconds 1500) (seconds 900)] [])
              (seconds 1000) (seconds 1000) (seconds 1000) "424242" 1) as (_ & _ & H & _).
  - intros r Hr _ _. apply list_elem_of_singleton in Hr as ->. discriminate.
  - apply H; [vm_compute; discriminate | discriminate | reflexivity].
Defined.

Lemma insert_newest_perm (x : Z * Z) (l : list (Z * Z)) : insert_newest x l ≡ₚ x :: l.
Proof.
  induction l as [|y l IH]; simpl; [done|].
  case_bool_decide; [done|]. rewrite IH. apply Permutation_swap.
Qed.

Lemma sort_newest_perm (l : list (Z * Z)) : fold_right insert_newest [] l ≡ₚ l.
Proof.
  induction l as [|x l IH]; simpl; [done|]. by rewrite insert_newest_perm, IH.
Qed.

Lemma insert_newest_sorted (x : Z * Z) (l : list (Z * Z)) :
  StronglySorted (λ y z, z.2 <= y.2) l →
  StronglySorted (λ y z, z.2 <= y.2) (insert_newest x l).
Proof.
  induction 1 as [|y l Hs IH Hy]; simpl; [repeat constructor|].
  case_bool_decide.
  - constructor; [by constructor|]. constructor; [lia|].
    eapply Forall_impl; [exact Hy|]. simpl. intros; lia.
  - constructor; [done|].
    rewrite insert_newest_perm. constructor; [lia|done].
Qed.

(** X27. [get_friends], [get_friend_count] and [are_friends] agree.  The list
    has as many entries as the count says, it names exactly the users who
    are friends of the user, and it is ordered from the newest friendship to
    the oldest. *)
Theorem get_friends_lists (d : db) (u : Z) :
  get_friend_count u d = Z.of_nat (length (get_friends u d))
  ∧ (∀ f, f ∈ (get_friends u d).*1 ↔ are_friends u f d = true)
  ∧ StronglySorted (λ y z, z.2 <= y.2) (get_friends u d).
Proof.
  unfold get_friends, get_friend_count. split; [|split].
  - by rewrite sort_newest_perm, length_map.
  - intros f. rewrite sort_newest_perm, are_friends_iff, list_elem_of_fmap. split.
    + intros ([f' t] & -> & Hin). simpl.
      apply list_elem_of_fmap in Hin as (row & Hrow & Hin).
      apply list_elem_of_In, filter_In in Hin as [Hin Hinv].
      exists row. split; [by apply list_elem_of_In|].
      unfold friend_of in Hrow. injection Hrow as -> _.
      destruct (decide (user_id_1 row = u)) as [E|E].
      * rewrite bool_decide_eq_true_2 by done. by left.
      * rewrite bool_decide_eq_false_2 by done. right. split; [done|].
        unfold involves in Hinv.
        apply orb_true_iff in Hinv as [Hinv|Hinv]; apply bool_decide_eq_true in Hinv; done.
    + intros (row & Hin & Hp).
      exists (friend_of u row). split.
      * unfold friend_of. simpl. case_bool_decide; destruct Hp as [[? ?]|[? ?]]; congruence.
      * apply list_elem_of_fmap. exists row. split; [done|].
        apply list_elem_of_In, filter_In. split; [by apply list_elem_of_In|].
        unfold involves. apply orb_true_iff.
        destruct Hp as [[? ?]|[? ?]]; [left|right]; by apply bool_decide_eq_true.
  - induction (map (friend_of u) (List.filter (involves u) (friendships d))) as [|x l IH];
      simpl; [constructor|]. by apply insert_newest_sorted.
Qed.

End FriendsFacts.

Section DurationFacts.

Import Durations.

(** X28. [format_mute_duration] never overstates.  The printed duration stands
    for at most the seconds given; below an hour it is exact, below a day it
    drops less than a minute, from a day on less than an hour; and apart
    from the leading number no part that is printed is zero. *)
Theorem format_mute_duration_truncates (s : Z) :
  stands_for (format_mute_duration s) <= s
  ∧ (s < 3600 → stands_for (format_mute_duration s) = s)
  ∧ (s < 86400 → s - stands_for (format_mute_duration s) < 60)
  ∧ s - stands_for (format_mute_duration s) < 3600
  ∧ ∀ x, x ∈ tail (format_mute_duration s) → 0 < x.1.
Proof.
  assert (Hnil : ∀ x : Z * unit_of_time, x ∈ @nil (Z * unit_of_time) → 0 < x.1)
    by (intros x Hx; by apply elem_of_nil in Hx).
  assert (Hone : ∀ (n : Z) (u : unit_of_time) (x : Z * unit_of_time),
                   0 < n → x ∈ [(n, u)] → 0 < x.1)
    by (intros n u x Hn Hx; by apply list_elem_of_singleton in Hx as ->).
  unfold format_mute_duration.
  destruct (decide (s < 60)) as [H1|H1];
    [rewrite (bool_decide_eq_true_2 _ H1) | rewrite (bool_decide_eq_false_2 _ H1)].
  { unfold stands_for. simpl. repeat split; try lia. apply Hnil. }
  destruct (decide (s < 3600)) as [H2|H2];
    [rewrite (bool_decide_eq_true_2 _ H2) | rewrite (bool_decide_eq_false_2 _ H2)].
  { pose proof (Z.div_mod s 60 ltac:(lia)) as Hd.
    pose proof (Z.mod_pos_bound s 60 ltac:(lia)) as Hm.
    destruct (decide (0 < s `mod` 60)) as [Hz|Hz];
      [rewrite (bool_decide_eq_true_2 _ Hz) | rewrite (bool_decide_eq_false_2 _ Hz)];
      unfold stands_for; simpl; repeat split; try lia.
    - intros x; by apply Hone.
    - apply Hnil. }
  destruct (decide (s < 86400)) as [H3|H3];
    [rewrite (bool_decide_eq_true_2 _ H3) | rewrite (bool_decide_eq_false_2 _ H3)].
  { pose proof (Z.div_mod s 3600 ltac:(lia)) as Hd.
    pose proof (Z.mod_pos_bound s 3600 ltac:(lia)) as Hm.
    pose proof (Z.div_mod (s `mod` 3600) 60 ltac:(lia)) as Hd'.
    pose proof (Z.mod_pos_bound (s `mod` 3600) 60 ltac:(lia)) as Hm'.
    destruct (decide (0 < (s `mod` 3600) `div` 60)) as [Hz|Hz];
      [rewrite (bool_decide_eq_true_2 _ Hz) | rewrite (bool_decide_eq_false_2 _ Hz)];
      unfold stands_for; simpl; repeat split; try lia.
    - intros x; by apply Hone.
    - apply Hnil. }
  pose proof (Z.div_mod s 86400 ltac:(lia)) as Hd.
  pose proof (Z.mod_pos_bound s 86400 ltac:(lia)) as Hm.
  pose proof (Z.div_mod (s `mod` 86400) 3600 ltac:(lia)) as Hd'.
  pose proof (Z.mod_pos_bound (s `mod` 86400) 3600 ltac:(lia)) as Hm'.
  destruct (decide (0 < (s `mod` 86400) `div` 3600)) as [Hz|Hz];
    [rewrite (bool_decide_eq_true_2 _ Hz) | rewrite (bool_decide_eq_false_2 _ Hz)];
    unfold stands_for; simpl; repeat split; try lia.
  - intros x; by apply Hone.
  - apply Hnil.
Qed.

Lemma format_mute_duration_truncates_witness :
  stands_for (format_mute_duration 3599) = 3599.
Proof.
  destruct (format_mute_duration_truncates 3599) as (_ & H & _).
  apply H. lia.
Defined.

End DurationFacts.

Section CooldownFacts.

Import VoteMute.

(** X29. the cooldown of a chat.  After [set_cooldown] at time [t] the chat
    may create a vote again exactly from [t] plus 180 seconds on; setting it
    again restarts the window from the later call; the cooldown of any other
    chat, the votes and the ballots are not touched. *)
Theorem cooldown_window (d : db) (t chat : Z) :
  (∀ now, check_cooldown now chat (set_cooldown t chat d) = true ↔ t + seconds 180 <= now)
  ∧ (∀ t' now, check_cooldown now chat (set_cooldown t' chat (set_cooldown t chat d)) = true
               ↔ t' + seconds 180 <= now)
  ∧ (∀ now other, other ≠ chat →
       check_cooldown now other (set_cooldown t chat d) = check_cooldown now other d)
  ∧ (∀ now, get_active_vote now chat (set_cooldown t chat d) = get_active_vote now chat d)
  ∧ (∀ j, get_vote_by_id j (set_cooldown t chat d) = get_vote_by_id j d)
  ∧ (∀ j, get_vote_results j (set_cooldown t chat d) = get_vote_results j d).
Proof.
  assert (Hset : ∀ t0 d0 now,
            check_cooldown now chat (set_cooldown t0 chat d0) = true ↔ t0 + seconds 180 <= now).
  { intros t0 d0 now. unfold check_cooldown, set_cooldown. simpl.
    rewrite lookup_insert_eq, bool_decide_eq_true. lia. }
  split; [intros now; apply Hset|]. split; [intros t' now; apply Hset|].
  split; [|done].
  intros now other Hother. unfold check_cooldown, set_cooldown. simpl.
  by rewrite lookup_insert_ne.
Qed.

Lemma cooldown_window_witness :
  check_cooldown (seconds 1100) 11 (set_cooldown (seconds 1000) 10 Samples.tied)
  = check_cooldown (seconds 1100) 11 Samples.tied.
Proof.
  destruct (cooldown_window Samples.tied (seconds 1000) 10) as (_ & _ & H & _).
  apply H. discriminate.
Defined.

End CooldownFacts.

Section ForgetFacts.

Import Friends.

(** X30. [delete_user_friends] forgets the user.  Afterwards the user is a
    friend of nobody, in either direction, has no friends listed and none
    counted, and holds no code; the friendships between other users and the
    codes of other users are as before. *)
Theorem delete_user_friends_forgets (d : db) (u : Z) :
  (∀ x, are_friends u x (delete_user_friends u d) = false
        ∧ are_friends x u (delete_user_friends u d) = false)
  ∧ get_friend_count u (delete_user_friends u d) = 0
  ∧ get_friends u (delete_user_friends u d) = []
  ∧ (∀ r, r ∈ friend_codes (delete_user_friends u d) ↔ r ∈ friend_codes d ∧ user_id r ≠ u)
  ∧ (∀ a b, a ≠ u → b ≠ u →
       are_friends a b (delete_user_friends u d) = are_friends a b d).
Proof.
  assert (Hin : ∀ f, f ∈ friendships (delete_user_friends u d)
                     ↔ f ∈ friendships d ∧ user_id_1 f ≠ u ∧ user_id_2 f ≠ u).
  { intros f. unfold delete_user_friends, involves. simpl.
    rewrite !list_elem_of_In, filter_In, negb_true_iff, orb_false_iff,
      !bool_decide_eq_false. tauto. }
  assert (Hnone : List.filter (involves u) (friendships (delete_user_friends u d)) = []).
  { clear Hin. unfold delete_user_friends. simpl.
    induction (friendships d) as [|f l IH]; simpl; [done|].
    destruct (involves u f) eqn:Hf; simpl; [done|]. by rewrite Hf. }
  assert (Hgone : ∀ x, are_friends u x (delete_user_friends u d) = false).
  { intros x. apply not_true_iff_false. rewrite are_friends_iff.
    intros (f & Hf & Hp). apply Hin in Hf as (_ & H1 & H2). lia. }
  split; [|split; [|split; [|split]]].
  - intros x. split; [done|]. by rewrite are_friends_sym.
  - unfold get_friend_count. by rewrite Hnone.
  - unfold get_friends. by rewrite Hnone.
  - intros r. unfold delete_user_friends. simpl.
    rewrite !list_elem_of_In, filter_In, negb_true_iff, bool_decide_eq_false. tauto.
  - intros a b Ha Hb. apply eq_true_iff_eq. rewrite !are_friends_iff.
    split; intros (f & Hf & Hp); exists f.
    + apply Hin in Hf as [Hf _]. done.
    + split; [|done]. apply Hin. split; [done|]. lia.
Qed.

Lemma delete_user_friends_forgets_witness :
  are_friends 2 3 (delete_user_friends 1 (Db [] [Friendship 1 2 7; Friendship 2 3 8]))
  = are_friends 2 3 (Db [] [Friendship 1 2 7; Friendship 2 3 8]).
Proof.
  destruct (delete_user_friends_forgets (Db [] [Friendship 1 2 7; Friendship 2 3 8]) 1)
    as (_ & _ & _ & _ & H).
  apply H; lia.
Defined.

End ForgetFacts.
